(** * Clan analyzer: rush scoring, war-attack extraction and history accumulation

    A shallow embedding of [src/api/clan_analyzer.py].  Python dictionaries
    with a fixed set of keys are records, the player store is a finite map
    keyed by player tag, insertion-ordered dictionaries that the code iterates
    are association lists, and Python numbers are either unbounded integers or
    IEEE-754 binary64 values computed with the rounding of [SpecFloat]. *)

From Stdlib Require Import ZArith Lia Bool.
From Stdlib Require Import Floats.SpecFloat.
From stdpp Require Import gmap strings list pretty.

Open Scope Z_scope.

(** ** Python numbers *)

Module PyNum.

(** binary64: 53 bits of precision, infinities at exponent 1024. *)
Definition prec : Z := 53.
Definition emax : Z := 1024.

Definition float : Type := spec_float.

Definition fadd : float -> float -> float := SFadd prec emax.
Definition fsub : float -> float -> float := SFsub prec emax.
Definition fmul : float -> float -> float := SFmul prec emax.
Definition fdiv : float -> float -> float := SFdiv prec emax.

(** [float(z)]: the integer rounded to the nearest double, ties to even.
    CPython raises [OverflowError] instead of returning an infinity when
    the magnitude reaches 2^1024 - 2^970; such integers are far outside any
    level or count handled here and the conversion is kept total. *)
Definition float_of_int (z : Z) : float := binary_normalize prec emax z 0 false.

(** An integer as an unrounded mantissa with exponent 0, the operand form
    of integer true division. *)
Definition raw_int (z : Z) : float :=
  match z with
  | Z0 => S754_zero false
  | Zpos m => S754_finite false m 0
  | Zneg m => S754_finite true m 0
  end.

(** The literals [0.3] and [0.4]: the doubles nearest to 3/10 and 4/10. *)
Definition lit_0_3 : float := S754_finite false 5404319552844595 (-54).
Definition lit_0_4 : float := S754_finite false 7205759403792794 (-54).

Inductive pynum :=
| PInt (z : Z)
| PFloat (f : float).

Definition to_float (a : pynum) : float :=
  match a with
  | PInt z => float_of_int z
  | PFloat f => f
  end.

(** [a + b], [a - b], [a * b]: exact on two integers, otherwise both
    operands are taken to double and the result is rounded once. *)
Definition py_add (a b : pynum) : pynum :=
  match a, b with
  | PInt x, PInt y => PInt (x + y)
  | _, _ => PFloat (fadd (to_float a) (to_float b))
  end.

Definition py_sub (a b : pynum) : pynum :=
  match a, b with
  | PInt x, PInt y => PInt (x - y)
  | _, _ => PFloat (fsub (to_float a) (to_float b))
  end.

Definition py_mul (a b : pynum) : pynum :=
  match a, b with
  | PInt x, PInt y => PInt (x * y)
  | _, _ => PFloat (fmul (to_float a) (to_float b))
  end.

(** [a / b] on two integers: the correctly rounded quotient of the integers
    themselves; [None] is [ZeroDivisionError]. *)
Definition int_truediv (a b : Z) : option pynum :=
  if b =? 0 then None else Some (PFloat (fdiv (raw_int a) (raw_int b))).

(** Exact comparison of a double with an integer (Python never rounds the
    integer for a comparison). *)
Definition float_cmp_int (f : float) (z : Z) : option comparison :=
  match f with
  | S754_nan => None
  | S754_infinity s => Some (if s then Lt else Gt)
  | S754_zero _ => Some (0 ?= z)
  | S754_finite s m e =>
      let v := cond_Zopp s (Zpos m) in
      Some match e with
           | Zneg p => v ?= z * 2 ^ Zpos p
           | _ => v * 2 ^ e ?= z
           end
  end.

Definition py_compare (a b : pynum) : option comparison :=
  match a, b with
  | PInt x, PInt y => Some (x ?= y)
  | PFloat f, PInt y => float_cmp_int f y
  | PInt x, PFloat g => option_map CompOpp (float_cmp_int g x)
  | PFloat f, PFloat g => SFcompare f g
  end.

(** [a <= b] and [a < b]; any comparison with a NaN is false. *)
Definition py_le (a b : pynum) : bool :=
  match py_compare a b with
  | Some Lt | Some Eq => true
  | _ => false
  end.

Definition py_lt (a b : pynum) : bool :=
  match py_compare a b with
  | Some Lt => true
  | _ => false
  end.

(** Nearest integer to [n / d] for [0 < d], ties to even. *)
Definition round_half_even (n d : Z) : Z :=
  let q := n / d in
  match 2 * (n mod d) ?= d with
  | Lt => q
  | Gt => q + 1
  | Eq => if Z.even q then q else q + 1
  end.

(** [round(x, 1)] on a double: the exact value of [x] is rounded to one
    decimal (ties to even) and the decimal is read back as the nearest
    double; zeros, infinities and NaN are returned unchanged. *)
Definition float_round1 (x : float) : float :=
  match x with
  | S754_finite s m e =>
      let tenths :=
        match e with
        | Zneg p => round_half_even (Zpos m * 10) (2 ^ Zpos p)
        | _ => Zpos m * 10 * 2 ^ e
        end in
      if tenths =? 0 then S754_zero s
      else fdiv (raw_int (cond_Zopp s tenths)) (raw_int 10)
  | _ => x
  end.

(** [round(a, 1)]: an integer is returned as it is. *)
Definition py_round1 (a : pynum) : pynum :=
  match a with
  | PInt z => PInt z
  | PFloat f => PFloat (float_round1 f)
  end.

End PyNum.

Import PyNum.

Arguments py_add : simpl never.
Arguments py_sub : simpl never.
Arguments py_mul : simpl never.
Arguments py_le : simpl never.
Arguments py_lt : simpl never.
Arguments py_round1 : simpl never.
Arguments int_truediv : simpl never.

(** ** Reference tables: maximum level per town hall *)

Module Tables.

(** A table row is an asset name with its [(town hall, max level)] pairs;
    [as_dict] builds the nested dictionaries of the source. *)
Definition rows := list (string * list (Z * Z)).

Definition as_dict (t : rows) : gmap string (gmap Z Z) :=
  list_to_map (prod_map id list_to_map <$> t).

Definition hero_rows : rows := [
  ("Barbarian King", [(7,5); (8,10); (9,30); (10,40); (11,50); (12,65); (13,75); (14,85); (15,90); (16,95); (17,100); (18,105)]);
  ("Archer Queen", [(8,10); (9,30); (10,40); (11,50); (12,65); (13,75); (14,85); (15,90); (16,95); (17,100); (18,105)]);
  ("Grand Warden", [(11,20); (12,40); (13,50); (14,55); (15,65); (16,70); (17,75); (18,80)]);
  ("Royal Champion", [(13,25); (14,30); (15,40); (16,45); (17,50); (18,55)]);
  ("Minion Prince", [(9,10); (10,20); (11,30); (12,40); (13,50); (14,60); (15,70); (16,80); (17,90); (18,95)])
]%string.

Definition troop_rows : rows := [
  ("Barbarian", [(1,1); (2,1); (3,2); (4,2); (5,3); (6,4); (7,4); (8,5); (9,6); (10,7); (11,8); (12,9); (13,10); (14,11); (15,11); (16,12); (17,12)]);
  ("Archer", [(1,1); (2,1); (3,2); (4,2); (5,3); (6,4); (7,4); (8,5); (9,6); (10,7); (11,8); (12,9); (13,10); (14,11); (15,11); (16,12); (17,12)]);
  ("Giant", [(1,1); (2,1); (3,2); (4,2); (5,3); (6,4); (7,5); (8,6); (9,7); (10,8); (11,9); (12,10); (13,10); (14,11); (15,11); (16,12); (17,12)]);
  ("Balloon", [(4,2); (5,3); (6,4); (7,5); (8,6); (9,6); (10,7); (11,8); (12,9); (13,10); (14,10); (15,10); (16,11); (17,11)]);
  ("Wizard", [(5,3); (6,4); (7,4); (8,5); (9,6); (10,7); (11,9); (12,10); (13,10); (14,11); (15,11); (16,12); (17,12)]);
  ("Healer", [(4,1); (5,2); (6,3); (7,3); (8,4); (9,4); (10,5); (11,5); (12,6); (13,7); (14,8); (15,8); (16,9); (17,9)]);
  ("Dragon", [(7,2); (8,3); (9,4); (10,5); (11,6); (12,7); (13,8); (14,9); (15,10); (16,11); (17,12)]);
  ("P.E.K.K.A", [(8,3); (9,4); (10,5); (11,6); (12,7); (13,8); (14,9); (15,10); (16,10); (17,11)]);
  ("Golem", [(8,2); (9,4); (10,5); (11,6); (12,7); (13,9); (14,10); (15,11); (16,12); (17,13)]);
  ("Witch", [(9,2); (10,3); (11,4); (12,5); (13,5); (14,6); (15,6); (16,7); (17,7)]);
  ("Lava Hound", [(9,2); (10,3); (11,4); (12,5); (13,6); (14,6); (15,6); (16,7); (17,7)]);
  ("Bowler", [(10,2); (11,3); (12,4); (13,5); (14,6); (15,6); (16,7); (17,7)]);
  ("Miner", [(10,3); (11,5); (12,6); (13,7); (14,8); (15,8); (16,9); (17,9)]);
  ("Electro Dragon", [(11,2); (12,3); (13,4); (14,5); (15,5); (16,6); (17,6)]);
  ("Yeti", [(12,2); (13,3); (14,4); (15,4); (16,5); (17,5)]);
  ("Dragon Rider", [(14,2); (15,3); (16,3); (17,4)]);
  ("Electro Titan", [(15,2); (16,3); (17,3)]);
  ("Root Rider", [(16,2); (17,3)])
]%string.

Definition spell_rows : rows := [
  ("Lightning Spell", [(5,4); (6,4); (7,4); (8,5); (9,6); (10,7); (11,8); (12,9); (13,9); (14,10); (15,10); (16,11); (17,11)]);
  ("Healing Spell", [(6,3); (7,4); (8,5); (9,6); (10,7); (11,7); (12,8); (13,8); (14,9); (15,9); (16,10); (17,10)]);
  ("Rage Spell", [(7,4); (8,5); (9,5); (10,5); (11,6); (12,6); (13,6); (14,6); (15,6); (16,6); (17,6)]);
  ("Jump Spell", [(9,2); (10,3); (11,3); (12,4); (13,4); (14,5); (15,5); (16,5); (17,5)]);
  ("Freeze Spell", [(9,1); (10,5); (11,6); (12,7); (13,7); (14,7); (15,7); (16,8); (17,8)]);
  ("Poison Spell", [(8,2); (9,3); (10,4); (11,5); (12,6); (13,7); (14,8); (15,9); (16,10); (17,10)]);
  ("Earthquake Spell", [(8,2); (9,3); (10,4); (11,5); (12,5); (13,5); (14,5); (15,5); (16,5); (17,5)]);
  ("Haste Spell", [(9,2); (10,4); (11,5); (12,5); (13,5); (14,5); (15,5); (16,5); (17,5)]);
  ("Clone Spell", [(10,3); (11,5); (12,6); (13,7); (14,7); (15,8); (16,8); (17,8)]);
  ("Invisibility Spell", [(11,2); (12,3); (13,4); (14,4); (15,4); (16,4); (17,4)]);
  ("Recall Spell", [(13,2); (14,3); (15,4); (16,5); (17,5)]);
  ("Bat Spell", [(10,3); (11,4); (12,5); (13,5); (14,5); (15,5); (16,5); (17,5)]);
  ("Overgrowth Spell", [(15,2); (16,3); (17,3)])
]%string.

Definition HERO_MAX_LEVELS : gmap string (gmap Z Z) := as_dict hero_rows.
Definition TROOP_MAX_LEVELS : gmap string (gmap Z Z) := as_dict troop_rows.
Definition SPELL_MAX_LEVELS : gmap string (gmap Z Z) := as_dict spell_rows.

(** [levels = TABLE.get(item_name, {})] then [levels.get(th_level)];
    an unknown [item_type] yields [None]. *)
Definition get_max_level_for_th (item_name : string) (th_level : Z)
    (item_type : string) : option Z :=
  if String.eqb item_type "hero" then
    default ∅ (HERO_MAX_LEVELS !! item_name) !! th_level
  else if String.eqb item_type "troop" then
    default ∅ (TROOP_MAX_LEVELS !! item_name) !! th_level
  else if String.eqb item_type "spell" then
    default ∅ (SPELL_MAX_LEVELS !! item_name) !! th_level
  else None.

End Tables.

Arguments Tables.get_max_level_for_th : simpl never.

(** ** Rush detection *)

Module Rush.
Import Tables.

(** One entry of [heroes], [troops] or [spells]; each field holds what
    [.get] returns for it (the default when the key is absent). *)
Record asset := {
  name : string;
  level : Z;
  village : string
}.

(** The player dictionary as [generate_rush_report] reads it;
    [townHallLevel] defaults to 1 and the lists to []. *)
Record player := {
  townHallLevel : Z;
  heroes : list asset;
  troops : list asset;
  spells : list asset
}.

(** An entry of [rushed_heroes], [rushed_troops] or [rushed_spells]. *)
Record deficit := {
  d_name : string;
  current : Z;
  target : Z;
  missing : Z
}.

(** The report dictionary.  The four keys that the short-circuit report
    does not have are optional. *)
Record rush_data := {
  is_rushed : bool;
  rush_score : pynum;
  rush_percentage : pynum;
  rushed_heroes : list deficit;
  rushed_troops : list deficit;
  rushed_spells : list deficit;
  hero_score : option pynum;
  troop_score : option pynum;
  spell_score : option pynum;
  total_missing_hero_levels : option Z;
  status : string
}.

(** [d[key] += x] on an optional key. *)
Definition add_to (o : option pynum) (x : pynum) : option pynum :=
  (fun v => py_add v x) <$> o.

Definition new_account_report : rush_data := {|
  is_rushed := false;
  rush_score := PInt 0;
  rush_percentage := PInt 0;
  rushed_heroes := [];
  rushed_troops := [];
  rushed_spells := [];
  hero_score := None;
  troop_score := None;
  spell_score := None;
  total_missing_hero_levels := None;
  status := "New Account"
|}.

Definition initial_rush_data : rush_data := {|
  is_rushed := false;
  rush_score := PFloat (S754_zero false);
  rush_percentage := PInt 0;
  rushed_heroes := [];
  rushed_troops := [];
  rushed_spells := [];
  hero_score := Some (PInt 0);
  troop_score := Some (PInt 0);
  spell_score := Some (PInt 0);
  total_missing_hero_levels := Some 0;
  status := "Not Rushed"
|}.

(** The state of one category loop: the report being filled in and the
    running [total_*_possible] and [total_*_current]. *)
Record scan := {
  data : rush_data;
  possible : Z;
  current_sum : Z
}.

(** Body of [for hero in heroes]. *)
Definition check_hero (previous_th : Z) (st : scan) (hero : asset) : scan :=
  let hero_name := name hero in
  let hero_level := level hero in
  if negb (String.eqb (village hero) "home") then st
  else
    match get_max_level_for_th hero_name previous_th "hero" with
    | Some max_at_prev =>
        if 0 <? max_at_prev then
          let rd := data st in
          let rd' :=
            if hero_level <? max_at_prev then
              let missing_levels := max_at_prev - hero_level in
              {| is_rushed := is_rushed rd;
                 rush_score := rush_score rd;
                 rush_percentage := rush_percentage rd;
                 rushed_heroes := rushed_heroes rd ++
                   [{| d_name := hero_name; current := hero_level;
                       target := max_at_prev; missing := missing_levels |}];
                 rushed_troops := rushed_troops rd;
                 rushed_spells := rushed_spells rd;
                 hero_score := add_to (hero_score rd) (PInt missing_levels);
                 troop_score := troop_score rd;
                 spell_score := spell_score rd;
                 total_missing_hero_levels :=
                   (fun v => v + missing_levels) <$> total_missing_hero_levels rd;
                 status := status rd |}
            else rd in
          {| data := rd';
             possible := possible st + max_at_prev;
             current_sum := current_sum st + Z.min hero_level max_at_prev |}
        else st
    | None => st
    end.

(** Body of [for troop in troops]. *)
Definition check_troop (previous_th : Z) (st : scan) (troop : asset) : scan :=
  let troop_name := name troop in
  let troop_level := level troop in
  if negb (String.eqb (village troop) "home") then st
  else
    match get_max_level_for_th troop_name previous_th "troop" with
    | Some max_at_prev =>
        if 0 <? max_at_prev then
          let rd := data st in
          let rd' :=
            if troop_level <? max_at_prev then
              let missing_levels := max_at_prev - troop_level in
              {| is_rushed := is_rushed rd;
                 rush_score := rush_score rd;
                 rush_percentage := rush_percentage rd;
                 rushed_heroes := rushed_heroes rd;
                 rushed_troops := rushed_troops rd ++
                   [{| d_name := troop_name; current := troop_level;
                       target := max_at_prev; missing := missing_levels |}];
                 rushed_spells := rushed_spells rd;
                 hero_score := hero_score rd;
                 troop_score :=
                   add_to (troop_score rd)
                     (py_mul (PInt missing_levels) (PFloat lit_0_3));
                 spell_score := spell_score rd;
                 total_missing_hero_levels := total_missing_hero_levels rd;
                 status := status rd |}
            else rd in
          {| data := rd';
             possible := possible st + max_at_prev;
             current_sum := current_sum st + Z.min troop_level max_at_prev |}
        else st
    | None => st
    end.

(** Body of [for spell in spells]. *)
Definition check_spell (previous_th : Z) (st : scan) (spell : asset) : scan :=
  let spell_name := name spell in
  let spell_level := level spell in
  if negb (String.eqb (village spell) "home") then st
  else
    match get_max_level_for_th spell_name previous_th "spell" with
    | Some max_at_prev =>
        if 0 <? max_at_prev then
          let rd := data st in
          let rd' :=
            if spell_level <? max_at_prev then
              let missing_levels := max_at_prev - spell_level in
              {| is_rushed := is_rushed rd;
                 rush_score := rush_score rd;
                 rush_percentage := rush_percentage rd;
                 rushed_heroes := rushed_heroes rd;
                 rushed_troops := rushed_troops rd;
                 rushed_spells := rushed_spells rd ++
                   [{| d_name := spell_name; current := spell_level;
                       target := max_at_prev; missing := missing_levels |}];
                 hero_score := hero_score rd;
                 troop_score := troop_score rd;
                 spell_score :=
                   add_to (spell_score rd)
                     (py_mul (PInt missing_levels) (PFloat lit_0_4));
                 total_missing_hero_levels := total_missing_hero_levels rd;
                 status := status rd |}
            else rd in
          {| data := rd';
             possible := possible st + max_at_prev;
             current_sum := current_sum st + Z.min spell_level max_at_prev |}
        else st
    | None => st
    end.

(** One category loop, started with its two totals at 0. *)
Definition run_loop (body : scan -> asset -> scan) (rd : rush_data)
    (items : list asset) : scan :=
  fold_left body items {| data := rd; possible := 0; current_sum := 0 |}.

Definition set_score_and_percentage (rd : rush_data) (score pct : pynum)
    : rush_data :=
  {| is_rushed := is_rushed rd;
     rush_score := score;
     rush_percentage := pct;
     rushed_heroes := rushed_heroes rd;
     rushed_troops := rushed_troops rd;
     rushed_spells := rushed_spells rd;
     hero_score := hero_score rd;
     troop_score := troop_score rd;
     spell_score := spell_score rd;
     total_missing_hero_levels := total_missing_hero_levels rd;
     status := status rd |}.

Definition set_status (rd : rush_data) (s : string) (rushed : bool)
    : rush_data :=
  {| is_rushed := rushed;
     rush_score := rush_score rd;
     rush_percentage := rush_percentage rd;
     rushed_heroes := rushed_heroes rd;
     rushed_troops := rushed_troops rd;
     rushed_spells := rushed_spells rd;
     hero_score := hero_score rd;
     troop_score := troop_score rd;
     spell_score := spell_score rd;
     total_missing_hero_levels := total_missing_hero_levels rd;
     status := s |}.

(** Step 5 of the source, the [if score <= 3 ... else] chain. *)
Definition determine_status (rd : rush_data) : rush_data :=
  let score := rush_score rd in
  if py_le score (PInt 3) then set_status rd "✅ Maxed" false
  else if py_le score (PInt 10) then set_status rd "🟢 Slightly Behind" false
  else if py_le score (PInt 25) then set_status rd "🟡 Moderately Rushed" true
  else if py_le score (PInt 50) then set_status rd "🟠 Rushed" true
  else set_status rd "🔴 Severely Rushed" true.

(** The extra penalty for very low heroes, [if hero_missing > 20]. *)
Definition hero_penalty (rd : rush_data) : rush_data :=
  match total_missing_hero_levels rd with
  | Some hero_missing =>
      if 20 <? hero_missing
      then set_status rd "🔴 Severely Rushed (Heroes)" true
      else rd
  | None => rd
  end.

(** [round(100 - (total_current / total_possible) * 100, 1)];
    [None] when the division raises. *)
Definition percentage_behind (total_current total_possible : Z)
    : option pynum :=
  match int_truediv total_current total_possible with
  | Some q =>
      let completion_pct := py_mul q (PInt 100) in
      Some (py_round1 (py_sub (PInt 100) completion_pct))
  | None => None
  end.

(** The three loops and the score of step 4, before the percentage. *)
Definition scan_heroes (p : player) : scan :=
  run_loop (check_hero (townHallLevel p - 1)) initial_rush_data (heroes p).
Definition scan_troops (p : player) : scan :=
  run_loop (check_troop (townHallLevel p - 1)) (data (scan_heroes p)) (troops p).
Definition scan_spells (p : player) : scan :=
  run_loop (check_spell (townHallLevel p - 1)) (data (scan_troops p)) (spells p).

Definition sum_scores (rd : rush_data) : option pynum :=
  match hero_score rd, troop_score rd, spell_score rd with
  | Some h, Some t, Some s => Some (py_add (py_add h t) s)
  | _, _, _ => None
  end.

(** [generate_rush_report(player)]; [None] stands for an exception
    ([ZeroDivisionError], or a key missing from the report). *)
Definition generate_rush_report (p : player) : option rush_data :=
  let th_level := townHallLevel p in
  if th_level <=? 2 then Some new_account_report
  else
    let sh := scan_heroes p in
    let stp := scan_troops p in
    let ss := scan_spells p in
    let rd := data ss in
    match sum_scores rd with
    | None => None
    | Some score =>
        let total_possible := possible sh + possible stp + possible ss in
        let total_current := current_sum sh + current_sum stp + current_sum ss in
        let pct :=
          if 0 <? total_possible
          then percentage_behind total_current total_possible
          else Some (rush_percentage rd) in
        match pct with
        | None => None
        | Some pct =>
            Some (hero_penalty
                    (determine_status (set_score_and_percentage rd score pct)))
        end
    end.

End Rush.

(** ** The rush score and percentage as the specification words them *)

Module RushSpec.
Import Tables Rush.

Definition Zsum (l : list Z) : Z := foldr Z.add 0 l.

(** The reference target of an asset: the table entry at (name, tier - 1),
    for home-village assets only. *)
Definition reference_target (item_type : string) (tier : Z) (a : asset) : option Z :=
  if String.eqb (village a) "home"
  then get_max_level_for_th (name a) (tier - 1) item_type
  else None.

Definition weight (item_type : string) : pynum :=
  if String.eqb item_type "hero" then PInt 1
  else if String.eqb item_type "troop" then PFloat lit_0_3
  else PFloat lit_0_4.

Definition missing_levels (item_type : string) (tier : Z) (a : asset) : option Z :=
  match reference_target item_type tier a with
  | Some t => if level a <? t then Some (t - level a) else None
  | None => None
  end.

Definition category_score (item_type : string) (tier : Z) (items : list asset) : pynum :=
  fold_left (fun acc m => py_add acc (py_mul (PInt m) (weight item_type)))
    (omap (missing_levels item_type tier) items) (PInt 0).

Definition weighted_missing_levels (p : player) : pynum :=
  let tier := townHallLevel p in
  py_add (py_add (category_score "hero" tier (heroes p))
                 (category_score "troop" tier (troops p)))
         (category_score "spell" tier (spells p)).

(** A scoreable asset's level, capped at its target. *)
Definition capped (item_type : string) (tier : Z) (a : asset) : option Z :=
  Z.min (level a) <$> reference_target item_type tier a.

(** The two totals behind the percentage: the reference targets of all
    scoreable assets, and their levels capped at the target. *)
Definition total_possible (p : player) : Z :=
  let tier := townHallLevel p in
  Zsum (omap (reference_target "hero" tier) (heroes p)) +
  Zsum (omap (reference_target "troop" tier) (troops p)) +
  Zsum (omap (reference_target "spell" tier) (spells p)).

Definition total_current (p : player) : Z :=
  let tier := townHallLevel p in
  Zsum (omap (capped "hero" tier) (heroes p)) +
  Zsum (omap (capped "troop" tier) (troops p)) +
  Zsum (omap (capped "spell" tier) (spells p)).

Definition hero_levels_missing (p : player) : Z :=
  Zsum (omap (missing_levels "hero" (townHallLevel p)) (heroes p)).

(** The percentage the report carries. *)
Definition percentage_of (p : player) : pynum :=
  if 0 <? total_possible p
  then py_round1 (py_sub (PInt 100)
         (py_mul (PFloat (fdiv (raw_int (total_current p)) (raw_int (total_possible p))))
                 (PInt 100)))
  else PInt 0.

(** The same player with one of the three lists replaced. *)
Definition with_heroes (p : player) (l : list asset) : player :=
  {| townHallLevel := townHallLevel p; heroes := l;
     troops := troops p; spells := spells p |}.
Definition with_troops (p : player) (l : list asset) : player :=
  {| townHallLevel := townHallLevel p; heroes := heroes p;
     troops := l; spells := spells p |}.
Definition with_spells (p : player) (l : list asset) : player :=
  {| townHallLevel := townHallLevel p; heroes := heroes p;
     troops := troops p; spells := l |}.

End RushSpec.

(** ** Sample players *)

Module Examples.
Import Rush.
Definition home_asset (n : string) (l : Z) : asset :=
  {| name := n; level := l; village := "home" |}.

(** Town hall 10, Barbarian King 21 levels under the town hall 9 maximum. *)
Definition low_king : player :=
  {| townHallLevel := 10;
     heroes := [home_asset "Barbarian King" 9];
     troops := [home_asset "Barbarian" 6];
     spells := [home_asset "Lightning Spell" 6] |}.

(** Town hall 13, two troop levels and six spell levels missing. *)
Definition slightly_behind : player :=
  {| townHallLevel := 13;
     heroes := [home_asset "Barbarian King" 65];
     troops := [home_asset "Barbarian" 7; home_asset "Super Barbarian" 1];
     spells := [home_asset "Lightning Spell" 3] |}.

Definition fresh_account : player :=
  {| townHallLevel := 2;
     heroes := [];
     troops := [home_asset "Barbarian" 1];
     spells := [] |}.
End Examples.


(** ** War-attack extraction *)

Module War.

(** An entry of a member's [attacks] list in the war record. *)
Record raw_attack := {
  defenderTag : string;
  raw_stars : Z;
  destructionPercentage : pynum
}.

(** A roster member of either side.  [tag] is [None] when the key is
absent; the other fields hold what [.get] returns. *)
Record member := {
  name : string;
  tag : option string;
  townhallLevel : Z;
  mapPosition : Z;
  attacks : list raw_attack
}.

(** The war record: the two rosters, [war['clan']['members']] and
[war['opponent']['members']]. *)
Record war := {
  clan_members : list member;
  opponent_members : list member
}.

(** An entry of a player's ['attacks'] list in the extractor's output. *)
Record attack := {
  stars : Z;
  destruction : pynum;
  defender_th : Z;
  defender_pos : Z;
  hit_type : string
}.

(** The per-player dictionary built by the extractor. *)
Record player_stats := {
  ps_name : string;
  ps_tag : string;
  th : Z;
  ps_attacks : list attack;
  total_stars : Z;
  total_destruction : pynum;
  new_stars : Z;
  attacks_used : Z;
  missed_attacks : Z;
  three_stars : Z;
  two_stars : Z;
  one_star : Z;
  zero_stars : Z;
  hit_up : Z;
  hit_same : Z;
  hit_down : Z
}.

(** A dictionary in insertion order: [d[k] = v] replaces the value of a
present key where it stands and appends an absent key at the end. *)
Definition odict (V : Type) : Type := list (string * V).

Fixpoint od_get {V} (d : odict V) (k : string) : option V :=
  match d with
  | [] => None
  | (k', v) :: d' => if String.eqb k k' then Some v else od_get d' k
  end.

Fixpoint od_set {V} (k : string) (v : V) (d : odict V) : odict V :=
  match d with
  | [] => [(k, v)]
  | (k', v') :: d' =>
      if String.eqb k k' then (k', v) :: d' else (k', v') :: od_set k v d'
  end.

(** [sorted(items, key=...)]: insertion sort, an element staying ahead of
the later elements with the same key. *)
Fixpoint insert_by {A} (key : A -> Z) (x : A) (l : list A) : list A :=
  match l with
  | [] => [x]
  | y :: l' => if key x <=? key y then x :: l else y :: insert_by key x l'
  end.

Definition sorted_by {A} (key : A -> Z) (l : list A) : list A :=
  foldr (insert_by key) [] l.

(** [{m.get('tag'): m for m in opponent_members}]: a later member replaces
an earlier one with the same tag. *)
Definition opponent_lookup (opponent_members : list member)
    : gmap (option string) member :=
  fold_left (fun d m => <[tag m := m]> d) opponent_members ∅.

Definition initial_stats (name tag : string) (th : Z) : player_stats := {|
  ps_name := name;
  ps_tag := tag;
  th := th;
  ps_attacks := [];
  total_stars := 0;
  total_destruction := PInt 0;
  new_stars := 0;
  attacks_used := 0;
  missed_attacks := 0;
  three_stars := 0;
  two_stars := 0;
  one_star := 0;
  zero_stars := 0;
  hit_up := 0;
  hit_same := 0;
  hit_down := 0
|}.

(** Body of [for attack in attacks], on the entry [player_stats[tag]];
[th] is the attacking member's town hall. *)
Definition record_attack (lookup : gmap (option string) member) (th_m : Z)
    (st : player_stats) (a : raw_attack) : player_stats :=
  let defender := lookup !! Some (defenderTag a) in
  let defender_th := from_option townhallLevel 0 defender in
  let defender_pos := from_option mapPosition 0 defender in
  let stars := raw_stars a in
  let destruction := destructionPercentage a in
  let hit_type :=
    if th_m <? defender_th then "↑ UP"
    else if defender_th <? th_m then "↓ DOWN"
    else "= SAME" in
  {| ps_name := ps_name st;
     ps_tag := ps_tag st;
     th := th st;
     ps_attacks := ps_attacks st ++
       [{| stars := stars; destruction := destruction;
           defender_th := defender_th; defender_pos := defender_pos;
           hit_type := hit_type |}];
     total_stars := total_stars st + stars;
     total_destruction := py_add (total_destruction st) destruction;
     new_stars := new_stars st;
     attacks_used := attacks_used st + 1;
     missed_attacks := missed_attacks st;
     three_stars := if stars =? 3 then three_stars st + 1 else three_stars st;
     two_stars :=
       if stars =? 3 then two_stars st
       else if stars =? 2 then two_stars st + 1 else two_stars st;
     one_star :=
       if stars =? 3 then one_star st
       else if stars =? 2 then one_star st
       else if stars =? 1 then one_star st + 1 else one_star st;
     zero_stars :=
       if stars =? 3 then zero_stars st
       else if stars =? 2 then zero_stars st
       else if stars =? 1 then zero_stars st else zero_stars st + 1;
     hit_up := if th_m <? defender_th then hit_up st + 1 else hit_up st;
     hit_same :=
       if th_m <? defender_th then hit_same st
       else if defender_th <? th_m then hit_same st else hit_same st + 1;
     hit_down :=
       if th_m <? defender_th then hit_down st
       else if defender_th <? th_m then hit_down st + 1 else hit_down st |}.

Definition set_missed_attacks (st : player_stats) (n : Z) : player_stats :=
  {| ps_name := ps_name st;
     ps_tag := ps_tag st;
     th := th st;
     ps_attacks := ps_attacks st;
     total_stars := total_stars st;
     total_destruction := total_destruction st;
     new_stars := new_stars st;
     attacks_used := attacks_used st;
     missed_attacks := n;
     three_stars := three_stars st;
     two_stars := two_stars st;
     one_star := one_star st;
     zero_stars := zero_stars st;
     hit_up := hit_up st;
     hit_same := hit_same st;
     hit_down := hit_down st |}.

(** Body of [for member in members_sorted]. *)
Definition analyze_member (lookup : gmap (option string) member)
    (stats : odict player_stats) (m : member) : odict player_stats :=
  let name := name m in
  let tag := default "" (tag m) in
  let th := townhallLevel m in
  let entry := default (initial_stats name tag th) (od_get stats tag) in
  match attacks m with
  | [] => od_set tag (set_missed_attacks entry 2) stats
  | _ :: _ => od_set tag (fold_left (record_attack lookup th) (attacks m) entry) stats
  end.

(** [analyze_war_attacks(war)]: the returned [player_stats]; the printed
tables are left out. *)
Definition analyze_war_attacks (w : war) : odict player_stats :=
  match clan_members w with
  | [] => []
  | _ :: _ =>
      let lookup := opponent_lookup (opponent_members w) in
      let members_sorted := sorted_by mapPosition (clan_members w) in
      fold_left (analyze_member lookup) members_sorted []
  end.

(** The list [missed] that the function prints before it returns:
[(p['name'], 2 - p['attacks_used'])] for every entry with fewer than two
attacks. *)
Definition missed (stats : odict player_stats) : list (string * Z) :=
  omap (fun kv : string * player_stats =>
          if attacks_used kv.2 <? 2
          then Some (ps_name kv.2, 2 - attacks_used kv.2)
          else None) stats.

End War.

(** ** Historical accumulation *)

Module History.

(** An entry of a player's [attacks_history]. *)
Record attack_record := {
  war_id : string;
  war_type : string;
  date : string;
  stars : Z;
  destruction : pynum;
  defender_th : Z;
  attacker_th : Z;
  hit_type : string
}.

(** A player's record in [historical_data["players"]]. *)
Record player_record := {
  name : string;
  tag : string;
  current_th : Z;
  total_attacks : Z;
  total_stars : Z;
  total_destruction : pynum;
  three_stars : Z;
  two_stars : Z;
  one_star : Z;
  zero_stars : Z;
  wars_participated : Z;
  cwl_seasons_played : Z;
  attacks_history : list attack_record;
  war_ids : list string
}.

(** A value of [historical_data["cwl_seasons"]]. *)
Record cwl_season := {
  season : string;
  wars_analyzed : Z;
  season_total_attacks : Z;
  season_total_stars : Z;
  recorded_date : string;
  complete : bool
}.

(** The persisted document.  Its keys [wars] and [war_log] are reserved:
no function embedded here reads or writes them. *)
Record historical_data := {
  clan_tag : string;
  last_updated : option string;
  players : gmap string player_record;
  cwl_seasons : gmap string cwl_season
}.

Definition create_empty_data_structure (clan : string) : historical_data := {|
  clan_tag := clan;
  last_updated := None;
  players := ∅;
  cwl_seasons := ∅
|}.

Definition set_players (hd : historical_data)
    (ps : gmap string player_record) : historical_data :=
  {| clan_tag := clan_tag hd;
     last_updated := last_updated hd;
     players := ps;
     cwl_seasons := cwl_seasons hd |}.

(** The record created for a player tag seen for the first time. *)
Definition new_player_record (player_tag player_name : string) (th_level : Z)
    : player_record := {|
  name := player_name;
  tag := player_tag;
  current_th := th_level;
  total_attacks := 0;
  total_stars := 0;
  total_destruction := PFloat (S754_zero false);
  three_stars := 0;
  two_stars := 0;
  one_star := 0;
  zero_stars := 0;
  wars_participated := 0;
  cwl_seasons_played := 0;
  attacks_history := [];
  war_ids := []
|}.

(** [player["name"] = player_name] and
[player["current_th"] = max(player["current_th"], th_level)]. *)
Definition refresh (player : player_record) (player_name : string)
    (th_level : Z) : player_record :=
  {| name := player_name;
     tag := tag player;
     current_th := Z.max (current_th player) th_level;
     total_attacks := total_attacks player;
     total_stars := total_stars player;
     total_destruction := total_destruction player;
     three_stars := three_stars player;
     two_stars := two_stars player;
     one_star := one_star player;
     zero_stars := zero_stars player;
     wars_participated := wars_participated player;
     cwl_seasons_played := cwl_seasons_played player;
     attacks_history := attacks_history player;
     war_ids := war_ids player |}.

(** [player["war_ids"].append(war_id)] and
[player["wars_participated"] += 1]. *)
Definition enter_war (player : player_record) (id : string) : player_record :=
  {| name := name player;
     tag := tag player;
     current_th := current_th player;
     total_attacks := total_attacks player;
     total_stars := total_stars player;
     total_destruction := total_destruction player;
     three_stars := three_stars player;
     two_stars := two_stars player;
     one_star := one_star player;
     zero_stars := zero_stars player;
     wars_participated := wars_participated player + 1;
     cwl_seasons_played := cwl_seasons_played player;
     attacks_history := attacks_history player;
     war_ids := war_ids player ++ [id] |}.

(** Body of [for attack in attack_data.get('attacks', [])]; [now] is the
reading of the clock for this attack. *)
Definition record_attack (th_level : Z) (type id now : string)
    (player : player_record) (attack : War.attack) : player_record :=
  let attack_record :=
    {| war_id := id;
       war_type := type;
       date := now;
       stars := War.stars attack;
       destruction := War.destruction attack;
       defender_th := War.defender_th attack;
       attacker_th := th_level;
       hit_type := War.hit_type attack |} in
  let stars := War.stars attack in
  {| name := name player;
     tag := tag player;
     current_th := current_th player;
     total_attacks := total_attacks player + 1;
     total_stars := total_stars player + War.stars attack;
     total_destruction :=
       py_add (total_destruction player) (War.destruction attack);
     three_stars :=
       if stars =? 3 then three_stars player + 1 else three_stars player;
     two_stars :=
       if stars =? 3 then two_stars player
       else if stars =? 2 then two_stars player + 1 else two_stars player;
     one_star :=
       if stars =? 3 then one_star player
       else if stars =? 2 then one_star player
       else if stars =? 1 then one_star player + 1 else one_star player;
     zero_stars :=
       if stars =? 3 then zero_stars player
       else if stars =? 2 then zero_stars player
       else if stars =? 1 then zero_stars player
       else zero_stars player + 1;
     wars_participated := wars_participated player;
     cwl_seasons_played := cwl_seasons_played player;
     attacks_history := attacks_history player ++ [attack_record];
     war_ids := war_ids player |}.

(** The attack loop; the [i]-th attack of the call reads the clock as
[clock i]. *)
Fixpoint record_attacks (th_level : Z) (type id : string) (clock : nat -> string)
    (i : nat) (player : player_record) (attacks : list War.attack)
    : player_record :=
  match attacks with
  | [] => player
  | attack :: rest =>
      record_attacks th_level type id clock (S i)
        (record_attack th_level type id (clock i) player attack) rest
  end.

(** [update_player_historical_stats]: the store after the call. *)
Definition update_player_historical_stats (hd : historical_data)
    (player_tag player_name : string) (th_level : Z)
    (attack_data : War.player_stats) (type id : string)
    (clock : nat -> string) : historical_data :=
  let created :=
    default (new_player_record player_tag player_name th_level)
            (players hd !! player_tag) in
  let player := refresh created player_name th_level in
  if bool_decide (id ∈ war_ids player) then
    set_players hd (<[player_tag := player]> (players hd))
  else
    let player := enter_war player id in
    let player :=
      record_attacks th_level type id clock 0 player
        (War.ps_attacks attack_data) in
    set_players hd (<[player_tag := player]> (players hd)).

End History.

(** ** Statements about the history store *)

Module HistorySpec.
Import History.

(** The counters, the attack log and the war-id list of two records agree
(the display name and [current_th] may differ). *)
Definition same_statistics (r r' : player_record) : Prop :=
  total_attacks r' = total_attacks r /\
  total_stars r' = total_stars r /\
  total_destruction r' = total_destruction r /\
  three_stars r' = three_stars r /\
  two_stars r' = two_stars r /\
  one_star r' = one_star r /\
  zero_stars r' = zero_stars r /\
  wars_participated r' = wars_participated r /\
  cwl_seasons_played r' = cwl_seasons_played r /\
  attacks_history r' = attacks_history r /\
  war_ids r' = war_ids r.

(** The counters of a record agree with each other and with its log. *)
Definition consistent (r : player_record) : Prop :=
  total_attacks r = three_stars r + two_stars r + one_star r + zero_stars r /\
  total_attacks r = Z.of_nat (length (attacks_history r)).

(** The arguments of one call of [update_player_historical_stats]. *)
Record call := {
  c_tag : string;
  c_name : string;
  c_th : Z;
  c_data : War.player_stats;
  c_type : string;
  c_war_id : string;
  c_clock : nat -> string
}.

Definition apply_call (hd : historical_data) (c : call) : historical_data :=
  update_player_historical_stats hd (c_tag c) (c_name c) (c_th c) (c_data c)
    (c_type c) (c_war_id c) (c_clock c).

(** The store after a sequence of calls on the empty store. *)
Definition run (clan : string) (calls : list call) : historical_data :=
  fold_left apply_call calls (create_empty_data_structure clan).

End HistorySpec.

(** ** Sample calls *)

Module HistoryExamples.
Import HistorySpec.

Definition three_star_hit : War.attack :=
  {| War.stars := 3; War.destruction := PInt 100; War.defender_th := 12;
     War.defender_pos := 4; War.hit_type := "= SAME" |}.

Definition failed_hit : War.attack :=
  {| War.stars := 0; War.destruction := PInt 37; War.defender_th := 13;
     War.defender_pos := 2; War.hit_type := "↑ UP" |}.

Definition stats_with (hits : list War.attack) : War.player_stats :=
  {| War.ps_name := "Ann"; War.ps_tag := "#P1"; War.th := 12;
     War.ps_attacks := hits;
     War.total_stars := 0; War.total_destruction := PInt 0;
     War.new_stars := 0; War.attacks_used := Z.of_nat (length hits);
     War.missed_attacks := 0;
     War.three_stars := 0; War.two_stars := 0; War.one_star := 0;
     War.zero_stars := 0; War.hit_up := 0; War.hit_same := 0;
     War.hit_down := 0 |}.

Definition first_fetch : call :=
  {| c_tag := "#P1"; c_name := "Ann"; c_th := 12;
     c_data := stats_with [three_star_hit];
     c_type := "regular_war"; c_war_id := "#A_#B_20250101T000000.000Z";
     c_clock := fun _ => "2025-01-02T10:00:00" |}.

Definition store_after_first_fetch : History.historical_data :=
  run "#2J28LL2VU" [first_fetch].

Definition record_after_first_fetch : History.player_record :=
  History.record_attack 12 "regular_war" "#A_#B_20250101T000000.000Z"
    "2025-01-02T10:00:00"
    (History.enter_war (History.new_player_record "#P1" "Ann" 12)
       "#A_#B_20250101T000000.000Z")
    three_star_hit.

End HistoryExamples.

(** ** Statements about the extractor *)

Module WarSpec.
Import War.

(** The key under which a roster member is filed, [member.get('tag', '')]. *)
Definition member_tag (m : member) : string := default "" (tag m).

(** The number of attacks that the roster entries filed under [t] made. *)
Fixpoint attacks_recorded (roster : list member) (t : string) : Z :=
  match roster with
  | [] => 0
  | m :: rest =>
      (if String.eqb (member_tag m) t then Z.of_nat (length (attacks m)) else 0)
      + attacks_recorded rest t
  end.

(** The attacks counted under a key, 0 for an absent key. *)
Definition used_at (d : odict player_stats) (t : string) : Z :=
  from_option attacks_used 0 (od_get d t).

End WarSpec.

(** ** A sample war *)

Module WarExamples.
Import War.

Definition attacker : member :=
  {| name := "Ann"; tag := Some "#P1"; townhallLevel := 12; mapPosition := 2;
     attacks := [{| defenderTag := "#E1"; raw_stars := 3;
                    destructionPercentage := PInt 100 |}] |}.

Definition sleeper : member :=
  {| name := "Bob"; tag := Some "#P2"; townhallLevel := 11; mapPosition := 1;
     attacks := [] |}.

Definition enemy : member :=
  {| name := "Eve"; tag := Some "#E1"; townhallLevel := 13; mapPosition := 1;
     attacks := [] |}.

Definition small_war : war :=
  {| clan_members := [attacker; sleeper]; opponent_members := [enemy] |}.

End WarExamples.

(** ** Clan War League aggregation *)

Module CWL.

(** One side of a league war, [war['clan']] or [war['opponent']]; only the
tag and the roster matter to the analysis. *)
Record side := {
  side_tag : option string;
  side_name : string;
  members : list War.member
}.

(** A league war as the API returns it. *)
Record cwl_war := {
  war_state : string;
  clan : side;
  opponent : side
}.

(** The league group: its [state] and [season] (defaults ['unknown'] and
['N/A']) and, per round, the list of war tags. *)
Record cwl_group := {
  state : string;
  season : string;
  rounds : list (list string)
}.

(** A value of [all_player_stats]. *)
Record aggregate := {
  name : string;
  tag : string;
  th : Z;
  total_stars : Z;
  total_destruction : pynum;
  attacks_used : Z;
  three_stars : Z;
  two_stars : Z;
  one_star : Z;
  zero_stars : Z;
  wars_participated : Z;
  hit_up : Z;
  hit_same : Z;
  hit_down : Z
}.

(** The [defaultdict] factory. *)
Definition empty_aggregate : aggregate := {|
  name := "";
  tag := "";
  th := 0;
  total_stars := 0;
  total_destruction := PInt 0;
  attacks_used := 0;
  three_stars := 0;
  two_stars := 0;
  one_star := 0;
  zero_stars := 0;
  wars_participated := 0;
  hit_up := 0;
  hit_same := 0;
  hit_down := 0
|}.

(** The aggregation lines of [for tag, stats in war_stats.items()]. *)
Definition merge_stats (a : aggregate) (stats : War.player_stats) : aggregate :=
  {| name := War.ps_name stats;
     tag := War.ps_tag stats;
     th := Z.max (th a) (War.th stats);
     total_stars := total_stars a + War.total_stars stats;
     total_destruction :=
       py_add (total_destruction a) (War.total_destruction stats);
     attacks_used := attacks_used a + War.attacks_used stats;
     three_stars := three_stars a + War.three_stars stats;
     two_stars := two_stars a + War.two_stars stats;
     one_star := one_star a + War.one_star stats;
     zero_stars := zero_stars a + War.zero_stars stats;
     wars_participated :=
       if 0 <? War.attacks_used stats
       then wars_participated a + 1 else wars_participated a;
     hit_up := hit_up a + War.hit_up stats;
     hit_same := hit_same a + War.hit_same stats;
     hit_down := hit_down a + War.hit_down stats |}.

(** The variables of [analyze_cwl] that its loops update; [ticks] counts
the readings of the clock so far. *)
Record progress := {
  historical_data : History.historical_data;
  all_player_stats : War.odict aggregate;
  wars_analyzed : Z;
  current_state : string;
  ticks : nat
}.

(** The clock readings one call of [update_player_historical_stats] makes:
one per attack, none when the war is already recorded. *)
Definition readings (hd : History.historical_data) (player_tag id : string)
    (stats : War.player_stats) : nat :=
  match History.players hd !! player_tag with
  | Some r =>
      if bool_decide (id ∈ History.war_ids r) then 0%nat
      else length (War.ps_attacks stats)
  | None => length (War.ps_attacks stats)
  end.

Section Analysis.

(** The remote API and the clock. *)
Variable get_cwl_group : string -> option cwl_group.
Variable get_cwl_war : string -> option cwl_war.
Variable now : nat -> string.

(** Body of [for tag, stats in war_stats.items()]. *)
Definition record_player (season_name id : string) (pr : progress)
    (item : string * War.player_stats) : progress :=
  let '(player_tag, stats) := item in
  let a := default empty_aggregate (War.od_get (all_player_stats pr) player_tag) in
  {| historical_data :=
       History.update_player_historical_stats (historical_data pr)
         player_tag (War.ps_name stats) (War.th stats) stats
         ("CWL_" +:+ season_name) id (fun i => now (ticks pr + i)%nat);
     all_player_stats :=
       War.od_set player_tag (merge_stats a stats) (all_player_stats pr);
     wars_analyzed := wars_analyzed pr;
     current_state := current_state pr;
     ticks := (ticks pr + readings (historical_data pr) player_tag id stats)%nat |}.

(** Body of [for war_tag in war_tags]. *)
Definition analyze_war_tag (our_clan_tag season_name : string) (round_num : nat)
    (pr : progress) (war_tag : string) : progress :=
  if String.eqb war_tag "#0" then pr
  else
    match get_cwl_war war_tag with
    | None => pr
    | Some war =>
        let clan_data := clan war in
        let opponent_data := opponent war in
        let sides :=
          if bool_decide (side_tag clan_data = Some our_clan_tag)
          then Some (clan_data, opponent_data)
          else if bool_decide (side_tag opponent_data = Some our_clan_tag)
          then Some (opponent_data, clan_data)
          else None in
        match sides with
        | None => pr
        | Some (our_clan, opponent) =>
            let state := war_state war in
            let pr1 :=
              {| historical_data := historical_data pr;
                 all_player_stats := all_player_stats pr;
                 wars_analyzed := wars_analyzed pr + 1;
                 current_state := state;
                 ticks := ticks pr |} in
            let id :=
              "cwl_" +:+ season_name +:+ "_round" +:+ pretty round_num
                +:+ "_" +:+ war_tag in
            if String.eqb state "inWar" || String.eqb state "warEnded" then
              let war_stats :=
                War.analyze_war_attacks
                  {| War.clan_members := members our_clan;
                     War.opponent_members := members opponent |} in
              fold_left (record_player season_name id) war_stats pr1
            else pr1
        end
    end.

(** [for round_num, round_data in enumerate(rounds, 1)]. *)
Fixpoint analyze_rounds (our_clan_tag season_name : string) (round_num : nat)
    (pr : progress) (rs : list (list string)) : progress :=
  match rs with
  | [] => pr
  | war_tags :: rest =>
      analyze_rounds our_clan_tag season_name (S round_num)
        (fold_left (analyze_war_tag our_clan_tag season_name round_num) war_tags pr)
        rest
  end.

(** [analyze_cwl(clan_tag, historical_data)]: the store it returns. *)
Definition analyze_cwl (clan_tag : string) (hd : History.historical_data)
    : History.historical_data :=
  match get_cwl_group clan_tag with
  | None => hd
  | Some cwl_group =>
      let state := state cwl_group in
      let season_name := season cwl_group in
      let season_key := "cwl_" +:+ season_name in
      let pr :=
        analyze_rounds clan_tag season_name 1
          {| historical_data := hd;
             all_player_stats := [];
             wars_analyzed := 0;
             current_state := state;
             ticks := 0 |}
          (rounds cwl_group) in
      let hd' := historical_data pr in
      if 0 <? wars_analyzed pr then
        {| History.clan_tag := History.clan_tag hd';
           History.last_updated := History.last_updated hd';
           History.players := History.players hd';
           History.cwl_seasons :=
             <[season_key :=
                 {| History.season := season_name;
                    History.wars_analyzed := wars_analyzed pr;
                    History.season_total_attacks :=
                      foldr Z.add 0 (map (fun kv => attacks_used kv.2)
                                         (all_player_stats pr));
                    History.season_total_stars :=
                      foldr Z.add 0 (map (fun kv => total_stars kv.2)
                                         (all_player_stats pr));
                    History.recorded_date := now (ticks pr);
                    History.complete := String.eqb (current_state pr) "ended" |}]>
               (History.cwl_seasons hd') |}
      else hd'
  end.

End Analysis.

End CWL.

(** ** Statements about the league analysis *)

Module CWLSpec.
Import CWL.

(** Two runs of the loops agree on everything except, as long as no war has
been analysed, the state they started from. *)
Definition agree (pr pr' : progress) : Prop :=
  historical_data pr = historical_data pr' /\
  all_player_stats pr = all_player_stats pr' /\
  wars_analyzed pr = wars_analyzed pr' /\
  ticks pr = ticks pr' /\
  (wars_analyzed pr <= 0 \/ current_state pr = current_state pr').

End CWLSpec.

(** ** Sample league groups *)

Module CWLExamples.
Import CWL.

Definition our_tag : string := "#2J28LL2VU".

Definition our_side : side :=
  {| side_tag := Some our_tag; side_name := "Us";
     members := [WarExamples.attacker; WarExamples.sleeper] |}.

Definition their_side : side :=
  {| side_tag := Some "#ENEMY"; side_name := "Them";
     members := [WarExamples.enemy] |}.

(** The same group with another reported state. *)
Definition with_state (s : string) (g : cwl_group) : cwl_group :=
  {| state := s; season := season g; rounds := rounds g |}.

(** A one-round group whose only war is [#W1]. *)
Definition group_in (s : string) : cwl_group :=
  {| state := s; season := "2025-01"; rounds := [["#W1"]] |}.

(** An API that knows one group and one war, the war being in state [ws]. *)
Definition api_group (s : string) (t : string) : option cwl_group :=
  if String.eqb t our_tag then Some (group_in s) else None.

Definition api_war (ws : string) (t : string) : option cwl_war :=
  if String.eqb t "#W1"
  then Some {| war_state := ws; clan := their_side; opponent := our_side |}
  else None.

Definition fixed_clock (i : nat) : string := "2025-01-09T08:00:00".

(** The [complete] flag written for the season of the sample group, when the
league reports [league_state] and the war reports [ws]. *)
Definition written_flag (league_state ws : string) : option bool :=
  History.complete <$>
    (History.cwl_seasons
       (analyze_cwl (api_group league_state) (api_war ws) fixed_clock our_tag
          (History.create_empty_data_structure our_tag))
     !! "cwl_2025-01").

End CWLExamples.

(** ** Doubles as exact values *)

Module FloatSpec.

(** Doubles are measured in units of 2^-2148, small enough for the exact
product of any two of them to be a whole number of units. *)
Definition unit_exp : Z := 2148.

(** The value of the infinity: 2^1024, above every finite double. *)
Definition top : Z := 2 ^ (1024 + unit_exp).

(** The exponent, in units, at which a positive value is rounded: 53
digits are kept, and nothing below the smallest subnormal step. *)
Definition expo (v : Z) : Z := Z.max (Z.log2 v + 1 - 53) 1074.

(** Rounding to nearest, ties to even, of a value given in units;
overflow gives the infinity. *)
Definition rnd (v : Z) : Z :=
  if v <=? 0 then 0
  else Z.min (round_half_even v (2 ^ expo v) * 2 ^ expo v) top.

(** The value in units of a double that is not negative. *)
Definition fval (f : float) : Z :=
  match f with
  | S754_finite false m e => Z.pos m * 2 ^ (e + unit_exp)
  | S754_infinity false => top
  | _ => 0
  end.

(** The doubles the scores are made of: +0, +infinity and the positive
finite doubles in canonical form. *)
Definition good (f : float) : Prop :=
  match f with
  | S754_zero s => s = false
  | S754_infinity s => s = false
  | S754_nan => False
  | S754_finite s m e => s = false /\ bounded prec emax m e = true
  end.

End FloatSpec.

(** ** More statements about the rush report *)

Module RushMore.
Import Tables Rush RushSpec.

(** The entry a loop appends for an asset below its target. *)
Definition deficit_of (item_type : string) (tier : Z) (a : asset)
    : option deficit :=
  match reference_target item_type tier a with
  | Some t =>
      if level a <? t
      then Some {| d_name := name a; current := level a;
                   target := t; missing := t - level a |}
      else None
  | None => None
  end.

(** The labels of a report that is not flagged, and of one that is. *)
Definition calm_labels : list string :=
  ["New Account"; "✅ Maxed"; "🟢 Slightly Behind"].

Definition rushed_labels : list string :=
  ["🟡 Moderately Rushed"; "🟠 Rushed"; "🔴 Severely Rushed";
   "🔴 Severely Rushed (Heroes)"].

(** Every asset of a list that has a reference target is at or above it. *)
Definition at_target (item_type : string) (tier : Z) (items : list asset)
    : bool :=
  forallb (fun a => match reference_target item_type tier a with
                    | Some t => t <=? level a
                    | None => true
                    end) items.

(** The report of an account with nothing to catch up on, before the
percentage is known. *)
Definition maxed_report (pct : pynum) : rush_data := {|
  is_rushed := false;
  rush_score := PInt 0;
  rush_percentage := pct;
  rushed_heroes := [];
  rushed_troops := [];
  rushed_spells := [];
  hero_score := Some (PInt 0);
  troop_score := Some (PInt 0);
  spell_score := Some (PInt 0);
  total_missing_hero_levels := Some 0;
  status := "✅ Maxed"
|}.

(** Properties of a table row that can be checked by evaluation: levels
positive, town halls between 1 and 18, levels not decreasing with the town
hall. *)
Definition row_ok (row : list (Z * Z)) : bool :=
  forallb (fun e : Z * Z =>
             (0 <? e.2) && (1 <=? e.1) && (e.1 <=? 18) &&
             forallb (fun e' : Z * Z => (e'.1 <? e.1) || (e.2 <=? e'.2)) row)
          row.

Definition rows_ok (t : rows) : bool :=
  forallb (fun r : string * list (Z * Z) => row_ok r.2) t.

(** An asset with its level decreased by [d], and the list with the level
of its [i]-th asset decreased; the list itself when it has no [i]-th
asset. *)
Definition lower (d : Z) (a : asset) : asset :=
  {| name := name a; level := level a - d; village := village a |}.

Definition lower_at (i : nat) (d : Z) (items : list asset) : list asset :=
  alter (lower d) i items.

End RushMore.
(** ** Python numbers as exact values *)

Module NumSpec.
Import FloatSpec.

(** The value of a number in units of 2^-2148; the infinity counts as
2^1024. *)
Definition val (a : pynum) : Z :=
  match a with
  | PInt z => z * 2 ^ unit_exp
  | PFloat f => fval f
  end.

(** The numbers a score is made of: integers from 0 up and doubles that are
+0, positive or +infinity. *)
Definition good_num (a : pynum) : Prop :=
  match a with
  | PInt z => 0 <= z
  | PFloat f => good f
  end.

Definition is_float (a : pynum) : bool :=
  match a with
  | PInt _ => false
  | PFloat _ => true
  end.

Definition is_inf (a : pynum) : bool :=
  match a with
  | PFloat (S754_infinity _) => true
  | _ => false
  end.

(** Order of the values; the infinity is above every integer, however
large. *)
Definition num_le (a b : pynum) : Prop :=
  match a, b with
  | PFloat (S754_infinity _), PInt _ => False
  | PInt _, PFloat (S754_infinity _) => True
  | _, _ => val a <= val b
  end.

(** The comparison of Python, on the numbers of a score. *)
Definition num_cmp (a b : pynum) : comparison :=
  match a, b with
  | PFloat (S754_infinity _), PInt _ => Gt
  | PInt _, PFloat (S754_infinity _) => Lt
  | _, _ => val a ?= val b
  end.

(** Integers up to 2^53 are doubles. *)
Definition small (a : pynum) : Prop :=
  match a with
  | PInt z => z <= 2 ^ 53
  | PFloat _ => True
  end.

(** [below a b]: [a] is at most [b], [a] loses nothing when it is taken to
double, and [b] is a double whenever [a] is. *)
Definition below (a b : pynum) : Prop :=
  good_num a /\ good_num b /\ small a /\ num_le a b /\
  (is_float a = true -> is_float b = true).

(** A category score: the integer 0 while nothing has been added, a double
afterwards. *)
Definition cat_ok (a : pynum) : Prop :=
  good_num a /\ (a = PInt 0 \/ is_float a = true).

(** One of the two weights: a 53-digit mantissa at exponent -54. *)
Definition is_weight (w : float) : Prop :=
  exists ml, w = S754_finite false ml (-54) /\ 2 ^ 52 <= Z.pos ml < 2 ^ 53.

End NumSpec.
(** ** Category scores as folds *)

Module ScoreSpec.

(** The troop and spell loops as one fold over the missing levels, with the
weight [w]. *)
Definition fold_w (w : float) (l : list Z) (acc : pynum) : pynum :=
  fold_left (fun acc m => py_add acc (py_mul (PInt m) (PFloat w))) l acc.

(** How lowering one level changes the list of missing levels: an entry
appears, or grows, or nothing changes. *)
Inductive grown : list Z -> list Z -> Prop :=
| grown_same l : grown l l
| grown_new l1 m l2 : 0 < m -> grown (l1 ++ l2) (l1 ++ m :: l2)
| grown_more l1 m m' l2 : 0 < m <= m' -> grown (l1 ++ m :: l2) (l1 ++ m' :: l2).

End ScoreSpec.
(** ** Rush analysis of a whole clan *)

Module ClanRush.
Import Rush.














End ClanRush.
(** ** More statements about the history store *)

Module HistoryMore.
Import History.

(** The log entry written for one attack read at time [now]. *)
Definition history_entry (th_level : Z) (type id now : string)
    (a : War.attack) : attack_record :=
  {| war_id := id; war_type := type; date := now;
     stars := War.stars a; destruction := War.destruction a;
     defender_th := War.defender_th a; attacker_th := th_level;
     hit_type := War.hit_type a |}.

(** The entries of one call, the [i]-th attack reading the clock as
[clock i]. *)
Definition history_entries (th_level : Z) (type id : string)
    (clock : nat -> string) (attacks : list War.attack) : list attack_record :=
  imap (fun i a => history_entry th_level type id (clock i) a) attacks.

Definition stars_sum (l : list Z) : Z := foldr Z.add 0 l.

(** The number of attacks worth [k] stars. *)
Definition with_stars (k : Z) (l : list Z) : Z :=
  Z.of_nat (length (filter (fun s => s = k) l)).

(** What every stored record satisfies, under the key [k]. *)
Definition well_kept (k : string) (r : player_record) : Prop :=
  tag r = k /\
  NoDup (war_ids r) /\
  wars_participated r = Z.of_nat (length (war_ids r)) /\
  Forall (fun e => war_id e ∈ war_ids r) (attacks_history r) /\
  total_stars r = stars_sum (stars <$> attacks_history r) /\
  three_stars r = with_stars 3 (stars <$> attacks_history r) /\
  two_stars r = with_stars 2 (stars <$> attacks_history r) /\
  one_star r = with_stars 1 (stars <$> attacks_history r) /\
  cwl_seasons_played r = 0.

(** A record only grows: the logs are extended, the counters and the town
hall do not go down. *)
Definition grown (r r' : player_record) : Prop :=
  tag r' = tag r /\
  war_ids r `prefix_of` war_ids r' /\
  attacks_history r `prefix_of` attacks_history r' /\
  current_th r <= current_th r' /\
  wars_participated r <= wars_participated r' /\
  total_attacks r <= total_attacks r'.

End HistoryMore.
(** ** More statements about the extractor *)

Module WarMore.
Import War WarSpec.

(** The output entry for one attack of a member with town hall [th_m]; an
unknown defender counts as town hall 0 at position 0. *)
Definition extracted (lookup : gmap (option string) member) (th_m : Z)
    (a : raw_attack) : attack :=
  let defender := lookup !! Some (defenderTag a) in
  let defender_th := from_option townhallLevel 0 defender in
  {| stars := raw_stars a;
     destruction := destructionPercentage a;
     defender_th := defender_th;
     defender_pos := from_option mapPosition 0 defender;
     hit_type :=
       if th_m <? defender_th then "↑ UP"
       else if defender_th <? th_m then "↓ DOWN"
       else "= SAME" |}.

Definition sum_of (l : list Z) : Z := foldr Z.add 0 l.

(** The number of attacks with [k] stars, with a star count other than 1,
2 or 3, and of one hit type. *)
Definition stars_count (k : Z) (l : list attack) : Z :=
  Z.of_nat (length (filter (fun a => stars a = k) l)).

Definition other_stars_count (l : list attack) : Z :=
  Z.of_nat (length (filter (fun a => stars a <> 3 /\ stars a <> 2 /\ stars a <> 1) l)).

Definition hits_count (h : string) (l : list attack) : Z :=
  Z.of_nat (length (filter (fun a => hit_type a = h) l)).

(** The statistics of a list of extracted attacks, filed under the name,
tag and town hall given, with [missed] in [missed_attacks]. *)
Definition stats_of (n t : string) (th_m missed : Z) (hits : list attack)
    : player_stats :=
  {| ps_name := n;
     ps_tag := t;
     th := th_m;
     ps_attacks := hits;
     total_stars := sum_of (stars <$> hits);
     total_destruction := fold_left py_add (destruction <$> hits) (PInt 0);
     new_stars := 0;
     attacks_used := Z.of_nat (length hits);
     missed_attacks := missed;
     three_stars := stars_count 3 hits;
     two_stars := stars_count 2 hits;
     one_star := stars_count 1 hits;
     zero_stars := other_stars_count hits;
     hit_up := hits_count "↑ UP" hits;
     hit_same := hits_count "= SAME" hits;
     hit_down := hits_count "↓ DOWN" hits |}.

(** The entry of a member that is alone under its tag. *)
Definition entry_of (lookup : gmap (option string) member) (m : member)
    : player_stats :=
  stats_of (name m) (member_tag m) (townhallLevel m)
    (match attacks m with [] => 2 | _ :: _ => 0 end)
    (extracted lookup (townhallLevel m) <$> attacks m).

(** One of the three hit types. *)
Definition known_hit (a : attack) : Prop :=
  hit_type a = "↑ UP" \/ hit_type a = "= SAME" \/ hit_type a = "↓ DOWN".

(** What the counters of an output entry under key [k] satisfy. *)
Definition entry_ok (k : string) (p : player_stats) : Prop :=
  ps_tag p = k /\
  attacks_used p = Z.of_nat (length (ps_attacks p)) /\
  total_stars p = sum_of (stars <$> ps_attacks p) /\
  three_stars p = stars_count 3 (ps_attacks p) /\
  two_stars p = stars_count 2 (ps_attacks p) /\
  one_star p = stars_count 1 (ps_attacks p) /\
  zero_stars p = other_stars_count (ps_attacks p) /\
  hit_up p = hits_count "↑ UP" (ps_attacks p) /\
  hit_same p = hits_count "= SAME" (ps_attacks p) /\
  hit_down p = hits_count "↓ DOWN" (ps_attacks p) /\
  attacks_used p = three_stars p + two_stars p + one_star p + zero_stars p /\
  attacks_used p = hit_up p + hit_same p + hit_down p /\
  new_stars p = 0 /\
  (missed_attacks p = 0 \/ missed_attacks p = 2).

(** The shape of every entry while the roster is read. *)
Definition shaped (kv : string * player_stats) : Prop :=
  exists n th0 ms hits,
    kv.2 = stats_of n kv.1 th0 ms hits /\ (ms = 0 \/ ms = 2) /\ Forall known_hit hits.

End WarMore.
(** ** Recording the current war *)

Module Recording.
Import History.

(** The current war as the API returns it: [war.get('state')], the two
clan tags and the preparation start time (each [''] when absent), and the
two rosters. *)
Record current_war := {
  cw_state : option string;
  cw_clan_tag : string;
  cw_opponent_tag : string;
  cw_preparationStartTime : string;
  cw_war : War.war
}.

(** [generate_war_id(war)]. *)
Definition generate_war_id (w : current_war) : string :=
  cw_clan_tag w +:+ "_" +:+ cw_opponent_tag w +:+ "_" +:+
  cw_preparationStartTime w.

(** [analyze_current_war(war)]: the extracted statistics, or [None]. *)
Definition analyze_current_war (w : current_war)
    : option (War.odict War.player_stats) :=
  let state := default "notInWar" (cw_state w) in
  if String.eqb state "notInWar" then None
  else if String.eqb state "inWar" || String.eqb state "warEnded"
          || String.eqb state "preparation"
  then Some (War.analyze_war_attacks (cw_war w))
  else None.

(** Body of [for tag, stats in war_stats.items()] in [main]; the second
component counts the readings of the clock so far. *)
Definition record_item (id : string) (now : nat -> string)
    (st : historical_data * nat) (item : string * War.player_stats)
    : historical_data * nat :=
  (update_player_historical_stats st.1 item.1 (War.ps_name item.2)
     (War.th item.2) item.2 "regular_war" id (fun i => now (st.2 + i)%nat),
   (st.2 + CWL.readings st.1 item.1 id item.2)%nat).

(** The block of [main] that files the current war; [None] stands for a
failed or empty answer of the API. *)
Definition record_current_war (now : nat -> string) (hd : historical_data)
    (current_war : option current_war) : historical_data :=
  match current_war with
  | None => hd
  | Some w =>
      if bool_decide (cw_state w ∈ [Some "notInWar"; None]) then hd
      else
        match analyze_current_war w with
        | Some (item :: items) =>
            (fold_left (record_item (generate_war_id w) now) (item :: items)
               (hd, 0%nat)).1
        | _ => hd
        end
  end.

(** The states in which [main] files the war. *)
Definition recordable (w : current_war) : bool :=
  bool_decide (cw_state w ∈ [Some "inWar"; Some "warEnded"; Some "preparation"]).

(** The tags under which the roster of our side is filed. *)
Definition roster_tags (w : current_war) : list string :=
  WarSpec.member_tag <$> War.clan_members (cw_war w).

(** The separator of a war id. *)
Definition underscore : Ascii.ascii := Ascii.ascii_of_nat 95.

(** A string without the character [c]. *)
Fixpoint lacks (c : Ascii.ascii) (s : string) : bool :=
  match s with
  | EmptyString => true
  | String c' s' => negb (Ascii.eqb c c') && lacks c s'
  end.

End Recording.

(** ** A sample war in two snapshots *)

Module RecordingExamples.
Import Recording.

Definition idle_attacker : War.member :=
  {| War.name := "Ann"; War.tag := Some "#P1"; War.townhallLevel := 12;
     War.mapPosition := 2; War.attacks := [] |}.

Definition snapshot (state : string) (roster : list War.member) : current_war :=
  {| cw_state := Some state;
     cw_clan_tag := "#2J28LL2VU";
     cw_opponent_tag := "#ENEMY";
     cw_preparationStartTime := "20250101T000000.000Z";
     cw_war := {| War.clan_members := roster;
                  War.opponent_members := [WarExamples.enemy] |} |}.

(** The war on preparation day, and after it has ended. *)
Definition in_preparation : current_war :=
  snapshot "preparation" [idle_attacker; WarExamples.sleeper].

Definition ended : current_war :=
  snapshot "warEnded" [WarExamples.attacker; WarExamples.sleeper].

Definition clock (i : nat) : string := "2025-01-02T10:00:00".

Definition empty_store : History.historical_data :=
  History.create_empty_data_structure "#2J28LL2VU".

End RecordingExamples.
(** ** More statements about the league analysis *)

Module CWLMore.
Import CWL.

(** A war id is on the list of the player [k]. *)
Definition recorded (hd : History.historical_data) (p : string * string) : Prop :=
  exists r, History.players hd !! p.1 = Some r /\ p.2 ∈ History.war_ids r.

(** Two stores hold the same players with the same statistics. *)
Definition same_stats (hd hd' : History.historical_data) : Prop :=
  (forall k r, History.players hd !! k = Some r ->
     exists r', History.players hd' !! k = Some r' /\
                HistorySpec.same_statistics r r') /\
  (forall k, History.players hd !! k = None -> History.players hd' !! k = None).

(** The second store keeps the clan tag and the time stamp of the first,
and every record of the first, grown. *)
Definition store_grown (hd hd' : History.historical_data) : Prop :=
  History.clan_tag hd' = History.clan_tag hd /\
  History.last_updated hd' = History.last_updated hd /\
  (forall k r, History.players hd !! k = Some r ->
     exists r', History.players hd' !! k = Some r' /\ HistoryMore.grown r r').

Definition all_well_kept (hd : History.historical_data) : Prop :=
  forall k r, History.players hd !! k = Some r -> HistoryMore.well_kept k r.

Section Filed.

Variable get_cwl_group : string -> option cwl_group.
Variable get_cwl_war : string -> option cwl_war.

(** The (player tag, war id) pairs that the analysis files for one war
tag, for the rounds, and for the whole league. *)
Definition filed_by_war_tag (our_clan_tag season_name : string)
    (round_num : nat) (war_tag : string) : list (string * string) :=
  if String.eqb war_tag "#0" then []
  else
    match get_cwl_war war_tag with
    | None => []
    | Some war =>
        let clan_data := clan war in
        let opponent_data := opponent war in
        let sides :=
          if bool_decide (side_tag clan_data = Some our_clan_tag)
          then Some (clan_data, opponent_data)
          else if bool_decide (side_tag opponent_data = Some our_clan_tag)
          then Some (opponent_data, clan_data)
          else None in
        match sides with
        | None => []
        | Some (our_clan, opponent) =>
            let state := war_state war in
            let id :=
              "cwl_" +:+ season_name +:+ "_round" +:+ pretty round_num
                +:+ "_" +:+ war_tag in
            if String.eqb state "inWar" || String.eqb state "warEnded" then
              (fun kv : string * War.player_stats => (kv.1, id)) <$>
                War.analyze_war_attacks
                  {| War.clan_members := members our_clan;
                     War.opponent_members := members opponent |}
            else []
        end
    end.

Fixpoint filed_by_rounds (our_clan_tag season_name : string) (round_num : nat)
    (rs : list (list string)) : list (string * string) :=
  match rs with
  | [] => []
  | war_tags :: rest =>
      concat (filed_by_war_tag our_clan_tag season_name round_num <$> war_tags)
      ++ filed_by_rounds our_clan_tag season_name (S round_num) rest
  end.

Definition filed (clan_tag : string) : list (string * string) :=
  match get_cwl_group clan_tag with
  | None => []
  | Some g => filed_by_rounds clan_tag (season g) 1 (rounds g)
  end.

End Filed.

End CWLMore.

(** * Properties of the rush report *)

Import Tables Rush RushSpec.

Lemma as_dict_positive t n lv th v :
  Forall (fun row : string * list (Z * Z) => Forall (fun e : Z * Z => 0 < e.2) row.2) t ->
  as_dict t !! n = Some lv -> lv !! th = Some v -> 0 < v.
Proof.
  intros Hp Hn Hv. unfold as_dict in Hn.
  apply elem_of_list_to_map_2 in Hn.
  apply list_elem_of_fmap in Hn as [[n' r] [Heq Hin]].
  simpl in Heq. injection Heq as -> ->.
  apply elem_of_list_to_map_2 in Hv.
  rewrite Forall_forall in Hp. specialize (Hp _ Hin). simpl in Hp.
  rewrite Forall_forall in Hp. exact (Hp _ Hv).
Qed.

Lemma table_lookup_positive (t : rows) n th v :
  Forall (fun row : string * list (Z * Z) => Forall (fun e : Z * Z => 0 < e.2) row.2) t ->
  default ∅ (as_dict t !! n) !! th = Some v -> 0 < v.
Proof.
  intros Hp H. destruct (as_dict t !! n) as [lv|] eqn:E; simpl in H.
  - eapply as_dict_positive; eauto.
  - by rewrite lookup_empty in H.
Qed.

Lemma max_level_positive n th ty v :
  get_max_level_for_th n th ty = Some v -> 0 < v.
Proof.
  unfold get_max_level_for_th.
  destruct (String.eqb ty "hero"); [|destruct (String.eqb ty "troop"); [|destruct (String.eqb ty "spell")]].
  - apply table_lookup_positive. unfold hero_rows. repeat (constructor; simpl; try lia).
  - apply table_lookup_positive. unfold troop_rows. repeat (constructor; simpl; try lia).
  - apply table_lookup_positive. unfold spell_rows. repeat (constructor; simpl; try lia).
  - done.
Qed.

Lemma py_mul_one m : py_mul (PInt m) (weight "hero") = PInt m.
Proof. unfold weight, py_mul. simpl. by rewrite Z.mul_1_r. Qed.

(** What one loop body does to the totals and to the category's score. *)
Ltac body_cases prev a :=
  unfold reference_target, missing_levels, capped, reference_target;
  replace (prev + 1 - 1) with prev by lia;
  destruct (String.eqb (village a) "home"); cbn;
  [ match goal with
    | |- context [get_max_level_for_th ?n ?t ?ty] =>
        let E := fresh "E" in
        let mx := fresh "mx" in
        destruct (get_max_level_for_th n t ty) as [mx|] eqn:E; cbn;
        [ apply max_level_positive in E; apply Z.ltb_lt in E; rewrite E;
          destruct (level a <? mx); cbn; try done; try lia
        | try done; try lia ]
    end
  | try done; try lia ].

Lemma check_hero_possible prev st a :
  possible (check_hero prev st a) =
  possible st + default 0 (reference_target "hero" (prev + 1) a).
Proof. unfold check_hero. body_cases prev a. Qed.

Lemma check_hero_current prev st a :
  current_sum (check_hero prev st a) =
  current_sum st + default 0 (capped "hero" (prev + 1) a).
Proof. unfold check_hero. body_cases prev a. Qed.

Lemma check_hero_score prev st a :
  hero_score (data (check_hero prev st a)) =
  match missing_levels "hero" (prev + 1) a with
  | Some m => add_to (hero_score (data st)) (py_mul (PInt m) (weight "hero"))
  | None => hero_score (data st)
  end.
Proof. unfold check_hero. body_cases prev a. unfold py_mul, weight; cbn. by rewrite Z.mul_1_r. Qed.

Lemma check_hero_missing prev st a :
  total_missing_hero_levels (data (check_hero prev st a)) =
  (fun v => v + default 0 (missing_levels "hero" (prev + 1) a)) <$>
    total_missing_hero_levels (data st).
Proof.
  unfold check_hero. body_cases prev a;
    destruct (total_missing_hero_levels (data st)); cbn; f_equal; lia.
Qed.

Lemma check_hero_others prev st a :
  let rd := data st in let rd' := data (check_hero prev st a) in
  troop_score rd' = troop_score rd /\ spell_score rd' = spell_score rd /\
  rush_percentage rd' = rush_percentage rd.
Proof. unfold check_hero. body_cases prev a. Qed.

Lemma check_troop_possible prev st a :
  possible (check_troop prev st a) =
  possible st + default 0 (reference_target "troop" (prev + 1) a).
Proof. unfold check_troop. body_cases prev a. Qed.

Lemma check_troop_current prev st a :
  current_sum (check_troop prev st a) =
  current_sum st + default 0 (capped "troop" (prev + 1) a).
Proof. unfold check_troop. body_cases prev a. Qed.

Lemma check_troop_score prev st a :
  troop_score (data (check_troop prev st a)) =
  match missing_levels "troop" (prev + 1) a with
  | Some m => add_to (troop_score (data st)) (py_mul (PInt m) (weight "troop"))
  | None => troop_score (data st)
  end.
Proof. unfold check_troop. body_cases prev a. Qed.

Lemma check_troop_others prev st a :
  let rd := data st in let rd' := data (check_troop prev st a) in
  hero_score rd' = hero_score rd /\ spell_score rd' = spell_score rd /\
  total_missing_hero_levels rd' = total_missing_hero_levels rd /\
  rush_percentage rd' = rush_percentage rd.
Proof. unfold check_troop. body_cases prev a. Qed.

Lemma check_spell_possible prev st a :
  possible (check_spell prev st a) =
  possible st + default 0 (reference_target "spell" (prev + 1) a).
Proof. unfold check_spell. body_cases prev a. Qed.

Lemma check_spell_current prev st a :
  current_sum (check_spell prev st a) =
  current_sum st + default 0 (capped "spell" (prev + 1) a).
Proof. unfold check_spell. body_cases prev a. Qed.

Lemma check_spell_score prev st a :
  spell_score (data (check_spell prev st a)) =
  match missing_levels "spell" (prev + 1) a with
  | Some m => add_to (spell_score (data st)) (py_mul (PInt m) (weight "spell"))
  | None => spell_score (data st)
  end.
Proof. unfold check_spell. body_cases prev a. Qed.

Lemma check_spell_others prev st a :
  let rd := data st in let rd' := data (check_spell prev st a) in
  hero_score rd' = hero_score rd /\ troop_score rd' = troop_score rd /\
  total_missing_hero_levels rd' = total_missing_hero_levels rd /\
  rush_percentage rd' = rush_percentage rd.
Proof. unfold check_spell. body_cases prev a. Qed.

Lemma Zsum_nil : Zsum [] = 0.
Proof. reflexivity. Qed.

Lemma Zsum_cons x l : Zsum (x :: l) = x + Zsum l.
Proof. reflexivity. Qed.

Lemma Zsum_app l1 l2 : Zsum (l1 ++ l2) = Zsum l1 + Zsum l2.
Proof. induction l1 as [|x l1 IH]; simpl; rewrite ?Zsum_cons, ?Zsum_nil; lia. Qed.

Section LoopFacts.
Context {X : Type}.
Variable body : scan -> asset -> scan.

Lemma loop_preserves (proj : scan -> X) :
  (forall st a, proj (body st a) = proj st) ->
  forall items st, proj (fold_left body items st) = proj st.
Proof.
  intros Hstep items. induction items as [|a items IH]; intros st; simpl; [done|].
  by rewrite IH, Hstep.
Qed.

Lemma loop_sums (proj : scan -> Z) (g : asset -> option Z) :
  (forall st a, proj (body st a) = proj st + default 0 (g a)) ->
  forall items st,
    proj (fold_left body items st) = proj st + Zsum (omap g items).
Proof.
  intros Hstep items. induction items as [|a items IH]; intros st; cbn [fold_left omap list_omap].
  - rewrite Zsum_nil. lia.
  - rewrite IH, Hstep. destruct (g a); cbn [default from_option id]; rewrite ?Zsum_cons; lia.
Qed.

Lemma loop_sums_opt (proj : scan -> option Z) (g : asset -> option Z) :
  (forall st a, proj (body st a) = (fun v => v + default 0 (g a)) <$> proj st) ->
  forall items st,
    proj (fold_left body items st) =
    (fun v => v + Zsum (omap g items)) <$> proj st.
Proof.
  intros Hstep items. induction items as [|a items IH]; intros st; cbn [fold_left omap list_omap].
  - rewrite Zsum_nil. destruct (proj st); cbn; f_equal. lia.
  - rewrite IH, Hstep. destruct (proj st); cbn [fmap option_fmap option_map]; [|done].
    f_equal. destruct (g a); cbn [default from_option id]; rewrite ?Zsum_cons; lia.
Qed.

Lemma loop_scores (proj : scan -> option pynum) (g : asset -> option Z) (w : pynum) :
  (forall st a, proj (body st a) =
     match g a with
     | Some m => add_to (proj st) (py_mul (PInt m) w)
     | None => proj st
     end) ->
  forall items st,
    proj (fold_left body items st) =
    fold_left (fun acc m => py_add acc (py_mul (PInt m) w)) (omap g items)
      <$> proj st.
Proof.
  intros Hstep items. induction items as [|a items IH]; intros st; simpl.
  - by destruct (proj st).
  - rewrite IH, Hstep. destruct (g a); simpl; [|done].
    unfold add_to. by destruct (proj st).
Qed.
End LoopFacts.


Lemma scan_heroes_facts p :
  let tier := townHallLevel p in
  let st := scan_heroes p in
  hero_score (data st) = Some (category_score "hero" tier (heroes p)) /\
  troop_score (data st) = Some (PInt 0) /\
  spell_score (data st) = Some (PInt 0) /\
  total_missing_hero_levels (data st) = Some (hero_levels_missing p) /\
  rush_percentage (data st) = PInt 0 /\
  possible st = Zsum (omap (reference_target "hero" tier) (heroes p)) /\
  current_sum st = Zsum (omap (capped "hero" tier) (heroes p)).
Proof.
  intros tier st. subst st. unfold scan_heroes, run_loop.
  set (prev := townHallLevel p - 1).
  assert (Ht : tier = prev + 1) by (subst tier prev; lia).
  rewrite Ht. unfold hero_levels_missing. fold tier. rewrite Ht.
  repeat split.
  - rewrite (loop_scores _ (fun st => hero_score (data st)) _ _
               (check_hero_score prev)). done.
  - rewrite (loop_preserves _ (fun st => troop_score (data st))); [done|].
    intros st a. apply (check_hero_others prev st a).
  - rewrite (loop_preserves _ (fun st => spell_score (data st))); [done|].
    intros st a. apply (check_hero_others prev st a).
  - rewrite (loop_sums_opt _ (fun st => total_missing_hero_levels (data st)) _
               (check_hero_missing prev)). done.
  - rewrite (loop_preserves _ (fun st => rush_percentage (data st))); [done|].
    intros st a. apply (check_hero_others prev st a).
  - rewrite (loop_sums _ possible _ (check_hero_possible prev)). simpl. lia.
  - rewrite (loop_sums _ current_sum _ (check_hero_current prev)). simpl. lia.
Qed.

Lemma scan_troops_facts p :
  let tier := townHallLevel p in
  let st := scan_troops p in
  hero_score (data st) = Some (category_score "hero" tier (heroes p)) /\
  troop_score (data st) = Some (category_score "troop" tier (troops p)) /\
  spell_score (data st) = Some (PInt 0) /\
  total_missing_hero_levels (data st) = Some (hero_levels_missing p) /\
  rush_percentage (data st) = PInt 0 /\
  possible st = Zsum (omap (reference_target "troop" tier) (troops p)) /\
  current_sum st = Zsum (omap (capped "troop" tier) (troops p)).
Proof.
  intros tier st. subst st. unfold scan_troops, run_loop.
  destruct (scan_heroes_facts p) as (Hh & Ht & Hs & Hm & Hp & _).
  fold tier in Hh.
  set (prev := townHallLevel p - 1).
  assert (Etier : tier = prev + 1) by (subst tier prev; lia).
  rewrite Etier.
  repeat split.
  - rewrite (loop_preserves _ (fun st => hero_score (data st))).
    + simpl. by rewrite Hh, Etier.
    + intros st a. apply (check_troop_others prev st a).
  - rewrite (loop_scores _ (fun st => troop_score (data st)) _ _
               (check_troop_score prev)). simpl. by rewrite Ht.
  - rewrite (loop_preserves _ (fun st => spell_score (data st))); [done|].
    intros st a. apply (check_troop_others prev st a).
  - rewrite (loop_preserves _ (fun st => total_missing_hero_levels (data st))); [done|].
    intros st a. apply (check_troop_others prev st a).
  - rewrite (loop_preserves _ (fun st => rush_percentage (data st))); [done|].
    intros st a. apply (check_troop_others prev st a).
  - rewrite (loop_sums _ possible _ (check_troop_possible prev)). simpl. lia.
  - rewrite (loop_sums _ current_sum _ (check_troop_current prev)). simpl. lia.
Qed.

Lemma scan_spells_facts p :
  let tier := townHallLevel p in
  let st := scan_spells p in
  hero_score (data st) = Some (category_score "hero" tier (heroes p)) /\
  troop_score (data st) = Some (category_score "troop" tier (troops p)) /\
  spell_score (data st) = Some (category_score "spell" tier (spells p)) /\
  total_missing_hero_levels (data st) = Some (hero_levels_missing p) /\
  rush_percentage (data st) = PInt 0 /\
  possible st = Zsum (omap (reference_target "spell" tier) (spells p)) /\
  current_sum st = Zsum (omap (capped "spell" tier) (spells p)).
Proof.
  intros tier st. subst st. unfold scan_spells, run_loop.
  destruct (scan_troops_facts p) as (Hh & Ht & Hs & Hm & Hp & _).
  fold tier in Hh, Ht.
  set (prev := townHallLevel p - 1).
  assert (Etier : tier = prev + 1) by (subst tier prev; lia).
  rewrite Etier.
  repeat split.
  - rewrite (loop_preserves _ (fun st => hero_score (data st))).
    + simpl. by rewrite Hh, Etier.
    + intros st a. apply (check_spell_others prev st a).
  - rewrite (loop_preserves _ (fun st => troop_score (data st))).
    + simpl. by rewrite Ht, Etier.
    + intros st a. apply (check_spell_others prev st a).
  - rewrite (loop_scores _ (fun st => spell_score (data st)) _ _
               (check_spell_score prev)). simpl. by rewrite Hs.
  - rewrite (loop_preserves _ (fun st => total_missing_hero_levels (data st))); [done|].
    intros st a. apply (check_spell_others prev st a).
  - rewrite (loop_preserves _ (fun st => rush_percentage (data st))); [done|].
    intros st a. apply (check_spell_others prev st a).
  - rewrite (loop_sums _ possible _ (check_spell_possible prev)). simpl. lia.
  - rewrite (loop_sums _ current_sum _ (check_spell_current prev)). simpl. lia.
Qed.

Lemma reference_target_positive ty tier a t :
  reference_target ty tier a = Some t -> 0 < t.
Proof.
  unfold reference_target. destruct (String.eqb (village a) "home"); [|done].
  apply max_level_positive.
Qed.

Lemma targets_nonneg ty tier items :
  0 <= Zsum (omap (reference_target ty tier) items).
Proof.
  induction items as [|a items IH]; cbn [omap list_omap]; [by rewrite Zsum_nil|].
  destruct (reference_target ty tier a) eqn:E; [|done].
  apply reference_target_positive in E. rewrite Zsum_cons. lia.
Qed.

Lemma total_possible_nonneg p : 0 <= total_possible p.
Proof.
  unfold total_possible.
  pose proof (targets_nonneg "hero" (townHallLevel p) (heroes p)).
  pose proof (targets_nonneg "troop" (townHallLevel p) (troops p)).
  pose proof (targets_nonneg "spell" (townHallLevel p) (spells p)).
  lia.
Qed.

Lemma generate_rush_report_unfold p :
  3 <= townHallLevel p ->
  generate_rush_report p =
  Some (hero_penalty (determine_status
          (set_score_and_percentage (data (scan_spells p))
             (weighted_missing_levels p) (percentage_of p)))).
Proof.
  intros Hth. unfold generate_rush_report.
  destruct (townHallLevel p <=? 2) eqn:E; [apply Z.leb_le in E; lia|].
  destruct (scan_heroes_facts p) as (_ & _ & _ & _ & _ & Hph & Hch).
  destruct (scan_troops_facts p) as (_ & _ & _ & _ & _ & Hpt & Hct).
  destruct (scan_spells_facts p) as (Hh & Ht & Hs & Hm & Hp & Hps & Hcs).
  cbv zeta in *.
  unfold sum_scores. rewrite Hh, Ht, Hs, Hph, Hch, Hpt, Hct, Hps, Hcs, Hp.
  fold (total_possible p). fold (total_current p). fold (weighted_missing_levels p).
  unfold percentage_of.
  destruct (0 <? total_possible p) eqn:Epos; [|done].
  unfold percentage_behind, int_truediv.
  apply Z.ltb_lt in Epos.
  destruct (total_possible p =? 0) eqn:Ez; [apply Z.eqb_eq in Ez; lia|].
  done.
Qed.

Lemma determine_status_fields rd :
  let r := determine_status rd in
  rush_score r = rush_score rd /\ rush_percentage r = rush_percentage rd /\
  total_missing_hero_levels r = total_missing_hero_levels rd /\
  rushed_heroes r = rushed_heroes rd /\ rushed_troops r = rushed_troops rd /\
  rushed_spells r = rushed_spells rd.
Proof.
  unfold determine_status.
  repeat match goal with |- context [if ?b then _ else _] => destruct b end; done.
Qed.

Lemma hero_penalty_fields rd :
  let r := hero_penalty rd in
  rush_score r = rush_score rd /\ rush_percentage r = rush_percentage rd /\
  total_missing_hero_levels r = total_missing_hero_levels rd /\
  rushed_heroes r = rushed_heroes rd /\ rushed_troops r = rushed_troops rd /\
  rushed_spells r = rushed_spells rd.
Proof.
  unfold hero_penalty. destruct (total_missing_hero_levels rd) as [h|] eqn:E; [|done].
  destruct (20 <? h); cbn; rewrite ?E; done.
Qed.

Lemma report_fields p :
  3 <= townHallLevel p ->
  exists r, generate_rush_report p = Some r /\
    rush_score r = weighted_missing_levels p /\
    rush_percentage r = percentage_of p /\
    total_missing_hero_levels r = Some (hero_levels_missing p).
Proof.
  intros Hth. eexists. split; [by apply generate_rush_report_unfold|].
  set (rd := set_score_and_percentage _ _ _).
  destruct (hero_penalty_fields (determine_status rd)) as (-> & -> & -> & _).
  destruct (determine_status_fields rd) as (-> & -> & -> & _).
  subst rd. cbn. repeat split; try done.
  by destruct (scan_spells_facts p) as (_ & _ & _ & ? & _).
Qed.

(** Leaving an asset without a reference target out of its list changes
    nothing in the loop. *)
Lemma check_hero_skip prev st a :
  reference_target "hero" (prev + 1) a = None -> check_hero prev st a = st.
Proof.
  unfold reference_target, check_hero. replace (prev + 1 - 1) with prev by lia.
  destruct (String.eqb (village a) "home"); cbn; [|done]. by intros ->.
Qed.

Lemma check_troop_skip prev st a :
  reference_target "troop" (prev + 1) a = None -> check_troop prev st a = st.
Proof.
  unfold reference_target, check_troop. replace (prev + 1 - 1) with prev by lia.
  destruct (String.eqb (village a) "home"); cbn; [|done]. by intros ->.
Qed.

Lemma check_spell_skip prev st a :
  reference_target "spell" (prev + 1) a = None -> check_spell prev st a = st.
Proof.
  unfold reference_target, check_spell. replace (prev + 1 - 1) with prev by lia.
  destruct (String.eqb (village a) "home"); cbn; [|done]. by intros ->.
Qed.

Lemma run_loop_skip body rd (l1 l2 : list asset) a :
  (forall st, body st a = st) ->
  run_loop body rd (l1 ++ a :: l2) = run_loop body rd (l1 ++ l2).
Proof.
  intros Hskip. unfold run_loop. rewrite !fold_left_app. cbn. by rewrite Hskip.
Qed.

Lemma skipped_hero p l1 a l2 :
  reference_target "hero" (townHallLevel p) a = None ->
  generate_rush_report (with_heroes p (l1 ++ a :: l2)) =
  generate_rush_report (with_heroes p (l1 ++ l2)).
Proof.
  intros Hnone. unfold generate_rush_report, scan_spells, scan_troops, scan_heroes.
  cbn [townHallLevel heroes troops spells with_heroes].
  rewrite (run_loop_skip _ _ l1 l2 a); [done|].
  intros st. apply check_hero_skip.
  by replace (townHallLevel p - 1 + 1) with (townHallLevel p) by lia.
Qed.

Lemma skipped_troop p l1 a l2 :
  reference_target "troop" (townHallLevel p) a = None ->
  generate_rush_report (with_troops p (l1 ++ a :: l2)) =
  generate_rush_report (with_troops p (l1 ++ l2)).
Proof.
  intros Hnone. unfold generate_rush_report, scan_spells, scan_troops, scan_heroes.
  cbn [townHallLevel heroes troops spells with_troops].
  rewrite (run_loop_skip _ _ l1 l2 a); [done|].
  intros st. apply check_troop_skip.
  by replace (townHallLevel p - 1 + 1) with (townHallLevel p) by lia.
Qed.

Lemma skipped_spell p l1 a l2 :
  reference_target "spell" (townHallLevel p) a = None ->
  generate_rush_report (with_spells p (l1 ++ a :: l2)) =
  generate_rush_report (with_spells p (l1 ++ l2)).
Proof.
  intros Hnone. unfold generate_rush_report, scan_spells, scan_troops, scan_heroes.
  cbn [townHallLevel heroes troops spells with_spells].
  rewrite (run_loop_skip _ _ l1 l2 a); [done|].
  intros st. apply check_spell_skip.
  by replace (townHallLevel p - 1 + 1) with (townHallLevel p) by lia.
Qed.

(** C1: for town hall 3 and above the report's [rush_score] is the weighted
    sum of missing levels over heroes (weight 1), troops (weight 0.3) and
    spells (weight 0.4), each asset judged against the table entry at
    (name, tier - 1); assets at or above target add nothing, and an asset
    without an entry can be left out of its list without changing the
    report. *)
Theorem rush_score_weighted_missing_levels (p : player) :
  3 <= townHallLevel p ->
  (exists r, generate_rush_report p = Some r /\
             rush_score r = weighted_missing_levels p) /\
  (forall l1 a l2,
     reference_target "hero" (townHallLevel p) a = None ->
     generate_rush_report (with_heroes p (l1 ++ a :: l2)) =
     generate_rush_report (with_heroes p (l1 ++ l2))) /\
  (forall l1 a l2,
     reference_target "troop" (townHallLevel p) a = None ->
     generate_rush_report (with_troops p (l1 ++ a :: l2)) =
     generate_rush_report (with_troops p (l1 ++ l2))) /\
  (forall l1 a l2,
     reference_target "spell" (townHallLevel p) a = None ->
     generate_rush_report (with_spells p (l1 ++ a :: l2)) =
     generate_rush_report (with_spells p (l1 ++ l2))).
Proof.
  intros Hth. split; [|split; [|split]].
  - destruct (report_fields p Hth) as (r & Hr & Hs & _). eauto.
  - intros. by apply skipped_hero.
  - intros. by apply skipped_troop.
  - intros. by apply skipped_spell.
Qed.

Lemma rush_score_weighted_missing_levels_witness :
  3 <= townHallLevel Examples.slightly_behind /\
  exists r, generate_rush_report Examples.slightly_behind = Some r /\
            rush_score r = weighted_missing_levels Examples.slightly_behind.
Proof.
  split; [vm_compute; discriminate|].
  apply (rush_score_weighted_missing_levels Examples.slightly_behind).
  vm_compute; discriminate.
Defined.

Lemma py_gt_above s a b :
  a <= b -> py_lt (PInt b) s = true -> py_le s (PInt a) = false.
Proof.
  intros Hab. unfold py_lt, py_le. destruct s as [x|f]; cbn [py_compare].
  - destruct (Z.compare_spec b x); try done. intros _.
    destruct (Z.compare_spec x a); try done; lia.
  - destruct (float_cmp_int f b) as [c|] eqn:E; cbn; try done.
    destruct c; cbn; try done. intros _.
    assert (float_cmp_int f a = Some Gt) as ->; [|done].
    revert E. unfold float_cmp_int. destruct f as [s|s| |s m e]; try done.
    + intros H. apply (inj Some) in H. f_equal.
      apply Z.compare_gt_iff in H. apply Z.compare_gt_iff. lia.
    + intros H. apply (inj Some) in H. f_equal. destruct e as [|q|q].
      * apply Z.compare_gt_iff in H. apply Z.compare_gt_iff. lia.
      * apply Z.compare_gt_iff in H. apply Z.compare_gt_iff. lia.
      * assert (0 < 2 ^ Z.pos q) by (apply Z.pow_pos_nonneg; lia).
        apply Z.compare_gt_iff in H. apply Z.compare_gt_iff. nia.
Qed.

(** C2: for town hall 3 and above the report is the hero override applied to
    a report whose status and [is_rushed] flag follow from [rush_score] by
    the ascending thresholds 3, 10, 25 and 50; with at most 20 missing hero
    levels the override changes nothing. *)
Theorem status_from_score_thresholds (p : player) :
  3 <= townHallLevel p ->
  exists rd,
    generate_rush_report p = Some (hero_penalty (determine_status rd)) /\
    rush_score rd = weighted_missing_levels p /\
    total_missing_hero_levels rd = Some (hero_levels_missing p) /\
    (hero_levels_missing p <= 20 ->
       hero_penalty (determine_status rd) = determine_status rd) /\
    let s := rush_score rd in
    let r := determine_status rd in
    (py_le s (PInt 3) = true ->
       status r = "✅ Maxed" /\ is_rushed r = false) /\
    (py_lt (PInt 3) s = true -> py_le s (PInt 10) = true ->
       status r = "🟢 Slightly Behind" /\ is_rushed r = false) /\
    (py_lt (PInt 10) s = true -> py_le s (PInt 25) = true ->
       status r = "🟡 Moderately Rushed" /\ is_rushed r = true) /\
    (py_lt (PInt 25) s = true -> py_le s (PInt 50) = true ->
       status r = "🟠 Rushed" /\ is_rushed r = true) /\
    (py_lt (PInt 50) s = true ->
       status r = "🔴 Severely Rushed" /\ is_rushed r = true).
Proof.
  intros Hth. eexists. split; [by apply generate_rush_report_unfold|].
  set (rd := set_score_and_percentage _ _ _).
  assert (Hm : total_missing_hero_levels rd = Some (hero_levels_missing p)).
  { subst rd. cbn. by destruct (scan_spells_facts p) as (_ & _ & _ & ? & _). }
  split; [done|]. split; [done|]. split.
  { intros Hle. unfold hero_penalty.
    destruct (determine_status_fields rd) as (_ & _ & -> & _). rewrite Hm.
    destruct (20 <? hero_levels_missing p) eqn:E; [apply Z.ltb_lt in E; lia|done]. }
  cbv zeta. unfold determine_status.
  refine (conj _ (conj _ (conj _ (conj _ _)))).
  - by intros ->.
  - intros H3 ->. by rewrite (py_gt_above _ 3 3 ltac:(lia) H3).
  - intros H10 ->. by rewrite (py_gt_above _ 3 10 ltac:(lia) H10),
      (py_gt_above _ 10 10 ltac:(lia) H10).
  - intros H25 ->. by rewrite (py_gt_above _ 3 25 ltac:(lia) H25),
      (py_gt_above _ 10 25 ltac:(lia) H25), (py_gt_above _ 25 25 ltac:(lia) H25).
  - intros H50. by rewrite (py_gt_above _ 3 50 ltac:(lia) H50),
      (py_gt_above _ 10 50 ltac:(lia) H50), (py_gt_above _ 25 50 ltac:(lia) H50),
      (py_gt_above _ 50 50 ltac:(lia) H50).
Qed.

Lemma status_from_score_thresholds_witness :
  3 <= townHallLevel Examples.slightly_behind /\
  exists rd,
    generate_rush_report Examples.slightly_behind =
      Some (hero_penalty (determine_status rd)) /\
    rush_score rd = weighted_missing_levels Examples.slightly_behind.
Proof.
  split; [vm_compute; discriminate|].
  destruct (status_from_score_thresholds Examples.slightly_behind) as (rd & H1 & H2 & _).
  - vm_compute; discriminate.
  - exists rd. split; assumption.
Defined.

(** C3: for town hall 3 and above, more than 20 missing hero levels force
    the status "Severely Rushed (Heroes)" and [is_rushed], whatever the
    thresholds gave for the blended score. *)
Theorem hero_override_forces_severely_rushed (p : player) :
  3 <= townHallLevel p ->
  exists r,
    generate_rush_report p = Some r /\
    total_missing_hero_levels r = Some (hero_levels_missing p) /\
    (20 < hero_levels_missing p ->
       status r = "🔴 Severely Rushed (Heroes)" /\ is_rushed r = true).
Proof.
  intros Hth. eexists. split; [by apply generate_rush_report_unfold|].
  set (rd := set_score_and_percentage _ _ _).
  assert (Hm : total_missing_hero_levels (determine_status rd)
               = Some (hero_levels_missing p)).
  { destruct (determine_status_fields rd) as (_ & _ & -> & _).
    subst rd. cbn. by destruct (scan_spells_facts p) as (_ & _ & _ & ? & _). }
  split.
  - by destruct (hero_penalty_fields (determine_status rd)) as (_ & _ & -> & _).
  - intros Hlt. unfold hero_penalty. rewrite Hm.
    apply Z.ltb_lt in Hlt. by rewrite Hlt.
Qed.

(** A king 21 levels short: the blended score alone says "Moderately
    Rushed", the report says "Severely Rushed (Heroes)". *)
Lemma hero_override_forces_severely_rushed_witness :
  3 <= townHallLevel Examples.low_king /\
  hero_levels_missing Examples.low_king = 21 /\
  exists r,
    generate_rush_report Examples.low_king = Some r /\
    status r = "🔴 Severely Rushed (Heroes)" /\ is_rushed r = true.
Proof.
  split; [vm_compute; discriminate|].
  split; [reflexivity|].
  destruct (hero_override_forces_severely_rushed Examples.low_king)
    as (r & Hr & _ & Hs).
  - vm_compute; discriminate.
  - exists r. split; [exact Hr|]. apply Hs. reflexivity.
Defined.

Example low_king_by_thresholds_alone :
  exists rd,
    generate_rush_report Examples.low_king =
      Some (hero_penalty (determine_status rd)) /\
    rush_score rd = PInt 21 /\
    status (determine_status rd) = "🟡 Moderately Rushed" /\
    status (hero_penalty (determine_status rd)) = "🔴 Severely Rushed (Heroes)".
Proof.
  eexists. split.
  - apply generate_rush_report_unfold. vm_compute; discriminate.
  - vm_compute. repeat split.
Qed.

(** C4: for town hall 1 and 2 the report is the short-circuit one: not
    rushed, score 0, status "New Account", no deficits listed. *)
Theorem new_account_short_circuit (p : player) :
  townHallLevel p <= 2 ->
  exists r,
    generate_rush_report p = Some r /\
    is_rushed r = false /\ rush_score r = PInt 0 /\
    rush_percentage r = PInt 0 /\ status r = "New Account" /\
    rushed_heroes r = [] /\ rushed_troops r = [] /\ rushed_spells r = [].
Proof.
  intros Hth. exists new_account_report. unfold generate_rush_report.
  apply Z.leb_le in Hth. rewrite Hth. repeat split.
Qed.

Lemma new_account_short_circuit_witness :
  townHallLevel Examples.fresh_account <= 2 /\
  exists r,
    generate_rush_report Examples.fresh_account = Some r /\
    is_rushed r = false /\ rush_score r = PInt 0 /\
    rush_percentage r = PInt 0 /\ status r = "New Account" /\
    rushed_heroes r = [] /\ rushed_troops r = [] /\ rushed_spells r = [].
Proof.
  split; [vm_compute; discriminate|].
  apply (new_account_short_circuit Examples.fresh_account).
  vm_compute; discriminate.
Defined.

(** C5: for town hall 3 and above [rush_percentage] is
    [round(100 - total_current / total_possible * 100, 1)] over the targets
    of the scoreable assets and their levels capped at the target; with no
    scoreable asset it stays 0 and nothing is divided, so a report is always
    returned. *)
Theorem rush_percentage_formula (p : player) :
  3 <= townHallLevel p ->
  exists r,
    generate_rush_report p = Some r /\
    (total_possible p = 0 -> rush_percentage r = PInt 0) /\
    (total_possible p <> 0 ->
       exists q,
         int_truediv (total_current p) (total_possible p) = Some q /\
         rush_percentage r =
           py_round1 (py_sub (PInt 100) (py_mul q (PInt 100)))).
Proof.
  intros Hth. destruct (report_fields p Hth) as (r & Hr & _ & Hp & _).
  exists r. split; [done|]. rewrite Hp. unfold percentage_of. split.
  - by intros ->.
  - intros Hne. pose proof (total_possible_nonneg p) as Hnn.
    destruct (0 <? total_possible p) eqn:E;
      [|apply Z.ltb_ge in E; lia].
    eexists. split; [|done]. unfold int_truediv.
    by destruct (total_possible p =? 0) eqn:Ez; [apply Z.eqb_eq in Ez|].
Qed.

Lemma rush_percentage_formula_witness :
  3 <= townHallLevel Examples.slightly_behind /\
  total_possible Examples.slightly_behind = 83 /\
  total_current Examples.slightly_behind = 75 /\
  exists r,
    generate_rush_report Examples.slightly_behind = Some r /\
    rush_percentage r = PFloat (S754_finite false 5404319552844595 (-49)).
Proof.
  split; [vm_compute; discriminate|].
  split; [reflexivity|]. split; [reflexivity|].
  destruct (rush_percentage_formula Examples.slightly_behind) as (r & Hr & _ & Hq).
  - vm_compute; discriminate.
  - exists r. split; [exact Hr|].
    destruct Hq as (q & Hq & ->); [vm_compute; discriminate|].
    vm_compute in Hq. injection Hq as <-. vm_compute. reflexivity.
Defined.


(** * Properties of the history store *)

Section HistoryFacts.
Import History HistorySpec.

Lemma same_statistics_refresh r n t : same_statistics r (refresh r n t).
Proof. repeat split. Qed.

Lemma record_attack_step t ty id now r a :
  let r' := record_attack t ty id now r a in
  length (attacks_history r') = S (length (attacks_history r)) /\
  total_attacks r' = total_attacks r + 1 /\
  three_stars r' + two_stars r' + one_star r' + zero_stars r' =
    three_stars r + two_stars r + one_star r + zero_stars r + 1 /\
  war_ids r' = war_ids r /\
  wars_participated r' = wars_participated r /\
  (War.stars a = 3 -> three_stars r' = three_stars r + 1) /\
  (War.stars a = 2 -> two_stars r' = two_stars r + 1) /\
  (War.stars a = 1 -> one_star r' = one_star r + 1) /\
  (War.stars a <> 3 -> War.stars a <> 2 -> War.stars a <> 1 ->
     zero_stars r' = zero_stars r + 1).
Proof.
  cbn. rewrite length_app. cbn.
  destruct (Z.eqb_spec (War.stars a) 3), (Z.eqb_spec (War.stars a) 2),
    (Z.eqb_spec (War.stars a) 1); repeat split; intros; lia.
Qed.

Lemma record_attack_consistent t ty id now r a :
  consistent r -> consistent (record_attack t ty id now r a).
Proof.
  intros [H1 H2].
  destruct (record_attack_step t ty id now r a) as (Hl & Ht & Hb & _).
  split; [lia|]. rewrite Ht, Hl. lia.
Qed.

Lemma record_attacks_consistent t ty id clock attacks :
  forall i r, consistent r -> consistent (record_attacks t ty id clock i r attacks).
Proof.
  induction attacks as [|a attacks IH]; intros i r Hr; cbn; [done|].
  apply IH. by apply record_attack_consistent.
Qed.

Lemma record_attacks_war_ids t ty id clock attacks :
  forall i r, war_ids (record_attacks t ty id clock i r attacks) = war_ids r.
Proof.
  induction attacks as [|a attacks IH]; intros i r; cbn; [done|].
  by rewrite IH.
Qed.

Lemma update_lookup_other hd tg n t ad ty id clock tg' :
  tg <> tg' ->
  players (update_player_historical_stats hd tg n t ad ty id clock) !! tg' =
  players hd !! tg'.
Proof.
  intros Hne. unfold update_player_historical_stats.
  case_bool_decide; cbn; by rewrite lookup_insert_ne.
Qed.

Lemma update_seasons hd tg n t ad ty id clock :
  cwl_seasons (update_player_historical_stats hd tg n t ad ty id clock) =
  cwl_seasons hd.
Proof. unfold update_player_historical_stats. by case_bool_decide. Qed.

(** A call on a war already in the record's list only refreshes the name
and the town hall. *)
Lemma update_recorded hd tg n t ad ty id clock r :
  players hd !! tg = Some r -> id ∈ war_ids r ->
  update_player_historical_stats hd tg n t ad ty id clock =
  set_players hd (<[tg := refresh r n t]> (players hd)).
Proof.
  intros Hr Hin. unfold update_player_historical_stats. rewrite Hr. cbn.
  by rewrite bool_decide_eq_true_2.
Qed.

(** After any call the war is in the record's list. *)
Lemma update_records_war hd tg n t ad ty id clock :
  exists r,
    players (update_player_historical_stats hd tg n t ad ty id clock) !! tg = Some r /\
    id ∈ war_ids r.
Proof.
  unfold update_player_historical_stats. case_bool_decide as Hin; cbn.
  - eexists. by rewrite lookup_insert_eq.
  - eexists. rewrite lookup_insert_eq. split; [done|].
    rewrite record_attacks_war_ids. cbn. set_solver.
Qed.

Lemma update_consistent hd tg n t ad ty id clock :
  (forall k r, players hd !! k = Some r -> consistent r) ->
  forall k r,
    players (update_player_historical_stats hd tg n t ad ty id clock) !! k = Some r ->
    consistent r.
Proof.
  intros Hinv k r. destruct (decide (tg = k)) as [<-|Hne].
  2: { rewrite update_lookup_other by done. apply Hinv. }
  assert (Hc : consistent
            (default (new_player_record tg n t) (players hd !! tg))).
  { destruct (players hd !! tg) as [r0|] eqn:E; cbn; [by eapply Hinv|].
    split; reflexivity. }
  unfold update_player_historical_stats. case_bool_decide; cbn;
    rewrite lookup_insert_eq; intros Heq; injection Heq as <-.
  - exact Hc.
  - apply record_attacks_consistent. exact Hc.
Qed.

End HistoryFacts.

(** C6: a call whose [war_id] is already in the player's list changes no
counter, no history entry and no war id; so a second call for the same
player and war, with the same or with different attack data, leaves the
statistics as the first call left them. *)
Theorem recorded_war_changes_no_statistics
    (hd : History.historical_data) (tg n : string) (t : Z)
    (ad : War.player_stats) (ty id : string) (clock : nat -> string)
    (r : History.player_record) :
  History.players hd !! tg = Some r ->
  id ∈ History.war_ids r ->
  let hd' := History.update_player_historical_stats hd tg n t ad ty id clock in
  (exists r', History.players hd' !! tg = Some r' /\
              HistorySpec.same_statistics r r') /\
  (forall k, k <> tg -> History.players hd' !! k = History.players hd !! k) /\
  History.cwl_seasons hd' = History.cwl_seasons hd /\
  (forall hd0 n1 t1 ad1 ty1 clock1 n2 t2 ad2 ty2 clock2,
     let hd1 :=
       History.update_player_historical_stats hd0 tg n1 t1 ad1 ty1 id clock1 in
     let hd2 :=
       History.update_player_historical_stats hd1 tg n2 t2 ad2 ty2 id clock2 in
     exists r1 r2,
       History.players hd1 !! tg = Some r1 /\
       History.players hd2 !! tg = Some r2 /\
       HistorySpec.same_statistics r1 r2 /\
       (forall k, k <> tg ->
          History.players hd2 !! k = History.players hd1 !! k)).
Proof.
  intros Hr Hin hd'. subst hd'. split; [|split; [|split]].
  - rewrite (update_recorded hd tg n t ad ty id clock r Hr Hin). cbn.
    rewrite lookup_insert_eq. eexists. split; [done|].
    apply same_statistics_refresh.
  - intros k Hk. by apply update_lookup_other.
  - apply update_seasons.
  - intros hd0 n1 t1 ad1 ty1 clock1 n2 t2 ad2 ty2 clock2 hd1 hd2.
    destruct (update_records_war hd0 tg n1 t1 ad1 ty1 id clock1)
      as (r1 & Hr1 & Hin1). fold hd1 in Hr1.
    exists r1, (History.refresh r1 n2 t2). split; [done|]. split.
    + subst hd2.
      rewrite (update_recorded hd1 tg n2 t2 ad2 ty2 id clock2 r1 Hr1 Hin1).
      cbn. by rewrite lookup_insert_eq.
    + split; [apply same_statistics_refresh|].
      intros k Hk. by apply update_lookup_other.
Qed.

(** C10: in every store built from the empty one by calls of
[update_player_historical_stats], each record has
[total_attacks = three_stars + two_stars + one_star + zero_stars] and as
many history entries; one recorded attack adds one entry, one to
[total_attacks] and one to exactly one bucket, the zero-star bucket taking
every star count other than 1, 2 and 3. *)
Theorem history_counters_consistent
    (clan : string) (calls : list HistorySpec.call) (k : string)
    (r : History.player_record) :
  History.players (HistorySpec.run clan calls) !! k = Some r ->
  HistorySpec.consistent r /\
  (forall t ty id now a,
     let r' := History.record_attack t ty id now r a in
     length (History.attacks_history r') = S (length (History.attacks_history r)) /\
     History.total_attacks r' = History.total_attacks r + 1 /\
     (War.stars a = 3 ->
        History.three_stars r' = History.three_stars r + 1 /\
        History.two_stars r' = History.two_stars r /\
        History.one_star r' = History.one_star r /\
        History.zero_stars r' = History.zero_stars r) /\
     (War.stars a = 2 ->
        History.three_stars r' = History.three_stars r /\
        History.two_stars r' = History.two_stars r + 1 /\
        History.one_star r' = History.one_star r /\
        History.zero_stars r' = History.zero_stars r) /\
     (War.stars a = 1 ->
        History.three_stars r' = History.three_stars r /\
        History.two_stars r' = History.two_stars r /\
        History.one_star r' = History.one_star r + 1 /\
        History.zero_stars r' = History.zero_stars r) /\
     (War.stars a <> 3 -> War.stars a <> 2 -> War.stars a <> 1 ->
        History.three_stars r' = History.three_stars r /\
        History.two_stars r' = History.two_stars r /\
        History.one_star r' = History.one_star r /\
        History.zero_stars r' = History.zero_stars r + 1)).
Proof.
  intros Hk. split.
  - revert k r Hk. unfold HistorySpec.run.
    induction calls as [|c calls IH] using rev_ind; intros k r.
    + cbn. by rewrite lookup_empty.
    + rewrite fold_left_app. cbn. unfold HistorySpec.apply_call at 1.
      by apply update_consistent.
  - intros t ty id now a. cbn. rewrite length_app. cbn.
    destruct (Z.eqb_spec (War.stars a) 3), (Z.eqb_spec (War.stars a) 2),
      (Z.eqb_spec (War.stars a) 1); repeat split; intros; lia.
Qed.

Lemma recorded_war_changes_no_statistics_witness :
  let hd := HistoryExamples.store_after_first_fetch in
  let r := HistoryExamples.record_after_first_fetch in
  let id := "#A_#B_20250101T000000.000Z"%string in
  let hd' :=
    History.update_player_historical_stats hd "#P1" "Annie" 13
      (HistoryExamples.stats_with
         [HistoryExamples.three_star_hit; HistoryExamples.failed_hit])
      "regular_war" id (fun _ => "2025-01-02T11:00:00"%string) in
  History.players hd !! "#P1"%string = Some r /\
  id ∈ History.war_ids r /\
  exists r', History.players hd' !! "#P1"%string = Some r' /\
             HistorySpec.same_statistics r r'.
Proof.
  cbv zeta.
  assert (H1 : History.players HistoryExamples.store_after_first_fetch
                 !! "#P1"%string
               = Some HistoryExamples.record_after_first_fetch)
    by (vm_compute; reflexivity).
  assert (H2 : "#A_#B_20250101T000000.000Z"%string
               ∈ History.war_ids HistoryExamples.record_after_first_fetch)
    by (cbn; apply list_elem_of_here).
  split; [exact H1|]. split; [exact H2|].
  exact (proj1 (recorded_war_changes_no_statistics
                  HistoryExamples.store_after_first_fetch "#P1" "Annie" 13
                  (HistoryExamples.stats_with
                     [HistoryExamples.three_star_hit; HistoryExamples.failed_hit])
                  "regular_war" "#A_#B_20250101T000000.000Z"
                  (fun _ => "2025-01-02T11:00:00"%string)
                  HistoryExamples.record_after_first_fetch H1 H2)).
Defined.

Lemma history_counters_consistent_witness :
  History.players HistoryExamples.store_after_first_fetch !! "#P1"%string
    = Some HistoryExamples.record_after_first_fetch /\
  HistorySpec.consistent HistoryExamples.record_after_first_fetch.
Proof.
  assert (H1 : History.players HistoryExamples.store_after_first_fetch
                 !! "#P1"%string
               = Some HistoryExamples.record_after_first_fetch)
    by (vm_compute; reflexivity).
  split; [exact H1|].
  exact (proj1 (history_counters_consistent "#2J28LL2VU"
                  [HistoryExamples.first_fetch] "#P1"
                  HistoryExamples.record_after_first_fetch H1)).
Defined.


(** * Properties of the war-attack extractor *)

Section WarFacts.
Import War WarSpec.

Lemma od_get_set {V} (d : odict V) k v k' :
  od_get (od_set k v d) k' = if String.eqb k' k then Some v else od_get d k'.
Proof.
  induction d as [|[k0 v0] d IH]; cbn.
  - done.
  - destruct (String.eqb_spec k k0) as [->|Hne]; cbn.
    + by destruct (String.eqb_spec k' k0).
    + rewrite IH. destruct (String.eqb_spec k' k0) as [->|Hne'].
      * by destruct (String.eqb_spec k0 k) as [->|].
      * done.
Qed.

Lemma od_get_elem {V} (d : odict V) k v : od_get d k = Some v -> (k, v) ∈ d.
Proof.
  induction d as [|[k0 v0] d IH]; cbn; [done|].
  destruct (String.eqb_spec k k0) as [->|Hne].
  - intros [= ->]. apply list_elem_of_here.
  - intros H. apply list_elem_of_further. by apply IH.
Qed.

Lemma insert_by_Permutation {A} (key : A -> Z) x l :
  insert_by key x l ≡ₚ x :: l.
Proof.
  induction l as [|y l IH]; cbn; [done|].
  destruct (key x <=? key y); [done|].
  rewrite IH. apply Permutation_swap.
Qed.

Lemma sorted_by_Permutation {A} (key : A -> Z) l : sorted_by key l ≡ₚ l.
Proof.
  induction l as [|x l IH]; cbn; [done|].
  rewrite insert_by_Permutation. by rewrite IH.
Qed.

Lemma attacks_recorded_Permutation l l' t :
  l ≡ₚ l' -> attacks_recorded l t = attacks_recorded l' t.
Proof.
  induction 1; cbn; lia.
Qed.

Lemma record_attacks_used lookup t atts :
  forall st,
    attacks_used (fold_left (record_attack lookup t) atts st) =
    attacks_used st + Z.of_nat (length atts) /\
    missed_attacks (fold_left (record_attack lookup t) atts st) =
    missed_attacks st /\
    ps_name (fold_left (record_attack lookup t) atts st) = ps_name st.
Proof.
  induction atts as [|a atts IH]; intros st.
  - cbn. repeat split. lia.
  - cbn [fold_left length]. destruct (IH (record_attack lookup t st a)) as (-> & -> & ->).
    cbn. repeat split. lia.
Qed.

Lemma analyze_member_other lookup d m t :
  member_tag m <> t ->
  od_get (analyze_member lookup d m) t = od_get d t.
Proof.
  intros Hne. unfold analyze_member. fold (member_tag m).
  destruct (attacks m); rewrite od_get_set;
    by destruct (String.eqb_spec t (member_tag m)).
Qed.

Lemma analyze_member_same lookup d m :
  exists st,
    od_get (analyze_member lookup d m) (member_tag m) = Some st /\
    attacks_used st = used_at d (member_tag m) + Z.of_nat (length (attacks m)) /\
    (attacks m = [] -> missed_attacks st = 2).
Proof.
  unfold analyze_member, used_at. fold (member_tag m).
  destruct (attacks m) as [|a atts] eqn:E; rewrite od_get_set, String.eqb_refl.
  - eexists. split; [done|]. cbn.
    destruct (od_get d (member_tag m)); cbn; split; (lia || done).
  - eexists. split; [done|].
    destruct (record_attacks_used lookup (townhallLevel m) (a :: atts)
                (default (initial_stats (name m) (member_tag m) (townhallLevel m))
                   (od_get d (member_tag m)))) as (-> & _ & _).
    split; [|done]. by destruct (od_get d (member_tag m)).
Qed.

Lemma analyze_members_used lookup roster t :
  forall d,
    used_at (fold_left (analyze_member lookup) roster d) t =
    used_at d t + attacks_recorded roster t.
Proof.
  induction roster as [|m roster IH]; intros d; cbn [fold_left attacks_recorded].
  - lia.
  - rewrite IH. destruct (String.eqb_spec (member_tag m) t) as [<-|Hne].
    + destruct (analyze_member_same lookup d m) as (st & Hst & Hu & _).
      unfold used_at at 1. rewrite Hst. cbn. lia.
    + unfold used_at. rewrite analyze_member_other by done. lia.
Qed.

Lemma analyze_members_present lookup roster t :
  forall d,
    is_Some (od_get d t) ->
    is_Some (od_get (fold_left (analyze_member lookup) roster d) t).
Proof.
  induction roster as [|m roster IH]; intros d Hd; cbn [fold_left]; [done|].
  apply IH. destruct (decide (member_tag m = t)) as [<-|Hne].
  - destruct (analyze_member_same lookup d m) as (st & -> & _). by eexists.
  - by rewrite analyze_member_other.
Qed.

Lemma analyze_members_listed lookup roster m :
  m ∈ roster ->
  forall d, is_Some (od_get (fold_left (analyze_member lookup) roster d) (member_tag m)).
Proof.
  induction 1 as [m roster|m m' roster Hin IH]; intros d; cbn [fold_left].
  - apply analyze_members_present.
    destruct (analyze_member_same lookup d m) as (st & -> & _). by eexists.
  - apply IH.
Qed.

(** While no entry filed under [t] has attacks, a [missed_attacks] of 2
stays. *)
Lemma analyze_members_idle lookup roster t :
  (forall m, m ∈ roster -> member_tag m = t -> attacks m = []) ->
  forall d st,
    od_get d t = Some st -> missed_attacks st = 2 ->
    exists st',
      od_get (fold_left (analyze_member lookup) roster d) t = Some st' /\
      missed_attacks st' = 2.
Proof.
  induction roster as [|m roster IH]; intros Hidle d st Hst Hm; cbn [fold_left].
  - eauto.
  - assert (Hrest : forall m', m' ∈ roster -> member_tag m' = t -> attacks m' = []).
    { intros m' Hin. apply Hidle. by apply list_elem_of_further. }
    destruct (decide (member_tag m = t)) as [<-|Hne].
    + destruct (analyze_member_same lookup d m) as (st1 & Hst1 & _ & Hm1).
      eapply IH; [done|exact Hst1|]. apply Hm1. apply Hidle; [|done].
      apply list_elem_of_here.
    + eapply IH; [done| |exact Hm]. by rewrite analyze_member_other.
Qed.

Lemma analyze_members_idle_missed lookup roster m :
  m ∈ roster ->
  (forall m', m' ∈ roster -> member_tag m' = member_tag m -> attacks m' = []) ->
  forall d,
    exists st,
      od_get (fold_left (analyze_member lookup) roster d) (member_tag m) = Some st /\
      missed_attacks st = 2.
Proof.
  induction 1 as [m roster|m m0 roster Hin IH]; intros Hidle d; cbn [fold_left].
  - destruct (analyze_member_same lookup d m) as (st1 & Hst1 & _ & Hm1).
    eapply analyze_members_idle; [|exact Hst1|].
    + intros m' Hin'. apply Hidle. by apply list_elem_of_further.
    + apply Hm1. apply Hidle; [apply list_elem_of_here|done].
  - apply IH. intros m' Hin'. apply Hidle. by apply list_elem_of_further.
Qed.

Lemma attacks_recorded_idle roster t :
  (forall m, m ∈ roster -> member_tag m = t -> attacks m = []) ->
  attacks_recorded roster t = 0.
Proof.
  induction roster as [|m roster IH]; intros Hidle; cbn; [done|].
  rewrite IH.
  - destruct (String.eqb_spec (member_tag m) t) as [E|]; [|done].
    rewrite (Hidle m); [done|apply list_elem_of_here|done].
  - intros m' Hin. apply Hidle. by apply list_elem_of_further.
Qed.

End WarFacts.

(** C8: every member of the clan roster has an entry in the returned
mapping, under its tag; [attacks_used] there counts the attacks recorded
for that tag, so it is 0 (and [missed_attacks] is 2) for a member without
attacks; and the missed-attack list gives, for every entry with fewer than
two attacks, 2 minus [attacks_used]. *)
Theorem every_roster_member_reported (w : War.war) (m : War.member) :
  m ∈ War.clan_members w ->
  let stats := War.analyze_war_attacks w in
  exists st,
    War.od_get stats (WarSpec.member_tag m) = Some st /\
    War.attacks_used st =
      WarSpec.attacks_recorded (War.clan_members w) (WarSpec.member_tag m) /\
    ((forall m', m' ∈ War.clan_members w ->
        WarSpec.member_tag m' = WarSpec.member_tag m -> War.attacks m' = []) ->
     War.attacks_used st = 0 /\ War.missed_attacks st = 2) /\
    (War.attacks_used st < 2 ->
     (War.ps_name st, 2 - War.attacks_used st) ∈ War.missed stats) /\
    (forall n c, (n, c) ∈ War.missed stats ->
       exists k st', (k, st') ∈ stats /\ n = War.ps_name st' /\
                     c = 2 - War.attacks_used st').
Proof.
  intros Hin stats. subst stats. unfold War.analyze_war_attacks.
  destruct (War.clan_members w) as [|m0 roster] eqn:Eroster.
  { by apply elem_of_nil in Hin. }
  rewrite <- Eroster in *. clear Eroster m0 roster.
  set (lookup := War.opponent_lookup (War.opponent_members w)).
  set (sorted := War.sorted_by War.mapPosition (War.clan_members w)).
  assert (Hperm : sorted ≡ₚ War.clan_members w) by apply sorted_by_Permutation.
  assert (Hin' : m ∈ sorted) by by rewrite Hperm.
  destruct (analyze_members_listed lookup sorted m Hin' []) as [st Hst].
  pose proof (analyze_members_used lookup sorted (WarSpec.member_tag m) []) as Hused.
  unfold WarSpec.used_at in Hused. rewrite Hst in Hused. cbn in Hused.
  rewrite (attacks_recorded_Permutation _ _ _ Hperm) in Hused.
  exists st. split; [done|]. split; [done|]. split; [|split].
  - intros Hidle. split.
    + rewrite Hused. by apply attacks_recorded_idle.
    + destruct (analyze_members_idle_missed lookup sorted m Hin') with (d := @nil (string * War.player_stats))
        as (st' & Hst' & Hm').
      * intros m' Hm'. apply Hidle. by rewrite <- Hperm.
      * rewrite Hst in Hst'. by injection Hst' as ->.
  - intros Hlt. unfold War.missed. apply list_elem_of_omap.
    exists (WarSpec.member_tag m, st). split; [by apply od_get_elem|].
    cbn. apply Z.ltb_lt in Hlt. by rewrite Hlt.
  - intros n c Hnc. unfold War.missed in Hnc.
    apply list_elem_of_omap in Hnc as ([k st'] & Hkin & Hsome). cbn in Hsome.
    destruct (War.attacks_used st' <? 2); [|done].
    injection Hsome as <- <-. eauto.
Qed.

Lemma every_roster_member_reported_witness :
  WarExamples.sleeper ∈ War.clan_members WarExamples.small_war /\
  exists st,
    War.od_get (War.analyze_war_attacks WarExamples.small_war) "#P2" = Some st /\
    War.attacks_used st = 0 /\ War.missed_attacks st = 2 /\
    ("Bob"%string, 2) ∈ War.missed (War.analyze_war_attacks WarExamples.small_war).
Proof.
  assert (Hin : WarExamples.sleeper ∈ War.clan_members WarExamples.small_war)
    by (cbn; apply list_elem_of_further, list_elem_of_here).
  split; [exact Hin|].
  destruct (every_roster_member_reported WarExamples.small_war
              WarExamples.sleeper Hin) as (st & Hst & Hu & Hidle & Hmiss & _).
  exists st. split; [exact Hst|].
  assert (Hu0 : War.attacks_used st = 0) by (rewrite Hu; reflexivity).
  split; [exact Hu0|]. split.
  - vm_compute in Hst. injection Hst as <-. reflexivity.
  - vm_compute in Hst. injection Hst as <-. apply Hmiss. reflexivity.
Defined.

(** The sample war, evaluated: both members are listed, in map order. *)
Example small_war_stats :
  map (fun kv : string * War.player_stats =>
         (kv.1, War.attacks_used kv.2, War.missed_attacks kv.2))
      (War.analyze_war_attacks WarExamples.small_war)
  = [("#P2"%string, 0, 2); ("#P1"%string, 1, 0)] /\
  War.missed (War.analyze_war_attacks WarExamples.small_war)
  = [("Bob"%string, 2); ("Ann"%string, 1)].
Proof. split; vm_compute; reflexivity. Qed.


(** * Properties of the league analysis *)

Section CWLFacts.
Import CWL CWLSpec.

Variable get_cwl_war : string -> option cwl_war.
Variable now : nat -> string.

Lemma record_player_fields season_name id stats :
  forall pr,
    let pr' := fold_left (record_player now season_name id) stats pr in
    wars_analyzed pr' = wars_analyzed pr /\ current_state pr' = current_state pr.
Proof.
  induction stats as [|[k st] stats IH]; intros pr; cbn [fold_left]; [done|].
  destruct (IH (record_player now season_name id pr (k, st))) as [-> ->].
  done.
Qed.

Lemma record_player_agree season_name id stats :
  forall pr pr',
    agree pr pr' ->
    agree (fold_left (record_player now season_name id) stats pr)
          (fold_left (record_player now season_name id) stats pr').
Proof.
  induction stats as [|[k st] stats IH]; intros pr pr' H; cbn [fold_left]; [done|].
  apply IH. destruct H as (H1 & H2 & H3 & H4 & H5).
  unfold agree, record_player. cbn. rewrite H1, H2, H3, H4. repeat split; try done.
  destruct H5 as [H5|H5]; [left; lia|by right].
Qed.

Lemma analyze_war_tag_agree our season_name n pr pr' war_tag :
  agree pr pr' ->
  agree (analyze_war_tag get_cwl_war now our season_name n pr war_tag)
        (analyze_war_tag get_cwl_war now our season_name n pr' war_tag).
Proof.
  intros H. unfold analyze_war_tag.
  destruct (String.eqb war_tag "#0"); [done|].
  destruct (get_cwl_war war_tag) as [war|]; [|done].
  set (sides := if bool_decide _ then _ else _).
  destruct sides as [[our_clan opp]|]; [|done].
  assert (Hstep :
    agree {| historical_data := historical_data pr;
             all_player_stats := all_player_stats pr;
             wars_analyzed := wars_analyzed pr + 1;
             current_state := war_state war; ticks := ticks pr |}
          {| historical_data := historical_data pr';
             all_player_stats := all_player_stats pr';
             wars_analyzed := wars_analyzed pr' + 1;
             current_state := war_state war; ticks := ticks pr' |}).
  { destruct H as (H1 & H2 & H3 & H4 & _). unfold agree. cbn.
    rewrite H1, H2, H3, H4. repeat split; try done. by right. }
  destruct (_ || _); [|done]. by apply record_player_agree.
Qed.

Lemma analyze_rounds_agree our season_name rs :
  forall n pr pr',
    agree pr pr' ->
    agree (analyze_rounds get_cwl_war now our season_name n pr rs)
          (analyze_rounds get_cwl_war now our season_name n pr' rs).
Proof.
  induction rs as [|war_tags rs IH]; intros n pr pr' H; cbn; [done|].
  apply IH. clear IH. revert pr pr' H.
  induction war_tags as [|t war_tags IHt]; intros pr pr' H; cbn; [done|].
  apply IHt. by apply analyze_war_tag_agree.
Qed.

(** The store returned does not depend on the state the league group
reports. *)
Lemma analyze_cwl_ignores_group_state
    (get_cwl_group : string -> option cwl_group) (s : string) clan_tag hd :
  analyze_cwl (fun t => CWLExamples.with_state s <$> get_cwl_group t)
    get_cwl_war now clan_tag hd =
  analyze_cwl get_cwl_group get_cwl_war now clan_tag hd.
Proof.
  unfold analyze_cwl. destruct (get_cwl_group clan_tag) as [g|]; cbn; [|done].
  assert (Hag : agree
    (analyze_rounds get_cwl_war now clan_tag (season g) 1
       {| historical_data := hd; all_player_stats := []; wars_analyzed := 0;
          current_state := s; ticks := 0 |} (rounds g))
    (analyze_rounds get_cwl_war now clan_tag (season g) 1
       {| historical_data := hd; all_player_stats := []; wars_analyzed := 0;
          current_state := state g; ticks := 0 |} (rounds g))).
  { apply analyze_rounds_agree. unfold agree. cbn. repeat split. by left. }
  destruct Hag as (H1 & H2 & H3 & H4 & H5).
  rewrite H1, H2, H3, H4.
  destruct (0 <? wars_analyzed _) eqn:E; [|done].
  apply Z.ltb_lt in E. destruct H5 as [H5|H5]; [lia|]. by rewrite H5.
Qed.

End CWLFacts.

(** C9: the [complete] flag that [analyze_cwl] writes is not gated on the
league group's reported state.  The store returned is the same whatever
state the group reports; the flag is true exactly when the last analysed
war reports the state "ended": it is written true for a league still
"inWar", and false for a league that reports "ended" with its wars in
"warEnded". *)
Theorem complete_flag_not_gated_on_league_state :
  (forall get_cwl_group get_cwl_war now s clan_tag hd,
     CWL.analyze_cwl (fun t => CWLExamples.with_state s <$> get_cwl_group t)
       get_cwl_war now clan_tag hd =
     CWL.analyze_cwl get_cwl_group get_cwl_war now clan_tag hd) /\
  CWLExamples.written_flag "inWar" "ended" = Some true /\
  CWLExamples.written_flag "ended" "warEnded" = Some false.
Proof.
  split; [|split].
  - intros. apply analyze_cwl_ignores_group_state.
  - vm_compute. reflexivity.
  - vm_compute. reflexivity.
Qed.


(** * Rounding of doubles *)

Section Rounding.
Import FloatSpec.

Lemma round_half_even_bounds n d :
  0 < d -> n / d <= round_half_even n d <= n / d + 1.
Proof.
  intros Hd. unfold round_half_even.
  destruct (2 * (n mod d) ?= d); [destruct (Z.even (n / d))| |]; lia.
Qed.

Lemma round_half_even_exact q d :
  0 < d -> round_half_even (q * d) d = q.
Proof.
  intros Hd. unfold round_half_even.
  rewrite Z.mod_mul, Z.div_mul by lia.
  destruct (Z.compare_spec (2 * 0) d); lia.
Qed.

Lemma round_half_even_mono d n1 n2 :
  0 < d -> n1 <= n2 -> round_half_even n1 d <= round_half_even n2 d.
Proof.
  intros Hd Hle.
  assert (Hq : n1 / d <= n2 / d) by (apply Z.div_le_mono; lia).
  destruct (Z.eq_dec (n1 / d) (n2 / d)) as [Heq|Hne].
  - assert (Hr : n1 mod d <= n2 mod d).
    { pose proof (Z.div_mod n1 d ltac:(lia)). pose proof (Z.div_mod n2 d ltac:(lia)). nia. }
    unfold round_half_even. rewrite Heq.
    destruct (Z.compare_spec (2 * (n1 mod d)) d), (Z.compare_spec (2 * (n2 mod d)) d);
      destruct (Z.even (n2 / d)); lia.
  - pose proof (round_half_even_bounds n1 d Hd).
    pose proof (round_half_even_bounds n2 d Hd). lia.
Qed.

Lemma pow2_pos n : 0 <= n -> 0 < 2 ^ n.
Proof. intros. apply Z.pow_pos_nonneg; lia. Qed.

Lemma pow2_le a b : 0 <= a <= b -> 2 ^ a <= 2 ^ b.
Proof. intros. apply Z.pow_le_mono_r; lia. Qed.

Lemma pow2_split a b : 0 <= a -> 0 <= b -> 2 ^ (a + b) = 2 ^ a * 2 ^ b.
Proof. intros. apply Z.pow_add_r; lia. Qed.

Lemma expo_ge v : 1074 <= expo v.
Proof. unfold expo. lia. Qed.

Lemma expo_mono v1 v2 : 0 < v1 -> v1 <= v2 -> expo v1 <= expo v2.
Proof.
  intros H1 H2. unfold expo.
  pose proof (Z.log2_le_mono v1 v2 H2). lia.
Qed.

Lemma below_pow2 v : 0 < v -> v < 2 ^ (expo v + 53).
Proof.
  intros Hv. destruct (Z.log2_spec v Hv) as [_ Hlt].
  eapply Z.lt_le_trans; [exact Hlt|].
  apply pow2_le. pose proof (Z.log2_nonneg v). unfold expo. lia.
Qed.

Lemma top_pos : 0 < top.
Proof. unfold top, unit_exp. apply pow2_pos. lia. Qed.

Lemma rnd_nonneg v : 0 <= rnd v.
Proof.
  unfold rnd. destruct (v <=? 0) eqn:E; [lia|]. apply Z.leb_gt in E.
  pose proof (expo_ge v).
  pose proof (pow2_pos (expo v) ltac:(lia)) as Hp.
  pose proof (round_half_even_bounds v (2 ^ expo v) Hp).
  assert (0 <= v / 2 ^ expo v) by (apply Z.div_pos; lia).
  pose proof top_pos.
  apply Z.min_glb; [|lia]. apply Z.mul_nonneg_nonneg; lia.
Qed.

Lemma rnd_le_top v : rnd v <= top.
Proof.
  unfold rnd. pose proof top_pos. destruct (v <=? 0); lia.
Qed.

Lemma rnd_mono v1 v2 : v1 <= v2 -> rnd v1 <= rnd v2.
Proof.
  intros Hle. unfold rnd at 1.
  destruct (v1 <=? 0) eqn:E1; [apply rnd_nonneg|]. apply Z.leb_gt in E1.
  unfold rnd. destruct (v2 <=? 0) eqn:E2; [apply Z.leb_le in E2; lia|].
  apply Z.min_le_compat_r.
  pose proof (expo_mono v1 v2 E1 Hle) as He.
  pose proof (expo_ge v1) as Hg1.
  set (e1 := expo v1) in *. set (e2 := expo v2) in *.
  pose proof (pow2_pos e1 ltac:(lia)) as Hp1.
  pose proof (pow2_pos e2 ltac:(lia)) as Hp2.
  destruct (Z.eq_dec e1 e2) as [Heq|Hne].
  - rewrite <- Heq. apply Z.mul_le_mono_nonneg_r; [lia|].
    by apply round_half_even_mono.
  - assert (Hlt : e1 + 1 <= e2) by lia.
    (* v1 stays below 2^(e1+53), v2 has at least 53 digits at e2 *)
    pose proof (below_pow2 v1 E1) as Hb1. fold e1 in Hb1.
    assert (Hq1 : round_half_even v1 (2 ^ e1) <= 2 ^ 53).
    { pose proof (round_half_even_bounds v1 (2 ^ e1) Hp1) as [_ Hu].
      assert (v1 / 2 ^ e1 < 2 ^ 53); [|lia].
      apply Z.div_lt_upper_bound; [lia|].
      rewrite <- pow2_split by lia. exact Hb1. }
    assert (He2 : e2 = Z.log2 v2 + 1 - 53) by (subst e1 e2; unfold expo in *; lia).
    assert (Hv2 : 2 ^ (e2 + 52) <= v2).
    { destruct (Z.log2_spec v2 ltac:(lia)) as [Hl _].
      replace (e2 + 52) with (Z.log2 v2) by lia. exact Hl. }
    assert (Hq2 : 2 ^ 52 <= round_half_even v2 (2 ^ e2)).
    { pose proof (round_half_even_bounds v2 (2 ^ e2) Hp2) as [Hl _].
      assert (2 ^ 52 <= v2 / 2 ^ e2); [|lia].
      apply Z.div_le_lower_bound; [lia|].
      rewrite <- pow2_split by lia. exact Hv2. }
    assert (H1 : round_half_even v1 (2 ^ e1) * 2 ^ e1 <= 2 ^ 53 * 2 ^ e1)
      by (apply Z.mul_le_mono_nonneg_r; lia).
    assert (H2 : 2 ^ 52 * 2 ^ e2 <= round_half_even v2 (2 ^ e2) * 2 ^ e2)
      by (apply Z.mul_le_mono_nonneg_r; lia).
    assert (H3 : 2 ^ 53 * 2 ^ e1 <= 2 ^ 52 * 2 ^ e2).
    { rewrite <- !pow2_split by lia. apply pow2_le. lia. }
    lia.
Qed.

(** A value with at most 53 digits above the subnormal step is not
changed by rounding. *)
Lemma rnd_representable_lt q e :
  0 <= q < 2 ^ 53 -> 1074 <= e -> q * 2 ^ e <= top -> rnd (q * 2 ^ e) = q * 2 ^ e.
Proof.
  intros Hq He Htop. unfold rnd.
  pose proof (pow2_pos e ltac:(lia)) as Hpe.
  destruct (q * 2 ^ e <=? 0) eqn:E0; [apply Z.leb_le in E0; nia|].
  apply Z.leb_gt in E0. assert (0 < q) by nia.
  set (v := q * 2 ^ e) in *.
  assert (Hexp : expo v <= e).
  { unfold expo. apply Z.max_lub; [|lia].
    assert (Z.log2 v < e + 53); [|lia].
    apply Z.log2_lt_pow2; [lia|].
    subst v. rewrite (Z.add_comm e 53), pow2_split by lia.
    apply Z.mul_lt_mono_pos_r; lia. }
  pose proof (expo_ge v) as Hg.
  assert (Hdiv : v = (q * 2 ^ (e - expo v)) * 2 ^ expo v).
  { subst v. rewrite <- Z.mul_assoc, <- pow2_split by lia. f_equal. f_equal. lia. }
  rewrite Hdiv at 1. rewrite round_half_even_exact by (apply pow2_pos; lia).
  rewrite <- Hdiv. lia.
Qed.

Lemma rnd_representable q e :
  0 <= q <= 2 ^ 53 -> 1074 <= e -> q * 2 ^ e <= top -> rnd (q * 2 ^ e) = q * 2 ^ e.
Proof.
  intros Hq He Htop.
  destruct (Z.eq_dec q (2 ^ 53)) as [->|Hne].
  - assert (E : 2 ^ 53 * 2 ^ e = 2 ^ 52 * 2 ^ (e + 1)).
    { rewrite <- !pow2_split by lia. f_equal. lia. }
    rewrite E in *. apply rnd_representable_lt; lia.
  - apply rnd_representable_lt; lia.
Qed.

Lemma rnd_top : rnd top = top.
Proof.
  assert (E : top = 1 * 2 ^ (1024 + unit_exp)) by (unfold top; lia).
  rewrite E. apply rnd_representable; unfold unit_exp; [lia|lia|].
  fold unit_exp. rewrite <- E. lia.
Qed.

Lemma rnd_above_top v : top <= v -> rnd v = top.
Proof.
  intros Hv. pose proof (rnd_le_top v). pose proof (rnd_mono top v Hv).
  rewrite rnd_top in *. lia.
Qed.

End Rounding.

Section Shifting.

Lemma digits2_pos_log2 m : Z.pos (digits2_pos m) = Z.log2 (Z.pos m) + 1.
Proof.
  assert (Hsize : forall p, digits2_pos p = Pos.size p).
  { induction p as [p IH|p IH|]; cbn; by rewrite ?IH. }
  rewrite Hsize. destruct m; cbn; lia.
Qed.

Lemma iter_pos_nat {A} (f : A -> A) n :
  forall x, SpecFloat.iter_pos f n x = Nat.iter (Pos.to_nat n) f x.
Proof.
  induction n as [n IH|n IH|]; intros x; cbn [SpecFloat.iter_pos].
  - rewrite !IH, Pos2Nat.inj_xI.
    replace (S (2 * Pos.to_nat n)) with (Pos.to_nat n + S (Pos.to_nat n))%nat by lia.
    by rewrite Nat.iter_add, Nat.iter_succ_r.
  - rewrite !IH, Pos2Nat.inj_xO.
    replace (2 * Pos.to_nat n)%nat with (Pos.to_nat n + Pos.to_nat n)%nat by lia.
    by rewrite Nat.iter_add.
  - done.
Qed.

Lemma shr_1_spec m r s :
  0 <= m ->
  shr_1 {| shr_m := m; shr_r := r; shr_s := s |} =
  {| shr_m := m / 2; shr_r := Z.odd m; shr_s := r || s |}.
Proof.
  intros Hm. destruct m as [|p|p]; [done| |lia].
  destruct p as [p|p|]; cbn -[Z.div]; f_equal.
  - rewrite Pos2Z.inj_xI. apply Z.div_unique with 1; lia.
  - rewrite Pos2Z.inj_xO. apply Z.div_unique with 0; lia.
Qed.

(** The record after [k] one-bit shifts of [m]: the quotient by 2^k, the
bit below it, and whether anything lies below that bit. *)
Definition shifted (m : Z) (k : nat) : shr_record :=
  match k with
  | O => {| shr_m := m; shr_r := false; shr_s := false |}
  | S j =>
      {| shr_m := m / 2 ^ Z.of_nat k;
         shr_r := 2 ^ Z.of_nat j <=? m mod 2 ^ Z.of_nat k;
         shr_s := negb (m mod 2 ^ Z.of_nat j =? 0) |}
  end.

Lemma shifted_spec m k :
  0 <= m ->
  Nat.iter k shr_1 {| shr_m := m; shr_r := false; shr_s := false |} = shifted m k.
Proof.
  intros Hm. induction k as [|k IH]; [done|].
  rewrite Nat.iter_succ, IH. clear IH.
  assert (Hk : 0 < 2 ^ Z.of_nat k) by (apply Z.pow_pos_nonneg; lia).
  assert (Hsk : 2 ^ Z.of_nat (S k) = 2 ^ Z.of_nat k * 2).
  { rewrite Nat2Z.inj_succ, Z.pow_succ_r by lia. lia. }
  assert (Hrem : m mod 2 ^ Z.of_nat (S k) =
                 m mod 2 ^ Z.of_nat k + 2 ^ Z.of_nat k * ((m / 2 ^ Z.of_nat k) mod 2)).
  { rewrite Hsk. apply Z.rem_mul_r; lia. }
  assert (Hq : 0 <= m / 2 ^ Z.of_nat k) by (apply Z.div_pos; lia).
  pose proof (Z.mod_pos_bound m (2 ^ Z.of_nat k) Hk) as Hb.
  pose proof (Z.mod_pos_bound (m / 2 ^ Z.of_nat k) 2 ltac:(lia)) as Hb2.
  assert (Hodd : Z.odd (m / 2 ^ Z.of_nat k) = (2 ^ Z.of_nat k <=? m mod 2 ^ Z.of_nat (S k))).
  { rewrite Hrem, Zodd_mod.
    destruct (Z.eqb_spec ((m / 2 ^ Z.of_nat k) mod 2) 1) as [->|Hne];
      symmetry; [apply Z.leb_le|apply Z.leb_gt]; nia. }
  destruct k as [|j].
  - cbn [shifted]. rewrite shr_1_spec by done.
    change (Z.of_nat 0) with 0 in *. change (Z.of_nat 1) with 1 in *.
    rewrite ?Z.pow_0_r, ?Z.pow_1_r, ?Z.div_1_r, ?Z.mod_1_r in *.
    by rewrite Hodd.
  - unfold shifted at 1. rewrite shr_1_spec by done.
    unfold shifted. f_equal.
    + rewrite Hsk. rewrite Z.div_div by lia. done.
    + exact Hodd.
    + (* something below bit [S j] iff the bit [j] is set or something is below it *)
      assert (Hj : 0 < 2 ^ Z.of_nat j) by (apply Z.pow_pos_nonneg; lia).
      assert (Hsj : 2 ^ Z.of_nat (S j) = 2 ^ Z.of_nat j * 2).
      { rewrite Nat2Z.inj_succ, Z.pow_succ_r by lia. lia. }
      assert (Hrem' : m mod 2 ^ Z.of_nat (S j) =
                 m mod 2 ^ Z.of_nat j + 2 ^ Z.of_nat j * ((m / 2 ^ Z.of_nat j) mod 2)).
      { rewrite Hsj. apply Z.rem_mul_r; lia. }
      pose proof (Z.mod_pos_bound m (2 ^ Z.of_nat j) Hj) as Hbj.
      pose proof (Z.mod_pos_bound (m / 2 ^ Z.of_nat j) 2 ltac:(lia)) as Hbj2.
      assert (Hbit : (m / 2 ^ Z.of_nat j) mod 2 = 0 \/ (m / 2 ^ Z.of_nat j) mod 2 = 1)
        by lia.
      destruct (Z.leb_spec (2 ^ Z.of_nat j) (m mod 2 ^ Z.of_nat (S j))) as [Hle|Hgt];
      destruct (Z.eqb_spec (m mod 2 ^ Z.of_nat j) 0) as [E0|E0];
      destruct (Z.eqb_spec (m mod 2 ^ Z.of_nat (S j)) 0) as [E1|E1]; cbn; try done;
      destruct Hbit as [Hbit|Hbit]; rewrite Hbit in Hrem'; lia.
Qed.


Lemma round_half_even_scale a b c :
  0 < b -> 0 < c -> round_half_even (a * c) (b * c) = round_half_even a b.
Proof.
  intros Hb Hc. unfold round_half_even.
  rewrite Z.div_mul_cancel_r by lia.
  rewrite Z.mul_mod_distr_r by lia.
  replace (2 * (a mod b * c)) with (2 * (a mod b) * c) by lia.
  assert (Hcmp : (2 * (a mod b) * c ?= b * c) = (2 * (a mod b) ?= b)).
  { destruct (Z.compare_spec (2 * (a mod b)) b);
      [apply Z.compare_eq_iff|apply Z.compare_lt_iff|apply Z.compare_gt_iff]; nia. }
  by rewrite Hcmp.
Qed.

(** Shifting [m] right by [n] bits and rounding on the bits shifted out is
rounding [m / 2^n] to the nearest integer, ties to even. *)
Lemma shr_round m e n :
  0 <= n ->
  let res := shr {| shr_m := Z.pos m; shr_r := false; shr_s := false |} e n in
  res.2 = e + n /\
  round_nearest_even (shr_m res.1) (loc_of_shr_record res.1) =
    round_half_even (Z.pos m) (2 ^ n).
Proof.
  intros Hn. destruct n as [|p|p]; [| |lia].
  - cbn. split; [lia|]. unfold round_half_even.
    rewrite Z.pow_0_r, Z.div_1_r, Z.mod_1_r. done.
  - cbn [shr fst snd]. split; [done|].
    rewrite iter_pos_nat, shifted_spec by lia.
    destruct (Pos.to_nat p) as [|j] eqn:Ep; [lia|].
    assert (Hp : Z.pos p = Z.of_nat (S j)) by lia. rewrite Hp.
    unfold shifted. cbn [shr_m loc_of_shr_record].
    assert (Hj : 0 < 2 ^ Z.of_nat j) by (apply Z.pow_pos_nonneg; lia).
    assert (Hsj : 2 ^ Z.of_nat (S j) = 2 ^ Z.of_nat j * 2).
    { rewrite Nat2Z.inj_succ, Z.pow_succ_r by lia. lia. }
    assert (Hrem : Z.pos m mod 2 ^ Z.of_nat (S j) =
               Z.pos m mod 2 ^ Z.of_nat j
               + 2 ^ Z.of_nat j * ((Z.pos m / 2 ^ Z.of_nat j) mod 2)).
    { rewrite Hsj. apply Z.rem_mul_r; lia. }
    pose proof (Z.mod_pos_bound (Z.pos m) (2 ^ Z.of_nat j) Hj) as Hbj.
    assert (Hbit : (Z.pos m / 2 ^ Z.of_nat j) mod 2 = 0
                   \/ (Z.pos m / 2 ^ Z.of_nat j) mod 2 = 1).
    { pose proof (Z.mod_pos_bound (Z.pos m / 2 ^ Z.of_nat j) 2 ltac:(lia)). lia. }
    unfold round_half_even.
    set (q := Z.pos m / 2 ^ Z.of_nat (S j)).
    set (r := Z.pos m mod 2 ^ Z.of_nat (S j)) in *.
    destruct (Z.leb_spec (2 ^ Z.of_nat j) r) as [Hle|Hgt];
    destruct (Z.eqb_spec (Z.pos m mod 2 ^ Z.of_nat j) 0) as [E0|E0]; cbn [negb];
    destruct (Z.compare_spec (2 * r) (2 ^ Z.of_nat (S j))) as [Hc|Hc|Hc];
      try done; destruct Hbit as [Hbit|Hbit]; rewrite Hbit in Hrem; lia.
Qed.

End Shifting.
(** * Further properties of the rush report *)

Section RushMoreFacts.
Import Tables Rush RushSpec RushMore.

(** ** The reference tables *)

Lemma as_dict_row (t : rows) n lv th v :
  as_dict t !! n = Some lv -> lv !! th = Some v ->
  exists row, (n, row) ∈ t /\ (th, v) ∈ row /\
              (forall th' v', lv !! th' = Some v' -> (th', v') ∈ row).
Proof.
  intros Hn Hv. unfold as_dict in Hn.
  apply elem_of_list_to_map_2 in Hn.
  apply list_elem_of_fmap in Hn as [[n' r] [Heq Hin]].
  cbn in Heq. injection Heq as -> ->.
  exists r. split; [done|]. split.
  - by apply elem_of_list_to_map_2.
  - intros th' v'. apply elem_of_list_to_map_2.
Qed.

Lemma rows_ok_facts (t : rows) n th v th' v' :
  rows_ok t = true ->
  default ∅ (as_dict t !! n) !! th = Some v ->
  default ∅ (as_dict t !! n) !! th' = Some v' ->
  0 < v /\ 1 <= th <= 18 /\ (th <= th' -> v <= v').
Proof.
  intros Hok Hv Hv'.
  destruct (as_dict t !! n) as [lv|] eqn:E; cbn in Hv, Hv';
    [|by rewrite lookup_empty in Hv].
  destruct (as_dict_row t n lv th v E Hv) as (row & Hrow & Hin & Hall).
  specialize (Hall th' v' Hv').
  unfold rows_ok in Hok. rewrite forallb_forall in Hok.
  apply list_elem_of_In in Hrow. specialize (Hok _ Hrow). cbn in Hok.
  unfold row_ok in Hok. rewrite forallb_forall in Hok.
  apply list_elem_of_In in Hin. specialize (Hok _ Hin). cbn in Hok.
  apply andb_prop in Hok as [Hok Hmono].
  apply andb_prop in Hok as [Hok H18]. apply andb_prop in Hok as [Hpos H1].
  rewrite forallb_forall in Hmono.
  apply list_elem_of_In in Hall. specialize (Hmono _ Hall). cbn in Hmono.
  apply Z.ltb_lt in Hpos. apply Z.leb_le in H1, H18.
  split; [done|]. split; [done|]. intros Hle.
  apply orb_prop in Hmono as [Hlt|Hle']; [apply Z.ltb_lt in Hlt; lia|].
  by apply Z.leb_le in Hle'.
Qed.

(** X1: [get_max_level_for_th] knows three item types; every level it
returns is positive, is listed for a town hall between 1 and 18, and does
not decrease when the town hall grows. *)
Theorem max_level_table_facts (item_name item_type : string) (th th' v v' : Z) :
  get_max_level_for_th item_name th item_type = Some v ->
  get_max_level_for_th item_name th' item_type = Some v' ->
  (item_type = "hero" \/ item_type = "troop" \/ item_type = "spell")%string /\
  0 < v /\ 1 <= th <= 18 /\ (th <= th' -> v <= v').
Proof.
  unfold get_max_level_for_th.
  destruct (String.eqb_spec item_type "hero") as [->|Hh].
  { intros H1 H2. split; [by left|].
    by apply (rows_ok_facts hero_rows item_name th v th' v'). }
  destruct (String.eqb_spec item_type "troop") as [->|Ht].
  { intros H1 H2. split; [by right; left|].
    by apply (rows_ok_facts troop_rows item_name th v th' v'). }
  destruct (String.eqb_spec item_type "spell") as [->|Hs].
  { intros H1 H2. split; [by right; right|].
    by apply (rows_ok_facts spell_rows item_name th v th' v'). }
  done.
Qed.

Lemma max_level_table_facts_witness :
  get_max_level_for_th "Barbarian King" 9 "hero" = Some 30 /\
  get_max_level_for_th "Barbarian King" 12 "hero" = Some 65 /\
  (9 <= 12 -> 30 <= 65).
Proof.
  assert (H1 : get_max_level_for_th "Barbarian King" 9 "hero" = Some 30)
    by (vm_compute; reflexivity).
  assert (H2 : get_max_level_for_th "Barbarian King" 12 "hero" = Some 65)
    by (vm_compute; reflexivity).
  split; [exact H1|]. split; [exact H2|].
  exact (proj2 (proj2 (proj2 (max_level_table_facts _ _ _ _ _ _ H1 H2)))).
Defined.


(** ** The deficit lists *)

Lemma loop_appends {D} (body : scan -> asset -> scan) (proj : scan -> list D)
    (g : asset -> option D) :
  (forall st a, proj (body st a) = proj st ++ option_list (g a)) ->
  forall items st, proj (fold_left body items st) = proj st ++ omap g items.
Proof.
  intros Hstep items. induction items as [|a items IH]; intros st; cbn [fold_left omap list_omap].
  - by rewrite app_nil_r.
  - rewrite IH, Hstep. destruct (g a); cbn; by rewrite <- ?app_assoc, ?app_nil_r.
Qed.

Lemma check_hero_lists prev st a :
  let rd := data st in let rd' := data (check_hero prev st a) in
  rushed_heroes rd' = rushed_heroes rd ++ option_list (deficit_of "hero" (prev + 1) a) /\
  rushed_troops rd' = rushed_troops rd /\ rushed_spells rd' = rushed_spells rd.
Proof.
  unfold check_hero, deficit_of. body_cases prev a; by rewrite ?app_nil_r.
Qed.

Lemma check_troop_lists prev st a :
  let rd := data st in let rd' := data (check_troop prev st a) in
  rushed_troops rd' = rushed_troops rd ++ option_list (deficit_of "troop" (prev + 1) a) /\
  rushed_heroes rd' = rushed_heroes rd /\ rushed_spells rd' = rushed_spells rd.
Proof.
  unfold check_troop, deficit_of. body_cases prev a; by rewrite ?app_nil_r.
Qed.

Lemma check_spell_lists prev st a :
  let rd := data st in let rd' := data (check_spell prev st a) in
  rushed_spells rd' = rushed_spells rd ++ option_list (deficit_of "spell" (prev + 1) a) /\
  rushed_heroes rd' = rushed_heroes rd /\ rushed_troops rd' = rushed_troops rd.
Proof.
  unfold check_spell, deficit_of. body_cases prev a; by rewrite ?app_nil_r.
Qed.

Lemma scan_lists p :
  let tier := townHallLevel p in
  let rd := data (scan_spells p) in
  rushed_heroes rd = omap (deficit_of "hero" tier) (heroes p) /\
  rushed_troops rd = omap (deficit_of "troop" tier) (troops p) /\
  rushed_spells rd = omap (deficit_of "spell" tier) (spells p).
Proof.
  intros tier rd. subst rd. unfold scan_spells, scan_troops, scan_heroes, run_loop.
  set (prev := townHallLevel p - 1).
  assert (Etier : tier = prev + 1) by (subst tier prev; lia). rewrite Etier.
  set (s0 := {| data := initial_rush_data; possible := 0; current_sum := 0 |}).
  set (sh := fold_left (check_hero prev) (heroes p) s0).
  set (s1 := {| data := data sh; possible := 0; current_sum := 0 |}).
  set (st := fold_left (check_troop prev) (troops p) s1).
  set (s2 := {| data := data st; possible := 0; current_sum := 0 |}).
  assert (Hh : rushed_heroes (data sh) = omap (deficit_of "hero" (prev + 1)) (heroes p)
               /\ rushed_troops (data sh) = [] /\ rushed_spells (data sh) = []).
  { subst sh. split; [|split].
    - rewrite (loop_appends _ (fun st => rushed_heroes (data st)) _
                 (fun st a => proj1 (check_hero_lists prev st a))). done.
    - rewrite (loop_preserves _ (fun st => rushed_troops (data st))); [done|].
      intros st' a. apply (check_hero_lists prev st' a).
    - rewrite (loop_preserves _ (fun st => rushed_spells (data st))); [done|].
      intros st' a. apply (check_hero_lists prev st' a). }
  destruct Hh as (Hh1 & Hh2 & Hh3).
  assert (Ht : rushed_troops (data st) = omap (deficit_of "troop" (prev + 1)) (troops p)
               /\ rushed_heroes (data st) = rushed_heroes (data sh)
               /\ rushed_spells (data st) = []).
  { subst st. split; [|split].
    - rewrite (loop_appends _ (fun st => rushed_troops (data st)) _
                 (fun st a => proj1 (check_troop_lists prev st a))). cbn. by rewrite Hh2.
    - rewrite (loop_preserves _ (fun st => rushed_heroes (data st))); [done|].
      intros st' a. apply (check_troop_lists prev st' a).
    - rewrite (loop_preserves _ (fun st => rushed_spells (data st))); [done|].
      intros st' a. apply (check_troop_lists prev st' a). }
  destruct Ht as (Ht1 & Ht2 & Ht3).
  split; [|split].
  - rewrite (loop_preserves _ (fun st => rushed_heroes (data st))).
    + cbn. by rewrite Ht2, Hh1.
    + intros st' a. apply (check_spell_lists prev st' a).
  - rewrite (loop_preserves _ (fun st => rushed_troops (data st))).
    + cbn. by rewrite Ht1.
    + intros st' a. apply (check_spell_lists prev st' a).
  - rewrite (loop_appends _ (fun st => rushed_spells (data st)) _
               (fun st a => proj1 (check_spell_lists prev st a))). cbn. by rewrite Ht3.
Qed.

Lemma deficit_missing ty tier a :
  missing <$> deficit_of ty tier a = missing_levels ty tier a.
Proof.
  unfold deficit_of, missing_levels.
  destruct (reference_target ty tier a); [|done]. by destruct (level a <? z).
Qed.

Lemma omap_deficit_missing ty tier items :
  map missing (omap (deficit_of ty tier) items) = omap (missing_levels ty tier) items.
Proof.
  induction items as [|a items IH]; [done|]. cbn [omap list_omap].
  rewrite <- deficit_missing. destruct (deficit_of ty tier a); cbn; by rewrite IH.
Qed.

Lemma status_steps_scores rd :
  hero_score (hero_penalty (determine_status rd)) = hero_score rd.
Proof.
  unfold hero_penalty.
  destruct (total_missing_hero_levels (determine_status rd)) as [h|];
    [destruct (20 <? h)|]; cbn [set_status hero_score];
    unfold determine_status;
    repeat match goal with |- context [if ?b then _ else _] => destruct b end; done.
Qed.

Lemma report_lists p r :
  3 <= townHallLevel p ->
  generate_rush_report p = Some r ->
  rushed_heroes r = omap (deficit_of "hero" (townHallLevel p)) (heroes p) /\
  rushed_troops r = omap (deficit_of "troop" (townHallLevel p)) (troops p) /\
  rushed_spells r = omap (deficit_of "spell" (townHallLevel p)) (spells p).
Proof.
  intros Hth Hr. rewrite generate_rush_report_unfold in Hr by done.
  injection Hr as <-.
  set (rd := set_score_and_percentage _ _ _).
  destruct (hero_penalty_fields (determine_status rd)) as (_ & _ & _ & -> & -> & ->).
  destruct (determine_status_fields rd) as (_ & _ & _ & -> & -> & ->).
  apply (scan_lists p).
Qed.

(** X2: for town hall 3 and above the three deficit lists hold, in the
order of the player's lists, one entry for each home asset below its
reference target, with [missing = target - current > 0]; the report's total
of missing hero levels and its hero score are the sum of [missing] over
[rushed_heroes]. *)
Theorem deficit_lists_content (p : player) :
  3 <= townHallLevel p ->
  exists r,
    generate_rush_report p = Some r /\
    rushed_heroes r = omap (deficit_of "hero" (townHallLevel p)) (heroes p) /\
    rushed_troops r = omap (deficit_of "troop" (townHallLevel p)) (troops p) /\
    rushed_spells r = omap (deficit_of "spell" (townHallLevel p)) (spells p) /\
    (forall d, d ∈ rushed_heroes r ++ rushed_troops r ++ rushed_spells r ->
       current d < target d /\ missing d = target d - current d) /\
    total_missing_hero_levels r = Some (Zsum (map missing (rushed_heroes r))) /\
    hero_score r = Some (PInt (Zsum (map missing (rushed_heroes r)))).
Proof.
  intros Hth. eexists. split; [by apply generate_rush_report_unfold|].
  set (rd := set_score_and_percentage _ _ _).
  destruct (hero_penalty_fields (determine_status rd)) as (_ & _ & Hm1 & -> & -> & ->).
  destruct (determine_status_fields rd) as (_ & _ & Hm2 & -> & -> & ->).
  destruct (scan_lists p) as (Hh & Ht & Hs). cbv zeta in Hh, Ht, Hs.
  subst rd. cbn [rushed_heroes rushed_troops rushed_spells set_score_and_percentage].
  rewrite Hh, Ht, Hs. split; [done|]. split; [done|]. split; [done|]. split; [|split].
  - intros d Hd.
    assert (Hone : forall ty (items : list asset), d ∈ omap (M := list) (deficit_of ty (townHallLevel p)) items ->
               current d < target d /\ missing d = target d - current d).
    { intros ty items Hin. apply list_elem_of_omap in Hin as (a & _ & Ha).
      unfold deficit_of in Ha. destruct (reference_target ty (townHallLevel p) a); [|done].
      destruct (Z.ltb_spec (level a) z); [|done]. injection Ha as <-. cbn. lia. }
    rewrite !elem_of_app in Hd. destruct Hd as [Hd|[Hd|Hd]]; eauto.
  - rewrite Hm1, Hm2. cbn. rewrite omap_deficit_missing.
    by destruct (scan_spells_facts p) as (_ & _ & _ & ? & _).
  - rewrite omap_deficit_missing.
    rewrite status_steps_scores. cbn [set_score_and_percentage hero_score].
    destruct (scan_spells_facts p) as (-> & _). f_equal.
    unfold category_score.
    generalize (omap (missing_levels "hero" (townHallLevel p)) (heroes p)).
    intros l. change (PInt 0) with (PInt (0 + 0)) at 1.
    assert (Hgen : forall acc, fold_left
               (fun (a : pynum) (m : Z) => py_add a (py_mul (PInt m) (weight "hero")))
               l (PInt acc) = PInt (acc + Zsum l)).
    { induction l as [|m l IH]; intros acc; cbn [fold_left].
      - rewrite Zsum_nil. f_equal. lia.
      - rewrite py_mul_one. unfold py_add at 2. rewrite IH, Zsum_cons. f_equal. lia. }
    rewrite Hgen. f_equal.
Qed.

Lemma deficit_lists_content_witness :
  exists r,
    generate_rush_report Examples.low_king = Some r /\
    rushed_heroes r =
      [{| d_name := "Barbarian King"; current := 9; target := 30; missing := 21 |}].
Proof.
  destruct (deficit_lists_content Examples.low_king) as (r & Hr & Hh & _);
    [vm_compute; discriminate|].
  exists r. split; [exact Hr|]. rewrite Hh. reflexivity.
Defined.

(** ** Labels and flag *)

(** X3: a report is returned for every player; its status is one of seven
labels, never the initial "Not Rushed", and [is_rushed] is set exactly for
the four labels from "Moderately Rushed" up. *)
Theorem status_label_matches_flag (p : player) :
  exists r,
    generate_rush_report p = Some r /\
    (status r ∈ calm_labels /\ is_rushed r = false \/
     status r ∈ rushed_labels /\ is_rushed r = true).
Proof.
  destruct (Z_le_gt_dec (townHallLevel p) 2) as [Hlow|Hhigh].
  - exists new_account_report. split.
    + unfold generate_rush_report.
      by destruct (Z.leb_spec (townHallLevel p) 2); [|lia].
    + left. split; [|done]. cbn. unfold calm_labels. set_solver.
  - eexists. split; [apply generate_rush_report_unfold; lia|].
    set (rd := set_score_and_percentage _ _ _). clearbody rd.
    unfold hero_penalty.
    destruct (total_missing_hero_levels (determine_status rd)) as [h|];
      [destruct (20 <? h)|]; cbn [set_status status is_rushed];
      unfold determine_status, calm_labels, rushed_labels;
      repeat match goal with |- context [if ?b then _ else _] => destruct b end;
      cbn [set_status status is_rushed];
      (left; split; [set_solver|done]) || (right; split; [set_solver|done]).
Qed.

(** ** Accounts with nothing missing *)

Lemma at_target_no_missing ty tier items :
  at_target ty tier items = true ->
  omap (M := list) (missing_levels ty tier) items = [].
Proof.
  unfold at_target. induction items as [|a items IH]; [done|].
  cbn [forallb omap list_omap]. intros [Ha Hat]%andb_prop.
  unfold missing_levels at 1.
  destruct (reference_target ty tier a) as [t|]; [|by apply IH].
  apply Z.leb_le in Ha. destruct (Z.ltb_spec (level a) t); [lia|by apply IH].
Qed.

Lemma at_target_no_deficit ty tier items :
  at_target ty tier items = true ->
  omap (M := list) (deficit_of ty tier) items = [].
Proof.
  intros Hat. apply at_target_no_missing in Hat.
  apply (f_equal length) in Hat. rewrite <- omap_deficit_missing, length_map in Hat.
  by apply nil_length_inv.
Qed.

Lemma scan_spells_scores_unset p :
  let rd := data (scan_spells p) in
  is_rushed rd = false /\ status rd = "Not Rushed".
Proof.
  cbv zeta. unfold scan_spells, scan_troops, scan_heroes, run_loop.
  split.
  - rewrite (loop_preserves _ (fun st => is_rushed (data st)));
      [|intros st a; unfold check_spell; body_cases (townHallLevel p - 1) a; done].
    cbn. rewrite (loop_preserves _ (fun st => is_rushed (data st)));
      [|intros st a; unfold check_troop; body_cases (townHallLevel p - 1) a; done].
    cbn. rewrite (loop_preserves _ (fun st => is_rushed (data st)));
      [|intros st a; unfold check_hero; body_cases (townHallLevel p - 1) a; done].
    done.
  - rewrite (loop_preserves _ (fun st => status (data st)));
      [|intros st a; unfold check_spell; body_cases (townHallLevel p - 1) a; done].
    cbn. rewrite (loop_preserves _ (fun st => status (data st)));
      [|intros st a; unfold check_troop; body_cases (townHallLevel p - 1) a; done].
    cbn. rewrite (loop_preserves _ (fun st => status (data st)));
      [|intros st a; unfold check_hero; body_cases (townHallLevel p - 1) a; done].
    done.
Qed.

Lemma maxed_report_when_at_target p :
  3 <= townHallLevel p ->
  at_target "hero" (townHallLevel p) (heroes p) = true ->
  at_target "troop" (townHallLevel p) (troops p) = true ->
  at_target "spell" (townHallLevel p) (spells p) = true ->
  generate_rush_report p = Some (maxed_report (percentage_of p)).
Proof.
  intros Hth Hh Ht Hs.
  rewrite generate_rush_report_unfold by done. f_equal.
  assert (Hscore : weighted_missing_levels p = PInt 0).
  { unfold weighted_missing_levels, category_score.
    by rewrite !at_target_no_missing. }
  rewrite Hscore.
  destruct (scan_spells_facts p) as (Hhs & Hts & Hss & Hm & _).
  destruct (scan_lists p) as (Lh & Lt & Ls).
  destruct (scan_spells_scores_unset p) as (Hr & Hst).
  cbv zeta in *.
  unfold category_score in Hhs, Hts, Hss. unfold hero_levels_missing in Hm.
  rewrite !at_target_no_missing in Hhs, Hts, Hss, Hm by done.
  rewrite !at_target_no_deficit in Lh, Lt, Ls by done.
  cbn in Hhs, Hts, Hss, Hm.
  destruct (data (scan_spells p)) as [r sc pc lh lt ls hs ts ss m stt].
  cbn in *. subst. reflexivity.
Qed.

(** X4: for town hall 3 and above, an account whose home heroes, troops and
spells are all at or above their reference targets gets the "Maxed" report:
score the integer 0, not flagged, no deficit listed, all three category
scores 0; only the percentage depends on the levels. *)
Theorem nothing_missing_is_maxed (p : player) :
  3 <= townHallLevel p ->
  at_target "hero" (townHallLevel p) (heroes p) = true ->
  at_target "troop" (townHallLevel p) (troops p) = true ->
  at_target "spell" (townHallLevel p) (spells p) = true ->
  generate_rush_report p = Some (maxed_report (percentage_of p)).
Proof. apply maxed_report_when_at_target. Qed.

Lemma nothing_missing_is_maxed_witness :
  generate_rush_report
    {| townHallLevel := 10;
       heroes := [Examples.home_asset "Barbarian King" 30;
                  Examples.home_asset "Archer Queen" 31];
       troops := [Examples.home_asset "Barbarian" 7];
       spells := [] |}
  = Some (maxed_report (PFloat (S754_zero false))).
Proof.
  rewrite nothing_missing_is_maxed; [|vm_compute; discriminate|reflexivity..].
  f_equal.
Defined.

Lemma max_level_range n th ty v :
  get_max_level_for_th n th ty = Some v -> 1 <= th <= 18.
Proof.
  unfold get_max_level_for_th. intros H.
  destruct (String.eqb ty "hero");
    [by apply (rows_ok_facts hero_rows n th v th v)|].
  destruct (String.eqb ty "troop");
    [by apply (rows_ok_facts troop_rows n th v th v)|].
  destruct (String.eqb ty "spell");
    [by apply (rows_ok_facts spell_rows n th v th v)|done].
Qed.

Lemma no_target_beyond_tables ty tier a :
  20 <= tier -> reference_target ty tier a = None.
Proof.
  intros Ht. unfold reference_target. destruct (String.eqb (village a) "home"); [|done].
  destruct (get_max_level_for_th (name a) (tier - 1) ty) as [v|] eqn:E; [|done].
  apply max_level_range in E. lia.
Qed.

Lemma no_target_at_target ty tier items :
  20 <= tier -> at_target ty tier items = true.
Proof.
  intros Ht. unfold at_target. apply forallb_forall. intros a _.
  by rewrite no_target_beyond_tables.
Qed.

Lemma no_target_sum ty tier items :
  20 <= tier -> omap (M := list) (reference_target ty tier) items = [].
Proof.
  intros Ht. induction items as [|a items IH]; [done|].
  cbn [omap list_omap]. by rewrite no_target_beyond_tables.
Qed.

(** X5: the tables end at town hall 18, so from town hall 20 on nothing has
a reference target: every account, whatever its levels, gets the "Maxed"
report with score 0 and percentage 0. *)
Theorem town_hall_beyond_tables_is_maxed (p : player) :
  20 <= townHallLevel p ->
  generate_rush_report p = Some (maxed_report (PInt 0)).
Proof.
  intros Hth.
  rewrite maxed_report_when_at_target by (try apply no_target_at_target; lia).
  do 2 f_equal. unfold percentage_of, total_possible.
  by rewrite !no_target_sum.
Qed.

Lemma town_hall_beyond_tables_is_maxed_witness :
  generate_rush_report
    {| townHallLevel := 20;
       heroes := [Examples.home_asset "Barbarian King" 1];
       troops := [Examples.home_asset "Barbarian" 1];
       spells := [] |}
  = Some (maxed_report (PInt 0)).
Proof. apply town_hall_beyond_tables_is_maxed. cbn. lia. Defined.

End RushMoreFacts.

Section RoundingOfDoubles.
Import FloatSpec.

Lemma fexp_eq x : fexp prec emax x = Z.max (x - 53) (-1074).
Proof. reflexivity. Qed.

Lemma digits_bounds m :
  2 ^ (Z.pos (digits2_pos m) - 1) <= Z.pos m < 2 ^ Z.pos (digits2_pos m).
Proof.
  rewrite digits2_pos_log2.
  replace (Z.log2 (Z.pos m) + 1 - 1) with (Z.log2 (Z.pos m)) by lia.
  replace (Z.log2 (Z.pos m) + 1) with (Z.succ (Z.log2 (Z.pos m))) by lia.
  apply Z.log2_spec. lia.
Qed.

Lemma digits_le m k : Z.pos m < 2 ^ k -> Z.pos (digits2_pos m) <= k.
Proof.
  intros H. rewrite digits2_pos_log2.
  destruct (Z.le_gt_cases k 0) as [Hk|Hk].
  - assert (2 ^ k <= 1); [|lia].
    destruct (Z.eq_dec k 0) as [->|]; [done|].
    rewrite Z.pow_neg_r by lia. lia.
  - assert (Z.log2 (Z.pos m) < k); [|lia]. apply Z.log2_lt_pow2; lia.
Qed.

Lemma digits_ge m k : 0 <= k -> 2 ^ k <= Z.pos m -> k + 1 <= Z.pos (digits2_pos m).
Proof.
  intros Hk H. rewrite digits2_pos_log2.
  assert (k <= Z.log2 (Z.pos m)); [|lia]. apply Z.log2_le_pow2; lia.
Qed.

(** The value, in units, of a mantissa and exponent. *)
Lemma expo_of_mantissa m e :
  - unit_exp <= e ->
  expo (Z.pos m * 2 ^ (e + unit_exp)) =
  fexp prec emax (Z.pos (digits2_pos m) + e) + unit_exp.
Proof.
  intros He. unfold expo. rewrite fexp_eq, digits2_pos_log2.
  rewrite Z.log2_mul_pow2 by lia. unfold unit_exp in *. lia.
Qed.


(** Rounding a positive mantissa at an exponent that is not above its
canonical one. *)
Lemma binary_round_aux_spec m e :
  - unit_exp <= e ->
  e <= fexp prec emax (Z.pos (digits2_pos m) + e) ->
  good (binary_round_aux prec emax false (Z.pos m) e loc_Exact) /\
  fval (binary_round_aux prec emax false (Z.pos m) e loc_Exact) =
    rnd (Z.pos m * 2 ^ (e + unit_exp)).
Proof.
  intros He Hn. unfold binary_round_aux, shr_fexp.
  cbn [shr_record_of_loc Zdigits2].
  set (d := Z.pos (digits2_pos m)) in *.
  set (E := fexp prec emax (d + e)) in *.
  pose proof (shr_round m e (E - e) ltac:(lia)) as [He' Hq].
  destruct (shr {| shr_m := Z.pos m; shr_r := false; shr_s := false |} e (E - e))
    as [mrs e'].
  cbn [fst snd] in He', Hq. rewrite Hq. clear Hq mrs.
  assert (e' = E) as -> by lia. clear He'.
  set (n := E - e) in *.
  set (q1 := round_half_even (Z.pos m) (2 ^ n)).
  (* the value and its rounding *)
  assert (HE : E = Z.max (d + e - 53) (-1074)) by (subst E; apply fexp_eq).
  assert (Hpn : 0 < 2 ^ n) by (apply pow2_pos; lia).
  assert (HpK : 0 < 2 ^ (e + unit_exp)) by (apply pow2_pos; lia).
  assert (HpE : 0 < 2 ^ (E + unit_exp)) by (apply pow2_pos; unfold unit_exp; lia).
  assert (Hsplit : 2 ^ (E + unit_exp) = 2 ^ n * 2 ^ (e + unit_exp)).
  { rewrite <- pow2_split by lia. f_equal. lia. }
  assert (Hrnd : rnd (Z.pos m * 2 ^ (e + unit_exp)) =
                 Z.min (q1 * 2 ^ (E + unit_exp)) top).
  { unfold rnd. destruct (Z.leb_spec (Z.pos m * 2 ^ (e + unit_exp)) 0) as [H0|H0]; [nia|].
    rewrite expo_of_mantissa by lia. fold d. fold E.
    rewrite Hsplit at 1. by rewrite round_half_even_scale by lia. }
  rewrite Hrnd. clear Hrnd.
  destruct (digits_bounds m) as [Hdl Hdu]. fold d in Hdl, Hdu.
  assert (Hd1 : 1 <= d) by (subst d; lia).
  pose proof (round_half_even_bounds (Z.pos m) (2 ^ n) Hpn) as [Hql Hqu].
  fold q1 in Hql, Hqu.
  assert (Hq53 : Z.pos m / 2 ^ n < 2 ^ 53).
  { apply Z.div_lt_upper_bound; [lia|]. rewrite <- pow2_split by lia.
    eapply Z.lt_le_trans; [exact Hdu|]. apply pow2_le. lia. }
  assert (Hq0 : 0 <= Z.pos m / 2 ^ n) by (apply Z.div_pos; lia).
  assert (Hnormal : -1074 < E -> 2 ^ 52 <= Z.pos m / 2 ^ n).
  { intros HEn. apply Z.div_le_lower_bound; [lia|]. rewrite <- pow2_split by lia.
    eapply Z.le_trans; [|exact Hdl]. apply pow2_le. lia. }
  destruct q1 as [|p1|p1] eqn:Eq1; [| |lia].
  - (* rounded to zero *)
    assert (Hn2 : fexp prec emax (0 + E) - E <= 0) by (rewrite fexp_eq; lia).
    cbn [Zdigits2].
    destruct (fexp prec emax (0 + E) - E) as [|p|p] eqn:En2; [| lia |]; cbn; split; try done;
      pose proof top_pos; lia.
  - cbn [Zdigits2].
    destruct (Z.eq_dec (Z.pos p1) (2 ^ 53)) as [Hcarry|Hnocarry].
    + (* the mantissa overflowed to 2^53: one more shift *)
      assert (Hd54 : Z.pos (digits2_pos p1) = 54).
      { apply Z.le_antisymm; [apply digits_le|apply (digits_ge p1 53)]; lia. }
      rewrite Hd54, fexp_eq.
      replace (Z.max (54 + E - 53) (-1074) - E) with 1 by lia.
      assert (Hp1 : p1 = 9007199254740992%positive) by lia. subst p1.
      cbn [shr SpecFloat.iter_pos shr_1 shr_m fst snd].
      assert (Hval : 2 ^ 53 * 2 ^ (E + unit_exp) = 2 ^ 52 * 2 ^ (E + 1 + unit_exp)).
      { rewrite <- !pow2_split by (unfold unit_exp; lia). f_equal. lia. }
      assert (Hcmp : 2 ^ 53 * 2 ^ (E + unit_exp) < top <-> E + 1 <= 971).
      { unfold top. rewrite <- pow2_split by (unfold unit_exp; lia). split.
        - intros Hlt. apply Z.pow_lt_mono_r_iff in Hlt; unfold unit_exp in *; lia.
        - intros Hle. apply Z.pow_lt_mono_r; unfold unit_exp; lia. }
      change (emax - prec) with 971.
      destruct (Z.leb_spec (E + 1) 971) as [Hfin|Hinf].
      * split.
        -- split; [done|]. unfold bounded, canonical_mantissa.
           change (Z.pos (digits2_pos 4503599627370496)) with 53.
           rewrite fexp_eq. change (emax - prec) with 971.
           apply andb_true_intro. split; [apply Z.eqb_eq; lia|apply Z.leb_le; lia].
        -- cbn [fval]. change (Z.pos 4503599627370496) with (2 ^ 52).
           change (Z.pos 9007199254740992) with (2 ^ 53).
           rewrite <- Hval. apply proj2 in Hcmp. specialize (Hcmp Hfin). lia.
      * split; [done|]. cbn [fval]. change (Z.pos 9007199254740992) with (2 ^ 53).
        assert (~ 2 ^ 53 * 2 ^ (E + unit_exp) < top) by (rewrite Hcmp; lia). lia.
    + (* no carry: the mantissa has at most 53 digits *)
      assert (Hlt53 : Z.pos p1 < 2 ^ 53) by lia.
      pose proof (digits_le p1 53 Hlt53) as Hd53.
      assert (Hn2 : fexp prec emax (Z.pos (digits2_pos p1) + E) - E <= 0)
        by (rewrite fexp_eq; lia).
      assert (Hshr : shr {| shr_m := Z.pos p1; shr_r := false; shr_s := false |} E
                (fexp prec emax (Z.pos (digits2_pos p1) + E) - E)
              = ({| shr_m := Z.pos p1; shr_r := false; shr_s := false |}, E)).
      { destruct (fexp prec emax (Z.pos (digits2_pos p1) + E) - E); [done|lia|done]. }
      rewrite Hshr. cbn [shr_m].
      change (emax - prec) with 971.
      assert (Hcmp : Z.pos p1 * 2 ^ (E + unit_exp) < top <-> E <= 971).
      { unfold top. split.
        - intros Hlt. destruct (Z.le_gt_cases E 971) as [|Hgt]; [done|].
          exfalso. specialize (Hnormal ltac:(lia)).
          assert (2 ^ (1024 + unit_exp) <= 2 ^ 52 * 2 ^ (E + unit_exp)).
          { rewrite <- pow2_split by (unfold unit_exp; lia).
            apply pow2_le. unfold unit_exp. lia. }
          assert (2 ^ 52 * 2 ^ (E + unit_exp) <= Z.pos p1 * 2 ^ (E + unit_exp))
            by (apply Z.mul_le_mono_nonneg_r; lia).
          lia.
        - intros Hle.
          assert (Z.pos p1 * 2 ^ (E + unit_exp) < 2 ^ 53 * 2 ^ (E + unit_exp))
            by (apply Z.mul_lt_mono_pos_r; lia).
          assert (2 ^ 53 * 2 ^ (E + unit_exp) <= 2 ^ (1024 + unit_exp)).
          { rewrite <- pow2_split by (unfold unit_exp; lia).
            apply pow2_le. unfold unit_exp. lia. }
          lia. }
      destruct (Z.leb_spec E 971) as [Hfin|Hinf].
      * split.
        -- split; [done|]. unfold bounded, canonical_mantissa.
           rewrite fexp_eq. change (emax - prec) with 971.
           apply andb_true_intro. split; [apply Z.eqb_eq|apply Z.leb_le; lia].
           destruct (Z.eq_dec E (-1074)) as [HEmin|HEn]; [lia|].
           specialize (Hnormal ltac:(lia)).
           pose proof (digits_ge p1 52 ltac:(lia) ltac:(lia)). lia.
        -- cbn [fval]. apply proj2 in Hcmp. specialize (Hcmp Hfin). lia.
      * split; [done|]. cbn [fval].
        assert (~ Z.pos p1 * 2 ^ (E + unit_exp) < top) by (rewrite Hcmp; lia). lia.
Qed.


Lemma pos_iter_xO m d : Z.pos (Pos.iter xO m d) = Z.pos m * 2 ^ Z.pos d.
Proof.
  induction d as [|d IH] using Pos.peano_ind.
  - cbn. lia.
  - rewrite Pos.iter_succ, Pos2Z.inj_xO, IH, Pos2Z.inj_succ, Z.pow_succ_r by lia. lia.
Qed.

(** Rounding a positive mantissa at any exponent. *)
Lemma binary_round_spec m e :
  - unit_exp <= e ->
  good (binary_round prec emax false m e) /\
  fval (binary_round prec emax false m e) = rnd (Z.pos m * 2 ^ (e + unit_exp)).
Proof.
  intros He. unfold binary_round, shl_align.
  set (d := Z.pos (digits2_pos m)).
  set (E := fexp prec emax (d + e)).
  assert (HE : E = Z.max (d + e - 53) (-1074)) by (subst E; apply fexp_eq).
  destruct (E - e) as [|p|p] eqn:Ediff.
  - apply binary_round_aux_spec; [done|]. fold d E. lia.
  - apply binary_round_aux_spec; [done|]. fold d E. lia.
  - assert (Hp : Z.pos p = e - E) by lia.
    assert (Hm : Z.pos (Pos.iter xO m p) = Z.pos m * 2 ^ (e - E))
      by (rewrite pos_iter_xO; by rewrite Hp).
    assert (Hd : Z.pos (digits2_pos (Pos.iter xO m p)) = d + (e - E)).
    { rewrite digits2_pos_log2, Hm, Z.log2_mul_pow2 by lia.
      subst d. rewrite digits2_pos_log2. lia. }
    assert (Hv : Z.pos m * 2 ^ (e + unit_exp) =
                 Z.pos (Pos.iter xO m p) * 2 ^ (E + unit_exp)).
    { rewrite Hm, <- Z.mul_assoc, <- pow2_split by (unfold unit_exp; lia).
      f_equal. f_equal. lia. }
    rewrite Hv. apply binary_round_aux_spec; [unfold unit_exp; lia|].
    rewrite Hd. replace (d + (e - E) + E) with (d + e) by lia. fold E. lia.
Qed.

Lemma rnd_zero : rnd 0 = 0.
Proof. reflexivity. Qed.

(** [float(z)] for an integer that is not negative. *)
Lemma float_of_int_spec z :
  0 <= z ->
  good (float_of_int z) /\ fval (float_of_int z) = rnd (z * 2 ^ unit_exp).
Proof.
  intros Hz. unfold float_of_int, binary_normalize.
  destruct z as [|p|p]; [done| |lia].
  replace unit_exp with (0 + unit_exp) at 2 by lia.
  apply binary_round_spec. unfold unit_exp. lia.
Qed.

(** What the canonical form says about a mantissa and its exponent. *)
Lemma bounded_facts m e :
  bounded prec emax m e = true ->
  -1074 <= e <= 971 /\ Z.pos m < 2 ^ 53 /\ (-1074 < e -> 2 ^ 52 <= Z.pos m).
Proof.
  unfold bounded, canonical_mantissa. intros H.
  apply andb_prop in H as [Hc Hb]. apply Z.eqb_eq in Hc. apply Z.leb_le in Hb.
  rewrite fexp_eq in Hc. change (emax - prec) with 971 in Hb.
  destruct (digits_bounds m) as [Hl Hu].
  set (d := Z.pos (digits2_pos m)) in *.
  assert (1 <= d) by (subst d; lia).
  split; [lia|]. split.
  - eapply Z.lt_le_trans; [exact Hu|]. apply pow2_le. lia.
  - intros Hn. eapply Z.le_trans; [|exact Hl]. apply pow2_le. lia.
Qed.

Lemma fval_range f : good f -> 0 <= fval f <= top.
Proof.
  pose proof top_pos.
  destruct f as [s|s| |s m e]; cbn; try (intros ->; cbn; lia); [done|].
  intros [-> Hb]. apply bounded_facts in Hb as (He & Hm & _).
  assert (0 < 2 ^ (e + unit_exp)) by (apply pow2_pos; unfold unit_exp; lia).
  split; [lia|].
  assert (Z.pos m * 2 ^ (e + unit_exp) <= 2 ^ 53 * 2 ^ (e + unit_exp))
    by (apply Z.mul_le_mono_nonneg_r; lia).
  assert (2 ^ 53 * 2 ^ (e + unit_exp) <= top).
  { unfold top. rewrite <- pow2_split by (unfold unit_exp; lia).
    apply pow2_le. unfold unit_exp. lia. }
  lia.
Qed.

Lemma fval_finite_lt_top m e :
  bounded prec emax m e = true -> 0 < Z.pos m * 2 ^ (e + unit_exp) < top.
Proof.
  intros Hb. apply bounded_facts in Hb as (He & Hm & _).
  assert (0 < 2 ^ (e + unit_exp)) by (apply pow2_pos; unfold unit_exp; lia).
  split; [lia|].
  assert (Z.pos m * 2 ^ (e + unit_exp) < 2 ^ 53 * 2 ^ (e + unit_exp))
    by (apply Z.mul_lt_mono_pos_r; lia).
  assert (2 ^ 53 * 2 ^ (e + unit_exp) <= top).
  { unfold top. rewrite <- pow2_split by (unfold unit_exp; lia).
    apply pow2_le. unfold unit_exp. lia. }
  lia.
Qed.

End RoundingOfDoubles.

Section ArithmeticOfDoubles.
Import FloatSpec.


(** A double is its own rounding. *)
Lemma rnd_fval f : good f -> rnd (fval f) = fval f.
Proof.
  destruct f as [s|s| |s m e]; cbn [good fval].
  - intros ->. apply rnd_zero.
  - intros ->. apply rnd_top.
  - intros [].
  - intros [-> Hb]. pose proof (fval_finite_lt_top m e Hb).
    apply bounded_facts in Hb as (He & Hm & _).
    apply rnd_representable; unfold unit_exp in *; lia.
Qed.


Lemma shl_align_value m e e' :
  e' <= e -> - unit_exp <= e' ->
  Z.pos (shl_align m e e').1 * 2 ^ (e' + unit_exp) = Z.pos m * 2 ^ (e + unit_exp).
Proof.
  intros Hle He'. unfold shl_align.
  destruct (e' - e) as [|p|p] eqn:Ediff; cbn [fst].
  - by replace e' with e by lia.
  - lia.
  - rewrite pos_iter_xO. assert (Hp : Z.pos p = e - e') by lia. rewrite Hp.
    rewrite <- Z.mul_assoc, <- pow2_split by lia. f_equal. f_equal. lia.
Qed.

(** The sum of two doubles is the rounding of the exact sum. *)
Lemma fadd_spec f g :
  good f -> good g ->
  good (fadd f g) /\ fval (fadd f g) = rnd (fval f + fval g).
Proof.
  intros Hf Hg. pose proof (fval_range g Hg) as Hrg.
  pose proof (fval_range f Hf) as Hrf.
  pose proof (rnd_fval f Hf) as Hff. pose proof (rnd_fval g Hg) as Hgg.
  destruct f as [sf|sf| |sf mf ef]; cbn [good] in Hf;
    [subst sf|subst sf|destruct Hf|destruct Hf as [-> Hbf]].
  - (* +0 + g *)
    destruct g as [sg|sg| |sg mg eg]; cbn [good] in Hg;
      [subst sg|subst sg|destruct Hg|destruct Hg as [-> Hbg]].
    + cbn [fadd SFadd fval]. split; [reflexivity|]. symmetry. apply rnd_zero.
    + cbn [fadd SFadd]. split; [reflexivity|]. cbn [fval] in *.
      rewrite Z.add_0_l. symmetry. exact Hgg.
    + cbn [fadd SFadd]. split; [split; [reflexivity|exact Hbg]|]. cbn [fval] in *.
      rewrite Z.add_0_l. symmetry. exact Hgg.
  - (* +inf + g *)
    assert (Hinf : fadd (S754_infinity false) g = S754_infinity false).
    { destruct g as [sg|sg| |sg mg eg]; cbn [good] in Hg;
        [reflexivity|subst sg; reflexivity|destruct Hg|reflexivity]. }
    rewrite Hinf. split; [reflexivity|]. cbn [fval] in *.
    symmetry. apply rnd_above_top. lia.
  - destruct g as [sg|sg| |sg mg eg]; cbn [good] in Hg;
      [subst sg|subst sg|destruct Hg|destruct Hg as [-> Hbg]].
    + cbn [fadd SFadd]. split; [split; [reflexivity|exact Hbf]|]. cbn [fval] in *.
      rewrite Z.add_0_r. symmetry. exact Hff.
    + cbn [fadd SFadd]. split; [reflexivity|]. cbn [fval] in *.
      symmetry. apply rnd_above_top. lia.
    + pose proof (bounded_facts _ _ Hbf) as (Hef & _).
      pose proof (bounded_facts _ _ Hbg) as (Heg & _).
      unfold fadd, SFadd. cbn [cond_Zopp].
      set (ez := Z.min ef eg).
      pose proof (shl_align_value mf ef ez ltac:(lia) ltac:(unfold unit_exp; lia)) as Hvf.
      pose proof (shl_align_value mg eg ez ltac:(lia) ltac:(unfold unit_exp; lia)) as Hvg.
      cbn [fval]. rewrite <- Hvf, <- Hvg, <- Z.mul_add_distr_r.
      change (Z.pos (shl_align mf ef ez).1 + Z.pos (shl_align mg eg ez).1)
        with (Z.pos ((shl_align mf ef ez).1 + (shl_align mg eg ez).1)).
      cbn [binary_normalize]. apply binary_round_spec. unfold unit_exp. lia.
Qed.

(** Comparing two doubles is comparing their values. *)
Lemma SFcompare_spec f g :
  good f -> good g -> SFcompare f g = Some (fval f ?= fval g).
Proof.
  intros Hf Hg. pose proof top_pos as Htop.
  destruct f as [sf|sf| |sf mf ef]; cbn [good] in Hf;
    [subst sf|subst sf|destruct Hf|destruct Hf as [-> Hbf]];
  (destruct g as [sg|sg| |sg mg eg]; cbn [good] in Hg;
    [subst sg|subst sg|destruct Hg|destruct Hg as [-> Hbg]]);
  cbn [SFcompare fval]; apply (f_equal Some).
  - by rewrite Z.compare_refl.
  - symmetry. apply Z.compare_lt_iff. lia.
  - symmetry. apply Z.compare_lt_iff. pose proof (fval_finite_lt_top _ _ Hbg). lia.
  - symmetry. apply Z.compare_gt_iff. lia.
  - by rewrite Z.compare_refl.
  - symmetry. apply Z.compare_gt_iff. pose proof (fval_finite_lt_top _ _ Hbg). lia.
  - symmetry. apply Z.compare_gt_iff. pose proof (fval_finite_lt_top _ _ Hbf). lia.
  - symmetry. apply Z.compare_lt_iff. pose proof (fval_finite_lt_top _ _ Hbf). lia.
  - pose proof (bounded_facts _ _ Hbf) as (Hef & Hmf & Hnf).
    pose proof (bounded_facts _ _ Hbg) as (Heg & Hmg & Hng).
    assert (Hstep : forall m1 e1 m2 e2,
              -1074 <= e1 -> e1 < e2 -> Z.pos m1 < 2 ^ 53 -> 2 ^ 52 <= Z.pos m2 ->
              Z.pos m1 * 2 ^ (e1 + unit_exp) < Z.pos m2 * 2 ^ (e2 + unit_exp)).
    { intros m1 e1 m2 e2 H1 H2 H3 H4.
      assert (0 < 2 ^ (e1 + unit_exp)) by (apply pow2_pos; unfold unit_exp; lia).
      assert (0 < 2 ^ (e2 + unit_exp)) by (apply pow2_pos; unfold unit_exp; lia).
      assert (Z.pos m1 * 2 ^ (e1 + unit_exp) < 2 ^ 53 * 2 ^ (e1 + unit_exp))
        by (apply Z.mul_lt_mono_pos_r; lia).
      assert (2 ^ 52 * 2 ^ (e2 + unit_exp) <= Z.pos m2 * 2 ^ (e2 + unit_exp))
        by (apply Z.mul_le_mono_nonneg_r; lia).
      assert (2 ^ 53 * 2 ^ (e1 + unit_exp) <= 2 ^ 52 * 2 ^ (e2 + unit_exp)).
      { rewrite <- !pow2_split by (unfold unit_exp; lia). apply pow2_le.
        unfold unit_exp. lia. }
      lia. }
    destruct (Z.compare_spec ef eg) as [Heq|Hlt|Hgt].
    + subst eg. change (Pos.compare_cont Eq mf mg) with (Z.pos mf ?= Z.pos mg).
      assert (0 < 2 ^ (ef + unit_exp)) by (apply pow2_pos; unfold unit_exp; lia).
      destruct (Z.compare_spec (Z.pos mf) (Z.pos mg)); symmetry;
        [apply Z.compare_eq_iff|apply Z.compare_lt_iff|apply Z.compare_gt_iff]; nia.
    + symmetry. apply Z.compare_lt_iff. apply Hstep; lia.
    + symmetry. apply Z.compare_gt_iff. apply Hstep; lia.
Qed.

(** Comparing a double with an integer is comparing their values, the
infinity being above every integer. *)
Lemma float_cmp_int_spec f z :
  good f -> f <> S754_infinity false ->
  float_cmp_int f z = Some (fval f ?= z * 2 ^ unit_exp).
Proof.
  intros Hf Hninf.
  assert (HK : 0 < 2 ^ unit_exp) by (apply pow2_pos; unfold unit_exp; lia).
  assert (Hscale : forall a b, (a ?= b) = (a * 2 ^ unit_exp ?= b * 2 ^ unit_exp)).
  { intros a b. destruct (Z.compare_spec a b); symmetry;
      [apply Z.compare_eq_iff|apply Z.compare_lt_iff|apply Z.compare_gt_iff]; nia. }
  destruct f as [sf|sf| |sf mf ef]; cbn [good] in Hf;
    [subst sf|subst sf; congruence|destruct Hf|destruct Hf as [-> Hbf]].
  - unfold float_cmp_int. cbn [fval]. f_equal. rewrite (Hscale 0 z). reflexivity.
  - pose proof (bounded_facts _ _ Hbf) as (Hef & _).
    unfold float_cmp_int. cbn [cond_Zopp fval]. f_equal.
    destruct ef as [|p|p].
    + rewrite Z.pow_0_r, Z.mul_1_r. apply Hscale.
    + rewrite (Hscale (Z.pos mf * 2 ^ Z.pos p) z).
      rewrite <- Z.mul_assoc, <- pow2_split by (unfold unit_exp; lia). reflexivity.
    + assert (Hp : 2 ^ unit_exp = 2 ^ Z.pos p * 2 ^ (Z.neg p + unit_exp)).
      { rewrite <- pow2_split by (unfold unit_exp; lia). f_equal. lia. }
      assert (0 < 2 ^ (Z.neg p + unit_exp)) by (apply pow2_pos; unfold unit_exp; lia).
      rewrite Hp, Z.mul_assoc.
      destruct (Z.compare_spec (Z.pos mf) (z * 2 ^ Z.pos p)); symmetry;
        [apply Z.compare_eq_iff|apply Z.compare_lt_iff|apply Z.compare_gt_iff]; nia.
Qed.


(** Multiplying a double by one of the two weights, a 53-digit mantissa at
exponent -54. *)
Lemma fmul_weight_spec (ml : positive) f :
  2 ^ 52 <= Z.pos ml < 2 ^ 53 ->
  good f ->
  good (fmul f (S754_finite false ml (-54))) /\
  fval (fmul f (S754_finite false ml (-54))) =
    if fval f <? top then rnd (fval f * Z.pos ml / 2 ^ 54) else top.
Proof.
  intros Hml Hf. pose proof top_pos as Htop.
  destruct f as [sf|sf| |sf mf ef]; cbn [good] in Hf;
    [subst sf|subst sf|destruct Hf|destruct Hf as [-> Hbf]].
  - cbn [fmul SFmul xorb fval]. split; [reflexivity|].
    destruct (Z.ltb_spec 0 top); [|lia]. symmetry. apply rnd_zero.
  - cbn [fmul SFmul xorb fval]. split; [reflexivity|].
    destruct (Z.ltb_spec top top); [lia|reflexivity].
  - pose proof (fval_finite_lt_top _ _ Hbf) as Hlt.
    pose proof (bounded_facts _ _ Hbf) as (Hef & Hmf & Hnf).
    unfold fmul, SFmul. cbn [xorb fval].
    destruct (Z.ltb_spec (Z.pos mf * 2 ^ (ef + unit_exp)) top) as [_|]; [|lia].
    assert (Hval : Z.pos mf * 2 ^ (ef + unit_exp) * Z.pos ml / 2 ^ 54 =
                   Z.pos (mf * ml) * 2 ^ (ef + -54 + unit_exp)).
    { assert (Hs : 2 ^ (ef + unit_exp) = 2 ^ (ef + -54 + unit_exp) * 2 ^ 54).
      { rewrite <- pow2_split by (unfold unit_exp; lia). f_equal. lia. }
      rewrite Hs, Pos2Z.inj_mul.
      replace (Z.pos mf * (2 ^ (ef + -54 + unit_exp) * 2 ^ 54) * Z.pos ml)
        with (Z.pos mf * Z.pos ml * 2 ^ (ef + -54 + unit_exp) * 2 ^ 54) by lia.
      apply Z.div_mul. lia. }
    rewrite Hval. apply binary_round_aux_spec; [unfold unit_exp; lia|].
    rewrite fexp_eq.
    destruct (Z.eq_dec ef (-1074)) as [->|Hne]; [lia|].
    specialize (Hnf ltac:(lia)).
    assert (2 ^ 104 <= Z.pos (mf * ml)).
    { rewrite Pos2Z.inj_mul. change (2 ^ 104) with (2 ^ 52 * 2 ^ 52). nia. }
    pose proof (digits_ge (mf * ml) 104 ltac:(lia) ltac:(lia)). lia.
Qed.

Lemma fmul_weight_mono (ml : positive) f f' :
  2 ^ 52 <= Z.pos ml < 2 ^ 53 ->
  good f -> good f' -> fval f <= fval f' ->
  fval (fmul f (S754_finite false ml (-54))) <=
  fval (fmul f' (S754_finite false ml (-54))).
Proof.
  intros Hml Hf Hf' Hle.
  destruct (fmul_weight_spec ml f Hml Hf) as [Hg ->].
  destruct (fmul_weight_spec ml f' Hml Hf') as [Hg' ->].
  pose proof (fval_range f Hf). pose proof (fval_range f' Hf').
  destruct (Z.ltb_spec (fval f') top) as [Hlt|Hge].
  - destruct (Z.ltb_spec (fval f) top); [|lia].
    apply rnd_mono. apply Z.div_le_mono; [lia|].
    apply Z.mul_le_mono_nonneg_r; lia.
  - destruct (Z.ltb_spec (fval f) top); [apply rnd_le_top|lia].
Qed.


End ArithmeticOfDoubles.

(** * Order and arithmetic of the scores *)

Section NumFacts.
Import FloatSpec NumSpec.

Lemma unit_pos : 0 < 2 ^ unit_exp.
Proof. apply pow2_pos. unfold unit_exp. lia. Qed.

Lemma good_zero : good (S754_zero false).
Proof. reflexivity. Qed.

Lemma val_nonneg a : good_num a -> 0 <= val a.
Proof.
  destruct a as [z|f]; cbn [good_num val]; intros H.
  - pose proof unit_pos. nia.
  - by apply fval_range.
Qed.

(** Taking a number to double rounds its value. *)
Lemma to_float_spec a :
  good_num a -> good (to_float a) /\ fval (to_float a) = rnd (val a).
Proof.
  destruct a as [z|f]; cbn [good_num to_float val]; intros H.
  - by apply float_of_int_spec.
  - split; [done|]. symmetry. by apply rnd_fval.
Qed.

Lemma small_exact a : good_num a -> small a -> rnd (val a) = val a.
Proof.
  destruct a as [z|f]; cbn [good_num small val]; intros H Hs.
  - apply rnd_representable; [lia|unfold unit_exp; lia|].
    unfold top. rewrite (pow2_split 1024 unit_exp) by (unfold unit_exp; lia).
    pose proof unit_pos. apply Z.mul_le_mono_nonneg_r; [lia|].
    transitivity (2 ^ 53); [lia|]. apply pow2_le. lia.
  - by apply rnd_fval.
Qed.

Lemma is_inf_top f :
  good f -> (is_inf (PFloat f) = true <-> fval f = top) /\
            (is_inf (PFloat f) = false <-> fval f < top).
Proof.
  pose proof top_pos as Htop.
  destruct f as [s|s| |s m e]; cbn [good is_inf fval].
  - intros _. split; split; intros ?; first [done|lia|exfalso; lia].
  - intros ->. split; split; intros ?; first [lia|exfalso; lia|reflexivity].
  - intros [].
  - intros [-> Hb]. pose proof (fval_finite_lt_top _ _ Hb).
    split; split; intros ?; first [done|lia|exfalso; lia].
Qed.

Lemma num_le_floats f g : num_le (PFloat f) (PFloat g) <-> fval f <= fval g.
Proof. unfold num_le. cbn [val]. by destruct f. Qed.

Lemma num_le_alt a b :
  good_num a -> good_num b ->
  num_le a b <-> is_inf b = true \/ (is_inf a = false /\ val a <= val b).
Proof.
  intros Ha Hb. pose proof top_pos as Htop.
  destruct a as [x|f], b as [y|g]; cbn [good_num] in *.
  - cbn [num_le is_inf val]. split; [intros; right; done|intros [|[]]; done].
  - destruct g as [s|s| |s m e]; cbn [good] in Hb; cbn [num_le is_inf val].
    + split; [intros; right; done|intros [|[]]; done].
    + split; [by left|done].
    + destruct Hb.
    + split; [intros; right; done|intros [|[]]; done].
  - destruct f as [s|s| |s m e]; cbn [good] in Ha; cbn [num_le is_inf val].
    + split; [intros; right; done|intros [|[]]; done].
    + split; [done|intros [|[]]; done].
    + destruct Ha.
    + split; [intros; right; done|intros [|[]]; done].
  - rewrite num_le_floats. cbn [val].
    pose proof (fval_range f Ha). pose proof (fval_range g Hb).
    destruct (is_inf_top f Ha) as [Hf1 Hf2]. destruct (is_inf_top g Hb) as [Hg1 Hg2].
    rewrite Hg1, Hf2. lia.
Qed.

Lemma num_le_refl a : good_num a -> num_le a a.
Proof.
  destruct a as [z|f]; cbn [num_le val good_num]; [lia|].
  destruct f; cbn [fval]; lia.
Qed.



Lemma py_compare_spec a b :
  good_num a -> good_num b -> py_compare a b = Some (num_cmp a b).
Proof.
  intros Ha Hb. pose proof unit_pos as HK.
  destruct a as [x|f], b as [y|g]; cbn [py_compare num_cmp val good_num] in *.
  - f_equal. destruct (Z.compare_spec x y); symmetry;
      [apply Z.compare_eq_iff|apply Z.compare_lt_iff|apply Z.compare_gt_iff]; nia.
  - destruct g as [s|s| |s m e] eqn:Eg.
    + rewrite float_cmp_int_spec by done. cbn [option_map]. f_equal.
      symmetry. apply Z.compare_antisym.
    + cbn [good] in Hb. subst s. reflexivity.
    + destruct Hb.
    + rewrite float_cmp_int_spec by done. cbn [option_map]. f_equal.
      symmetry. apply Z.compare_antisym.
  - destruct f as [s|s| |s m e] eqn:Ef.
    + by rewrite float_cmp_int_spec.
    + cbn [good] in Ha. subst s. reflexivity.
    + destruct Ha.
    + by rewrite float_cmp_int_spec.
  - rewrite SFcompare_spec by done. destruct f; reflexivity.
Qed.

Lemma num_cmp_le a b : num_le a b <-> num_cmp a b <> Gt.
Proof.
  unfold num_le, num_cmp.
  destruct a as [x|f], b as [y|g].
  - apply Z.compare_le_iff.
  - destruct g; try apply Z.compare_le_iff. done.
  - destruct f; try apply Z.compare_le_iff. split; [done|congruence].
  - destruct f; apply Z.compare_le_iff.
Qed.

Lemma py_le_spec a b :
  good_num a -> good_num b -> py_le a b = true <-> num_le a b.
Proof.
  intros Ha Hb. unfold py_le. rewrite py_compare_spec, num_cmp_le by done.
  destruct (num_cmp a b); split; congruence.
Qed.

Lemma py_lt_spec a b :
  good_num a -> good_num b -> py_lt a b = true <-> ~ num_le b a.
Proof.
  intros Ha Hb. unfold py_lt. rewrite py_compare_spec by done.
  rewrite num_cmp_le.
  assert (Hanti : num_cmp b a = CompOpp (num_cmp a b)).
  { unfold num_cmp. destruct a as [x|f], b as [y|g].
    - apply Z.compare_antisym.
    - destruct g; try apply Z.compare_antisym. done.
    - destruct f; try apply Z.compare_antisym. done.
    - destruct f, g; apply Z.compare_antisym. }
  rewrite Hanti. destruct (num_cmp a b); cbn [CompOpp]; split; intros H;
    first [done|congruence|exfalso; apply H; congruence].
Qed.

End NumFacts.

Section ScoreArithmetic.
Import FloatSpec NumSpec.

Lemma rnd_idem v : rnd (rnd v) = rnd v.
Proof.
  assert (Hr : rnd v = 0 \/
               (exists q e, rnd v = q * 2 ^ e /\ 0 <= q <= 2 ^ 53 /\ 1074 <= e /\
                            q * 2 ^ e <= top) \/ rnd v = top).
  { unfold rnd. destruct (Z.leb_spec v 0) as [|Hgt]; [by left|right].
    pose proof (expo_ge v) as He.
    pose proof (pow2_pos (expo v) ltac:(lia)) as Hp.
    destruct (Z.min_spec (round_half_even v (2 ^ expo v) * 2 ^ expo v) top)
      as [[Hlt ->]|[Hge ->]]; [left|by right].
    exists (round_half_even v (2 ^ expo v)), (expo v).
    pose proof (round_half_even_bounds v (2 ^ expo v) Hp) as Hb.
    assert (0 <= v / 2 ^ expo v) by (apply Z.div_pos; lia).
    assert (v / 2 ^ expo v < 2 ^ 53); [|repeat split; lia].
    apply Z.div_lt_upper_bound; [lia|].
    rewrite <- pow2_split by lia. by apply below_pow2. }
  destruct Hr as [->|[(q & e & -> & Hq & He & Htop)| ->]].
  - apply rnd_zero.
  - by apply rnd_representable.
  - apply rnd_top.
Qed.

Lemma lift_mono a b :
  good_num a -> good_num b -> num_le a b -> rnd (val a) <= rnd (val b).
Proof.
  intros Ha Hb. rewrite num_le_alt by done. intros [Hi|[_ Hle]].
  - destruct b as [y|g]; [done|]. cbn [good_num val] in *.
    apply (is_inf_top g Hb) in Hi. rewrite Hi, rnd_top. apply rnd_le_top.
  - by apply rnd_mono.
Qed.

Lemma py_add_ints x y : py_add (PInt x) (PInt y) = PInt (x + y).
Proof. reflexivity. Qed.

Lemma py_add_float a b :
  is_float a = true \/ is_float b = true ->
  py_add a b = PFloat (fadd (to_float a) (to_float b)).
Proof. destruct a, b; cbn [is_float]; intros [|]; done. Qed.

Lemma fadd_lift a b :
  good_num a -> good_num b ->
  good (fadd (to_float a) (to_float b)) /\
  fval (fadd (to_float a) (to_float b)) = rnd (rnd (val a) + rnd (val b)).
Proof.
  intros Ha Hb.
  destruct (to_float_spec a Ha) as [Ga Ea]. destruct (to_float_spec b Hb) as [Gb Eb].
  destruct (fadd_spec _ _ Ga Gb) as [G E]. split; [done|]. by rewrite E, Ea, Eb.
Qed.

Lemma py_add_good a b : good_num a -> good_num b -> good_num (py_add a b).
Proof.
  intros Ha Hb. destruct a as [x|f], b as [y|g];
    [cbn [good_num] in *; rewrite py_add_ints; cbn; lia|..];
    rewrite py_add_float by (cbn; tauto); cbn [good_num];
    by apply fadd_lift.
Qed.

(** A value below a double is below it in the order of Python. *)
Lemma num_le_float a F :
  good_num a -> good F -> val a <= fval F -> num_le a (PFloat F).
Proof.
  intros Ha HF Hle. apply num_le_alt; [done..|].
  destruct (is_inf (PFloat F)) eqn:EF; [by left|right]. split; [|done].
  destruct a as [x|f]; [done|]. cbn [good_num val] in *.
  apply (is_inf_top f Ha). apply (is_inf_top F HF) in EF. lia.
Qed.

Lemma below_refl a : good_num a -> small a -> below a a.
Proof. intros Ha Hs. repeat split; try done. by apply num_le_refl. Qed.

Lemma py_add_below a a' b b' :
  below a a' -> below b b' ->
  (forall x y, a = PInt x -> b = PInt y -> x + y <= 2 ^ 53) ->
  below (py_add a b) (py_add a' b').
Proof.
  intros (Ha & Ha' & Sa & La & Fa) (Hb & Hb' & Sb & Lb & Fb) Hsum.
  pose proof (lift_mono a a' Ha Ha' La) as Ma.
  pose proof (lift_mono b b' Hb Hb' Lb) as Mb.
  pose proof (small_exact a Ha Sa) as Ea. pose proof (small_exact b Hb Sb) as Eb.
  assert (Good : good_num (py_add a b)) by by apply py_add_good.
  assert (Good' : good_num (py_add a' b')) by by apply py_add_good.
  split; [done|]. split; [done|].
  destruct (is_float a || is_float b) eqn:Efl.
  - (* the left sum is a double *)
    assert (Hl : is_float a = true \/ is_float b = true) by by apply orb_prop.
    assert (Hr : is_float a' = true \/ is_float b' = true) by tauto.
    rewrite (py_add_float a b Hl), (py_add_float a' b' Hr).
    destruct (fadd_lift a b Ha Hb) as [G E].
    destruct (fadd_lift a' b' Ha' Hb') as [G' E'].
    split; [done|]. split; [|done].
    apply num_le_floats. rewrite E, E'. apply rnd_mono. lia.
  - apply orb_false_elim in Efl as [Eaf Ebf].
    destruct a as [x|]; [|done]. destruct b as [y|]; [|done].
    rewrite py_add_ints. specialize (Hsum x y eq_refl eq_refl).
    cbn [good_num] in Ha, Hb.
    assert (Hex : rnd (val (PInt (x + y))) = val (PInt (x + y))).
    { apply small_exact; cbn; lia. }
    assert (Hval : val (PInt (x + y)) = val (PInt x) + val (PInt y)) by (cbn; lia).
    split; [cbn; lia|]. split; [|done].
    destruct (is_float a' || is_float b') eqn:Efl'.
    + assert (Hr : is_float a' = true \/ is_float b' = true) by by apply orb_prop.
      rewrite (py_add_float a' b' Hr).
      destruct (fadd_lift a' b' Ha' Hb') as [G' E'].
      apply num_le_float; [cbn; lia|done|].
      rewrite E', <- Hex, Hval. apply rnd_mono. lia.
    + apply orb_false_elim in Efl' as [Eaf' Ebf'].
      destruct a' as [x'|]; [|done]. destruct b' as [y'|]; [|done].
      rewrite py_add_ints. cbn [num_le val] in *. pose proof unit_pos. nia.
Qed.

(** Adding a number never takes a sum below what was there. *)
Lemma py_add_above a a' t :
  below a a' -> good_num t -> is_float t = true -> below a (py_add a' t).
Proof.
  intros (Ha & Ha' & Sa & La & Fa) Ht Hft.
  rewrite (py_add_float a' t) by by right.
  destruct (fadd_lift a' t Ha' Ht) as [G E].
  split; [done|]. split; [done|]. split; [done|]. split; [|done].
  apply num_le_float; [done..|]. rewrite E.
  pose proof (small_exact a Ha Sa) as Ea.
  pose proof (lift_mono a a' Ha Ha' La) as Ma.
  pose proof (rnd_nonneg (val t)) as Hnn.
  pose proof (rnd_mono (rnd (val a')) (rnd (val a') + rnd (val t)) ltac:(lia)) as Hm.
  rewrite rnd_idem in Hm. lia.
Qed.

(** ** Weighted terms *)

Lemma lit_0_3_weight : is_weight lit_0_3.
Proof. eexists. split; [reflexivity|lia]. Qed.

Lemma lit_0_4_weight : is_weight lit_0_4.
Proof. eexists. split; [reflexivity|lia]. Qed.

Lemma rnd_pow2 k : 1074 <= k <= 1024 + unit_exp -> rnd (2 ^ k) = 2 ^ k.
Proof.
  intros Hk. pose proof (rnd_representable 1 k ltac:(lia) ltac:(lia)) as H.
  rewrite Z.mul_1_l in H. apply H. unfold top. apply pow2_le. lia.
Qed.

Lemma term_spec w m :
  is_weight w -> 0 <= m ->
  exists F, py_mul (PInt m) (PFloat w) = PFloat F /\ good F /\
            (0 < m -> 0 < fval F).
Proof.
  intros (ml & -> & Hml) Hm.
  exists (fmul (float_of_int m) (S754_finite false ml (-54))). split; [reflexivity|].
  destruct (float_of_int_spec m Hm) as [G E].
  destruct (fmul_weight_spec ml _ Hml G) as [G' E']. split; [exact G'|].
  intros Hpos. rewrite E'. pose proof top_pos as Htop.
  destruct (Z.ltb_spec (fval (float_of_int m)) top); [|lia].
  pose proof unit_pos as HK.
  assert (Hone : 2 ^ unit_exp <= fval (float_of_int m)).
  { pose proof (rnd_mono (2 ^ unit_exp) (m * 2 ^ unit_exp) ltac:(nia)) as H1.
    rewrite rnd_pow2 in H1 by (unfold unit_exp; lia). by rewrite E. }
  assert (Hsplit : 2 ^ unit_exp = 2 ^ 2146 * 2 ^ 2).
  { rewrite <- pow2_split by lia. reflexivity. }
  assert (Hq : 2 ^ 2146 <= fval (float_of_int m) * Z.pos ml / 2 ^ 54).
  { apply Z.div_le_lower_bound; [lia|].
    pose proof (pow2_pos 2146 ltac:(lia)) as Hp.
    assert (2 ^ 54 * 2 ^ 2146 <= 2 ^ unit_exp * 2 ^ 52).
    { rewrite Hsplit. change (2 ^ 54) with (2 ^ 2 * 2 ^ 52). lia. }
    assert (2 ^ unit_exp * 2 ^ 52 <= fval (float_of_int m) * Z.pos ml).
    { apply Z.mul_le_mono_nonneg; lia. }
    lia. }
  pose proof (rnd_mono _ _ Hq) as Hm'.
  rewrite rnd_pow2 in Hm' by (unfold unit_exp; lia).
  pose proof (pow2_pos 2146 ltac:(lia)). lia.
Qed.

Lemma term_mono w m m' :
  is_weight w -> 0 <= m <= m' ->
  below (py_mul (PInt m) (PFloat w)) (py_mul (PInt m') (PFloat w)).
Proof.
  intros Hw Hm. pose proof Hw as (ml & Ew & Hml).
  destruct (term_spec w m Hw ltac:(lia)) as (F & EF & GF & _).
  destruct (term_spec w m' Hw ltac:(lia)) as (F' & EF' & GF' & _).
  rewrite EF, EF'. repeat split; try done.
  apply num_le_floats.
  assert (F = fmul (float_of_int m) w) by (unfold py_mul in EF; cbn in EF; congruence).
  assert (F' = fmul (float_of_int m') w) by (unfold py_mul in EF'; cbn in EF'; congruence).
  subst F F' w.
  destruct (float_of_int_spec m ltac:(lia)) as [G E].
  destruct (float_of_int_spec m' ltac:(lia)) as [G' E'].
  apply fmul_weight_mono; [done..|]. rewrite E, E'. apply rnd_mono.
  pose proof unit_pos. nia.
Qed.

End ScoreArithmetic.

(** * Sign and monotonicity of the rush score *)

Section ScoreOrder.
Import Tables Rush RushSpec RushMore FloatSpec NumSpec ScoreSpec.

Lemma lift_pos a : good_num a -> 0 < rnd (val a) <-> 0 < val a.
Proof.
  intros Ha. destruct a as [x|f]; cbn [good_num val] in *.
  - pose proof unit_pos as HK. split.
    + intros H. destruct (Z.eq_dec x 0) as [->|]; [|nia].
      rewrite Z.mul_0_l, rnd_zero in H. lia.
    + intros H. assert (1 <= x) by nia.
      pose proof (rnd_mono (2 ^ unit_exp) (x * 2 ^ unit_exp) ltac:(nia)) as H1.
      rewrite rnd_pow2 in H1 by (unfold unit_exp; lia). lia.
  - by rewrite rnd_fval.
Qed.

Lemma py_add_pos a b :
  good_num a -> good_num b ->
  0 < val (py_add a b) <-> 0 < val a \/ 0 < val b.
Proof.
  intros Ha Hb. pose proof (val_nonneg a Ha). pose proof (val_nonneg b Hb).
  destruct (is_float a || is_float b) eqn:Efl.
  - rewrite py_add_float by by apply orb_prop.
    destruct (fadd_lift a b Ha Hb) as [G E]. cbn [val]. rewrite E.
    rewrite <- (lift_pos a Ha), <- (lift_pos b Hb).
    pose proof (rnd_nonneg (val a)). pose proof (rnd_nonneg (val b)).
    split.
    + intros Hpos. destruct (Z.eq_dec (rnd (val a) + rnd (val b)) 0) as [E0|]; [|lia].
      rewrite E0, rnd_zero in Hpos. lia.
    + intros Hpos.
      assert (Hx : forall x y, 0 < rnd x -> 0 <= rnd y -> 0 < rnd (rnd x + rnd y)).
      { intros x y Hx Hy. pose proof (rnd_mono (rnd x) (rnd x + rnd y) ltac:(lia)) as Hm.
        rewrite rnd_idem in Hm. lia. }
      destruct Hpos; [by apply Hx|]. rewrite Z.add_comm. by apply Hx.
  - apply orb_false_elim in Efl as [Ea Eb].
    destruct a as [x|]; [|done]. destruct b as [y|]; [|done].
    rewrite py_add_ints. cbn [val good_num] in *. pose proof unit_pos. nia.
Qed.

Lemma py_lt_zero a : good_num a -> py_lt (PInt 0) a = true <-> 0 < val a.
Proof.
  intros Ha. rewrite py_lt_spec by (cbn; done || lia).
  rewrite num_le_alt by (cbn; done || lia). cbn [is_inf val].
  rewrite Z.mul_0_l. pose proof (val_nonneg a Ha). pose proof top_pos.
  destruct a as [x|f]; cbn [is_inf val good_num] in *.
  - split; [intros H1; destruct (Z.le_gt_cases (x * 2 ^ unit_exp) 0); [|done];
            exfalso; apply H1; right; done|].
    intros ? [|[]]; [done|lia].
  - destruct (is_inf_top f Ha) as [H1 H2]. rewrite H2.
    split.
    + intros Hn. destruct (Z.le_gt_cases (fval f) 0); [|done].
      exfalso. apply Hn. right. split; lia.
    + intros ? [|[]]; [done|lia].
Qed.

Lemma py_le_zero a : good_num a -> py_le (PInt 0) a = true.
Proof.
  intros Ha. apply py_le_spec; [cbn; lia|done|].
  apply num_le_alt; [cbn; lia|done|].
  destruct (is_inf a); [by left|right]. split; [done|].
  cbn [val]. rewrite Z.mul_0_l. by apply val_nonneg.
Qed.

(** ** Category scores *)

Lemma cat_ok_good a : cat_ok a -> good_num a /\ small a.
Proof.
  intros [Hg [->|Hf]]; (split; [done|]); [cbn; lia|]. by destruct a.
Qed.

Lemma fold_w_ok w l acc :
  is_weight w -> Forall (fun m => 0 < m) l -> cat_ok acc ->
  cat_ok (fold_w w l acc) /\
  (0 < val (fold_w w l acc) <-> 0 < val acc \/ l <> []).
Proof.
  intros Hw Hl. revert acc. induction Hl as [|m l Hm Hl IH]; intros acc Hacc.
  - split; [done|]. cbn. split; [by left|intros [|]; done].
  - cbn [fold_w fold_left].
    destruct (term_spec w m Hw ltac:(lia)) as (F & EF & GF & HF). rewrite EF.
    assert (Hnew : cat_ok (py_add acc (PFloat F))).
    { destruct Hacc as [Hg _]. split; [by apply py_add_good|right].
      rewrite py_add_float by by right. done. }
    destruct (IH _ Hnew) as [Hok Hpos]. split; [exact Hok|].
    unfold fold_w in Hpos. rewrite Hpos.
    destruct Hacc as [Hg _].
    rewrite (py_add_pos acc (PFloat F) Hg GF). cbn [val].
    specialize (HF Hm). split; [intros _; by right|intros _; left; by right].
Qed.

Lemma fold_w_mono w l acc acc' :
  is_weight w -> Forall (fun m => 0 < m) l -> cat_ok acc -> below acc acc' ->
  below (fold_w w l acc) (fold_w w l acc').
Proof.
  intros Hw Hl. revert acc acc'.
  induction Hl as [|m l Hm Hl IH]; intros acc acc' Hacc Hb; [done|].
  cbn [fold_w fold_left].
  destruct (term_spec w m Hw ltac:(lia)) as (F & EF & GF & HF). rewrite EF.
  apply IH.
  - destruct Hacc as [Hg _]. split; [by apply py_add_good|right].
    rewrite py_add_float by by right. done.
  - apply py_add_below; [done|by apply below_refl|]. intros x y _ [=].
Qed.

Lemma fold_w_app w l1 l2 acc : fold_w w (l1 ++ l2) acc = fold_w w l2 (fold_w w l1 acc).
Proof. apply fold_left_app. Qed.

Lemma grown_cons x l l' : grown l l' -> grown (x :: l) (x :: l').
Proof.
  intros [l0|l1 m l2 Hm|l1 m m' l2 Hm].
  - constructor.
  - apply (grown_new (x :: l1) m l2 Hm).
  - apply (grown_more (x :: l1) m m' l2 Hm).
Qed.

Lemma missing_levels_pos ty tier a m : missing_levels ty tier a = Some m -> 0 < m.
Proof.
  unfold missing_levels. destruct (reference_target ty tier a) as [t|]; [|done].
  destruct (Z.ltb_spec (level a) t); [|done]. intros [= <-]. lia.
Qed.

Lemma missing_levels_all_pos ty tier l :
  Forall (fun m => 0 < m) (omap (M := list) (missing_levels ty tier) l).
Proof.
  apply Forall_forall. intros m Hin. apply list_elem_of_omap in Hin as (a & _ & Ha).
  by eapply missing_levels_pos.
Qed.

Lemma missing_lowered ty tier a d :
  0 <= d ->
  match missing_levels ty tier a, missing_levels ty tier (lower d a) with
  | Some m, Some m' => 0 < m <= m'
  | None, Some m' => 0 < m'
  | None, None => True
  | Some _, None => False
  end.
Proof.
  intros Hd. unfold missing_levels.
  change (reference_target ty tier (lower d a)) with (reference_target ty tier a).
  destruct (reference_target ty tier a) as [t|]; [|done].
  cbn [level lower].
  destruct (Z.ltb_spec (level a) t), (Z.ltb_spec (level a - d) t); lia.
Qed.

Lemma lower_at_grown ty tier i d l :
  0 <= d ->
  grown (omap (M := list) (missing_levels ty tier) l)
        (omap (M := list) (missing_levels ty tier) (lower_at i d l)).
Proof.
  intros Hd. unfold lower_at. revert i.
  induction l as [|a l IH]; intros i; [constructor|].
  destruct i as [|i]; cbn [alter list_alter omap list_omap].
  - pose proof (missing_lowered ty tier a d Hd) as H.
    destruct (missing_levels ty tier a) as [m|],
             (missing_levels ty tier (lower d a)) as [m'|]; try done.
    + by apply (grown_more [] m m').
    + by apply (grown_new [] m').
    + constructor.
  - specialize (IH i). change (list_alter ?f i l) with (alter f i l).
    destruct (missing_levels ty tier a); [by apply grown_cons|done].
Qed.

Lemma Zsum_grown l l' : grown l l' -> Zsum l <= Zsum l'.
Proof.
  intros [l0|l1 m l2 Hm|l1 m m' l2 Hm]; rewrite ?Zsum_app, ?Zsum_cons; lia.
Qed.

Lemma fold_w_grown w l l' :
  is_weight w -> Forall (fun m => 0 < m) l -> Forall (fun m => 0 < m) l' ->
  grown l l' -> below (fold_w w l (PInt 0)) (fold_w w l' (PInt 0)).
Proof.
  intros Hw Hl Hl' Hg.
  assert (H0 : cat_ok (PInt 0)) by (split; [cbn; lia|by left]).
  destruct Hg as [l0|l1 m l2 Hm|l1 m m' l2 Hm].
  - apply below_refl; apply cat_ok_good; by apply fold_w_ok.
  - apply Forall_app in Hl as [Hl1 Hl2].
    rewrite !fold_w_app. cbn [fold_w fold_left]. fold (fold_w w l1 (PInt 0)).
    destruct (fold_w_ok w l1 (PInt 0) Hw Hl1 H0) as [Hok _].
    destruct (term_spec w m Hw ltac:(lia)) as (F & EF & GF & HF). rewrite EF.
    apply fold_w_mono; [done..|].
    apply py_add_above; [|done..].
    apply below_refl; by apply cat_ok_good.
  - apply Forall_app in Hl as [Hl1 Hl2]. apply Forall_cons in Hl2 as [_ Hl2].
    rewrite !fold_w_app. cbn [fold_w fold_left]. fold (fold_w w l1 (PInt 0)).
    destruct (fold_w_ok w l1 (PInt 0) Hw Hl1 H0) as [Hok _].
    apply fold_w_mono; [done..| |].
    + destruct (term_spec w m Hw ltac:(lia)) as (F & EF & GF & HF). rewrite EF.
      destruct Hok as [Hg _]. split; [by apply py_add_good|right].
      rewrite py_add_float by by right. done.
    + apply py_add_below.
      * apply below_refl; by apply cat_ok_good.
      * apply term_mono; [done|lia].
      * intros x y _ Hy.
        destruct (term_spec w m Hw ltac:(lia)) as (F & EF & _). congruence.
Qed.

(** ** The three categories of a report *)

Lemma hero_category_sum tier items :
  category_score "hero" tier items =
  PInt (Zsum (omap (missing_levels "hero" tier) items)).
Proof.
  unfold category_score.
  generalize (omap (M := list) (missing_levels "hero" tier) items). intros l.
  assert (Hgen : forall acc, fold_left
             (fun (a : pynum) (m : Z) => py_add a (py_mul (PInt m) (weight "hero")))
             l (PInt acc) = PInt (acc + Zsum l)).
  { induction l as [|m l IH]; intros acc; cbn [fold_left].
    - rewrite Zsum_nil. f_equal. lia.
    - rewrite py_mul_one, py_add_ints, IH, Zsum_cons. f_equal. lia. }
  apply (Hgen 0).
Qed.

Lemma troop_category_fold tier items :
  category_score "troop" tier items =
  fold_w lit_0_3 (omap (missing_levels "troop" tier) items) (PInt 0).
Proof. reflexivity. Qed.

Lemma spell_category_fold tier items :
  category_score "spell" tier items =
  fold_w lit_0_4 (omap (missing_levels "spell" tier) items) (PInt 0).
Proof. reflexivity. Qed.

Lemma Zsum_pos l : Forall (fun m => 0 < m) l -> 0 <= Zsum l /\ (0 < Zsum l <-> l <> []).
Proof.
  induction 1 as [|m l Hm Hl [IH1 IH2]]; [rewrite Zsum_nil; split; [lia|split; [lia|done]]|].
  rewrite Zsum_cons. split; [lia|]. split; [done|lia].
Qed.

Lemma zero_cat_ok : cat_ok (PInt 0).
Proof. split; [cbn; lia|by left]. Qed.

Lemma at_target_iff ty tier items :
  at_target ty tier items = true <-> omap (M := list) (missing_levels ty tier) items = [].
Proof.
  split; [apply at_target_no_missing|].
  unfold at_target. induction items as [|a items IH]; [done|].
  cbn [omap list_omap forallb]. unfold missing_levels at 1.
  destruct (reference_target ty tier a) as [t|]; [|by intros; apply IH].
  destruct (Z.ltb_spec (level a) t); [done|].
  intros H'. rewrite IH by done. by destruct (Z.leb_spec t (level a)); [|lia].
Qed.

(** The score is a sum of three category scores, each a number from 0 up;
it is positive as soon as one list of missing levels is not empty. *)
Lemma score_facts p :
  let tier := townHallLevel p in
  let mh := omap (M := list) (missing_levels "hero" tier) (heroes p) in
  let mt := omap (M := list) (missing_levels "troop" tier) (troops p) in
  let ms := omap (M := list) (missing_levels "spell" tier) (spells p) in
  good_num (weighted_missing_levels p) /\
  (0 < val (weighted_missing_levels p) <-> mh <> [] \/ mt <> [] \/ ms <> []).
Proof.
  intros tier mh mt ms. unfold weighted_missing_levels. fold tier.
  rewrite hero_category_sum, troop_category_fold, spell_category_fold.
  fold mh mt ms.
  destruct (Zsum_pos mh (missing_levels_all_pos _ _ _)) as [Hh0 Hhp].
  destruct (fold_w_ok lit_0_3 mt (PInt 0) lit_0_3_weight
              (missing_levels_all_pos _ _ _) zero_cat_ok) as [[Gt _] Pt].
  destruct (fold_w_ok lit_0_4 ms (PInt 0) lit_0_4_weight
              (missing_levels_all_pos _ _ _) zero_cat_ok) as [[Gs _] Ps].
  assert (Gh : good_num (PInt (Zsum mh))) by done.
  assert (Ght : good_num (py_add (PInt (Zsum mh)) (fold_w lit_0_3 mt (PInt 0))))
    by by apply py_add_good.
  split; [by apply py_add_good|].
  rewrite py_add_pos, py_add_pos, Pt, Ps by done.
  cbn [val]. rewrite Z.mul_0_l. pose proof unit_pos as HK.
  assert (Hh : 0 < Zsum mh * 2 ^ unit_exp <-> mh <> []) by (rewrite <- Hhp; nia).
  rewrite Hh. pose proof (Z.lt_irrefl 0) as Hz.
  clear -Hz. generalize (mh <> []) (mt <> []) (ms <> []). intros P Q R. tauto.
Qed.

(** X6: for town hall 3 and above the score of a report is an integer or
a double from 0 up, never a NaN, and it is greater than 0 exactly when some
home asset is below its reference target. *)
Theorem rush_score_sign (p : player) :
  3 <= townHallLevel p ->
  exists r,
    generate_rush_report p = Some r /\
    py_le (PInt 0) (rush_score r) = true /\
    (py_lt (PInt 0) (rush_score r) = true <->
     at_target "hero" (townHallLevel p) (heroes p) &&
     at_target "troop" (townHallLevel p) (troops p) &&
     at_target "spell" (townHallLevel p) (spells p) = false).
Proof.
  intros Hth. destruct (report_fields p Hth) as (r & Hr & Hs & _).
  exists r. split; [done|]. rewrite Hs.
  destruct (score_facts p) as [Hg Hpos]. cbv zeta in Hpos.
  split; [by apply py_le_zero|].
  rewrite py_lt_zero, Hpos by done.
  rewrite <- !at_target_iff. clear.
  destruct (at_target "hero" _ _), (at_target "troop" _ _), (at_target "spell" _ _);
    cbn [andb]; split; intros H; try done;
    first [destruct H as [H|[H|H]]; done
          |left; done|right; left; done|right; right; done].
Qed.

Lemma rush_score_sign_witness :
  exists r,
    generate_rush_report Examples.slightly_behind = Some r /\
    py_le (PInt 0) (rush_score r) = true /\
    (py_lt (PInt 0) (rush_score r) = true <->
     at_target "hero" 13 (heroes Examples.slightly_behind) &&
     at_target "troop" 13 (troops Examples.slightly_behind) &&
     at_target "spell" 13 (spells Examples.slightly_behind) = false).
Proof. apply (rush_score_sign Examples.slightly_behind). vm_compute. discriminate. Defined.

Lemma sum_below h h' t t' s s' :
  0 <= h <= h' -> h <= 2 ^ 53 ->
  cat_ok t -> cat_ok s -> below t t' -> below s s' ->
  below (py_add (py_add (PInt h) t) s) (py_add (py_add (PInt h') t') s').
Proof.
  intros Hh Hsmall Ht Hs Bt Bs. pose proof unit_pos.
  assert (Bh : below (PInt h) (PInt h')).
  { repeat split; cbn; try done; try lia. nia. }
  assert (Hint : forall y, t = PInt y -> y = 0).
  { intros y ->. destruct Ht as [_ [[=]|]]; done. }
  assert (Hint' : forall y, s = PInt y -> y = 0).
  { intros y ->. destruct Hs as [_ [[=]|]]; done. }
  apply py_add_below; [apply py_add_below|done|]; try done.
  - intros x y [= <-] Hy. apply Hint in Hy. lia.
  - intros x y Hx Hy. apply Hint' in Hy. subst y.
    destruct t as [z|f]; [|by rewrite py_add_float in Hx by by right].
    rewrite (Hint z eq_refl), py_add_ints in Hx. injection Hx as <-. lia.
Qed.

(** X7: for town hall 3 and above and at most 2^53 missing hero levels,
decreasing the level of one hero, troop or spell (all else fixed) never
decreases the score. *)
Theorem lowering_a_level_never_lowers_score (p p' : player) (i : nat) (d : Z) :
  3 <= townHallLevel p -> 0 <= d ->
  hero_levels_missing p <= 2 ^ 53 ->
  p' = with_heroes p (lower_at i d (heroes p)) \/
  p' = with_troops p (lower_at i d (troops p)) \/
  p' = with_spells p (lower_at i d (spells p)) ->
  exists r r',
    generate_rush_report p = Some r /\ generate_rush_report p' = Some r' /\
    py_le (rush_score r) (rush_score r') = true.
Proof.
  intros Hth Hd Hsmall Hp'.
  assert (Hth' : 3 <= townHallLevel p') by (destruct Hp' as [-> | [-> | ->]]; done).
  destruct (report_fields p Hth) as (r & Hr & Hs & _).
  destruct (report_fields p' Hth') as (r' & Hr' & Hs' & _).
  exists r, r'. split; [done|]. split; [done|]. rewrite Hs, Hs'.
  destruct (score_facts p) as [Hg _]. destruct (score_facts p') as [Hg' _].
  apply py_le_spec; [done..|].
  assert (B : below (weighted_missing_levels p) (weighted_missing_levels p'));
    [|by destruct B as (_ & _ & _ & B & _)].
  unfold weighted_missing_levels.
  rewrite !hero_category_sum, !troop_category_fold, !spell_category_fold.
  set (tier := townHallLevel p).
  assert (Htier : townHallLevel p' = tier) by (destruct Hp' as [-> | [-> | ->]]; done).
  rewrite Htier.
  pose proof (missing_levels_all_pos "hero" tier) as Ph.
  pose proof (missing_levels_all_pos "troop" tier) as Pt.
  pose proof (missing_levels_all_pos "spell" tier) as Ps.
  pose proof (fun l => proj1 (fold_w_ok lit_0_3 _ (PInt 0) lit_0_3_weight (Pt l) zero_cat_ok)) as Ot.
  pose proof (fun l => proj1 (fold_w_ok lit_0_4 _ (PInt 0) lit_0_4_weight (Ps l) zero_cat_ok)) as Os.
  unfold hero_levels_missing in Hsmall. fold tier in Hsmall.
  pose proof (proj1 (Zsum_pos _ (Ph (heroes p)))) as Hh0.
  destruct Hp' as [-> | [-> | ->]]; cbn [heroes troops spells with_heroes with_troops with_spells].
  - apply sum_below; [|done|apply Ot|apply Os| |].
    + split; [done|]. apply Zsum_grown. by apply lower_at_grown.
    + apply below_refl; by apply cat_ok_good.
    + apply below_refl; by apply cat_ok_good.
  - apply sum_below; [lia|done|apply Ot|apply Os| |].
    + apply fold_w_grown; [apply lit_0_3_weight|done..|]. by apply lower_at_grown.
    + apply below_refl; by apply cat_ok_good.
  - apply sum_below; [lia|done|apply Ot|apply Os| |].
    + apply below_refl; by apply cat_ok_good.
    + apply fold_w_grown; [apply lit_0_4_weight|done..|]. by apply lower_at_grown.
Qed.

Lemma lowering_a_level_never_lowers_score_witness :
  exists r r',
    generate_rush_report Examples.slightly_behind = Some r /\
    generate_rush_report
      (with_troops Examples.slightly_behind
         (lower_at 0 2 (troops Examples.slightly_behind))) = Some r' /\
    py_le (rush_score r) (rush_score r') = true.
Proof.
  apply (lowering_a_level_never_lowers_score Examples.slightly_behind _ 0%nat 2).
  - vm_compute. discriminate.
  - lia.
  - vm_compute. discriminate.
  - right. left. reflexivity.
Defined.

End ScoreOrder.

(** * The clan-wide rush analysis *)

Section ClanRushFacts.
Import Tables Rush RushSpec RushMore FloatSpec NumSpec ClanRush.







(** ** The sort *)








(** ** The labelled reports *)




End ClanRushFacts.

(** * Further properties of the history store *)

Section HistoryMoreFacts.
Import History HistorySpec HistoryMore.

Lemma stars_sum_app l1 l2 : stars_sum (l1 ++ l2) = stars_sum l1 + stars_sum l2.
Proof. unfold stars_sum. induction l1 as [|x l1 IH]; cbn; lia. Qed.

Lemma with_stars_app k l1 l2 : with_stars k (l1 ++ l2) = with_stars k l1 + with_stars k l2.
Proof. unfold with_stars. rewrite filter_app, length_app. lia. Qed.

Lemma with_stars_one k s : with_stars k [s] = if s =? k then 1 else 0.
Proof.
  unfold with_stars. rewrite filter_cons, filter_nil.
  destruct (decide (s = k)) as [->|Hne].
  - by rewrite Z.eqb_refl.
  - by destruct (Z.eqb_spec s k).
Qed.

(** The attack loop, as one step on each field. *)
Lemma record_attacks_fields t ty id clock attacks :
  forall i r,
    let r' := record_attacks t ty id clock i r attacks in
    name r' = name r /\ tag r' = tag r /\ current_th r' = current_th r /\
    war_ids r' = war_ids r /\ wars_participated r' = wars_participated r /\
    cwl_seasons_played r' = cwl_seasons_played r /\
    attacks_history r' =
      attacks_history r ++
      history_entries t ty id (fun j => clock (i + j)%nat) attacks /\
    total_attacks r' = total_attacks r + Z.of_nat (length attacks) /\
    total_stars r' = total_stars r + stars_sum (War.stars <$> attacks) /\
    total_destruction r' =
      fold_left py_add (War.destruction <$> attacks) (total_destruction r) /\
    three_stars r' = three_stars r + with_stars 3 (War.stars <$> attacks) /\
    two_stars r' = two_stars r + with_stars 2 (War.stars <$> attacks) /\
    one_star r' = one_star r + with_stars 1 (War.stars <$> attacks).
Proof.
  induction attacks as [|a attacks IH]; intros i r.
  - cbn. rewrite app_nil_r. unfold with_stars, stars_sum. cbn. repeat split; lia.
  - cbn [record_attacks]. specialize (IH (S i) (record_attack t ty id (clock i) r a)).
    cbv zeta in IH |- *.
    destruct IH as (-> & -> & -> & -> & -> & -> & -> & -> & -> & -> & -> & -> & ->).
    cbn [record_attack name tag current_th war_ids wars_participated
         cwl_seasons_played attacks_history total_attacks total_stars
         total_destruction three_stars two_stars one_star].
    repeat split; try done.
    + rewrite <- app_assoc. f_equal. unfold history_entries. cbn [imap].
      rewrite Nat.add_0_r. f_equal. apply imap_ext. intros j x _. cbn.
      by rewrite Nat.add_succ_r.
    + cbn [length]. lia.
    + rewrite fmap_cons. unfold stars_sum. cbn. lia.
    + rewrite fmap_cons. change (War.stars a :: ?l) with ([War.stars a] ++ l).
      rewrite with_stars_app, with_stars_one. destruct (War.stars a =? 3); lia.
    + rewrite fmap_cons. change (War.stars a :: ?l) with ([War.stars a] ++ l).
      rewrite with_stars_app, with_stars_one.
      destruct (Z.eqb_spec (War.stars a) 3) as [->|]; [cbn; lia|].
      destruct (War.stars a =? 2); lia.
    + rewrite fmap_cons. change (War.stars a :: ?l) with ([War.stars a] ++ l).
      rewrite with_stars_app, with_stars_one.
      destruct (Z.eqb_spec (War.stars a) 3) as [->|]; [cbn; lia|].
      destruct (Z.eqb_spec (War.stars a) 2) as [->|]; [cbn; lia|].
      destruct (War.stars a =? 1); lia.
Qed.

Lemma update_new hd tg n t ad ty id clock :
  let old := default (new_player_record tg n t) (players hd !! tg) in
  id ∉ war_ids old ->
  players (update_player_historical_stats hd tg n t ad ty id clock) !! tg =
  Some (record_attacks t ty id clock 0 (enter_war (refresh old n t) id)
          (War.ps_attacks ad)).
Proof.
  intros old Hnew. unfold update_player_historical_stats. fold old.
  cbn [refresh war_ids]. rewrite bool_decide_eq_false_2 by done.
  cbn. by rewrite lookup_insert_eq.
Qed.

(** X9: when the war is not yet in the player's list, the call files it:
the war id is appended, [wars_participated] grows by one, one log entry is
appended per attack in order, the attack and star counters grow by the
number and the stars of the attacks, the three star buckets by the attacks
with 3, 2 and 1 stars; the name is replaced and [current_th] is the larger
of the old value and [th_level].  A missing record starts from the empty
one. *)
Theorem new_war_is_recorded
    (hd : historical_data) (tg n : string) (t : Z)
    (ad : War.player_stats) (ty id : string) (clock : nat -> string) :
  let old := default (new_player_record tg n t) (players hd !! tg) in
  let attacks := War.ps_attacks ad in
  id ∉ war_ids old ->
  exists r,
    players (update_player_historical_stats hd tg n t ad ty id clock) !! tg = Some r /\
    name r = n /\ tag r = tag old /\
    current_th r = Z.max (current_th old) t /\
    war_ids r = war_ids old ++ [id] /\
    wars_participated r = wars_participated old + 1 /\
    attacks_history r = attacks_history old ++ history_entries t ty id clock attacks /\
    total_attacks r = total_attacks old + Z.of_nat (length attacks) /\
    total_stars r = total_stars old + stars_sum (War.stars <$> attacks) /\
    total_destruction r =
      fold_left py_add (War.destruction <$> attacks) (total_destruction old) /\
    three_stars r = three_stars old + with_stars 3 (War.stars <$> attacks) /\
    two_stars r = two_stars old + with_stars 2 (War.stars <$> attacks) /\
    one_star r = one_star old + with_stars 1 (War.stars <$> attacks) /\
    cwl_seasons_played r = cwl_seasons_played old.
Proof.
  intros old attacks Hnew. subst attacks.
  exists (record_attacks t ty id clock 0 (enter_war (refresh old n t) id)
            (War.ps_attacks ad)).
  split; [by apply update_new|].
  pose proof (record_attacks_fields t ty id clock (War.ps_attacks ad) 0
                (enter_war (refresh old n t) id)) as H.
  cbv zeta in H.
  destruct H as (-> & -> & -> & -> & -> & -> & -> & -> & -> & -> & -> & -> & ->).
  cbn [enter_war refresh name tag current_th war_ids wars_participated
       cwl_seasons_played attacks_history total_attacks total_stars
       total_destruction three_stars two_stars one_star].
  repeat split; reflexivity.
Qed.

Lemma new_war_is_recorded_witness :
  exists r,
    players (apply_call (create_empty_data_structure "#2J28LL2VU")
               HistoryExamples.first_fetch) !! "#P1"%string = Some r /\
    war_ids r = ["#A_#B_20250101T000000.000Z"%string] /\
    total_attacks r = 1 /\ total_stars r = 3 /\ three_stars r = 1.
Proof.
  destruct (new_war_is_recorded (create_empty_data_structure "#2J28LL2VU")
              "#P1" "Ann" 12 (HistoryExamples.stats_with [HistoryExamples.three_star_hit])
              "regular_war" "#A_#B_20250101T000000.000Z"
              (fun _ => "2025-01-02T10:00:00"%string))
    as (r & Hr & _ & _ & _ & Hw & _ & _ & Ha & Hs & _ & H3 & _).
  - cbn. apply not_elem_of_nil.
  - exists r. split; [exact Hr|]. split; [exact Hw|]. split; [exact Ha|].
    split; [exact Hs|exact H3].
Defined.

(** ** What every call keeps *)

Lemma history_entries_stars t ty id clock attacks :
  stars <$> history_entries t ty id clock attacks = War.stars <$> attacks.
Proof.
  unfold history_entries. revert clock.
  induction attacks as [|a attacks IH]; intros clock; [done|].
  cbn [imap fmap list_fmap]. f_equal. apply (IH (clock ∘ S)).
Qed.

Lemma history_entries_war_id t ty id clock attacks :
  Forall (fun e => war_id e = id) (history_entries t ty id clock attacks).
Proof.
  unfold history_entries. revert clock.
  induction attacks as [|a attacks IH]; intros clock; [constructor|].
  cbn [imap]. constructor; [done|]. apply (IH (clock ∘ S)).
Qed.

Lemma well_kept_new tg n t : well_kept tg (new_player_record tg n t).
Proof.
  unfold well_kept, with_stars, stars_sum. cbn.
  repeat split; try done; constructor.
Qed.

Lemma well_kept_refresh k r n t : well_kept k r -> well_kept k (refresh r n t).
Proof. done. Qed.

Lemma well_kept_filed k old n t ty id clock attacks :
  well_kept k old -> id ∉ war_ids old ->
  well_kept k (record_attacks t ty id clock 0 (enter_war (refresh old n t) id) attacks).
Proof.
  intros (Ht & Hnd & Hwp & Hids & Hts & H3 & H2 & H1 & Hc) Hnew.
  pose proof (record_attacks_fields t ty id clock attacks 0
                (enter_war (refresh old n t) id)) as H.
  cbv zeta in H.
  destruct H as (_ & E1 & _ & E2 & E3 & E4 & E5 & _ & E6 & _ & E7 & E8 & E9).
  unfold well_kept. rewrite E1, E2, E3, E4, E5, E6, E7, E8, E9.
  cbn [enter_war refresh name tag current_th war_ids wars_participated
       cwl_seasons_played attacks_history total_attacks total_stars
       total_destruction three_stars two_stars one_star].
  rewrite fmap_app, history_entries_stars, stars_sum_app, !with_stars_app.
  repeat split; try done; try lia.
  - apply NoDup_app. split; [done|]. split; [|apply NoDup_singleton].
    intros x Hx ->%list_elem_of_singleton. done.
  - rewrite length_app. cbn. lia.
  - apply Forall_app. split.
    + eapply Forall_impl; [exact Hids|]. intros e He. apply elem_of_app. by left.
    + eapply Forall_impl; [apply history_entries_war_id|].
      intros e ->. apply elem_of_app. right. apply list_elem_of_singleton. done.
Qed.

Lemma update_cases hd tg n t ad ty id clock :
  let old := default (new_player_record tg n t) (players hd !! tg) in
  let hd' := update_player_historical_stats hd tg n t ad ty id clock in
  ((id ∈ war_ids old) /\ players hd' !! tg = Some (refresh old n t)) \/
  ((id ∉ war_ids old) /\
   players hd' !! tg =
     Some (record_attacks t ty id clock 0 (enter_war (refresh old n t) id)
             (War.ps_attacks ad))).
Proof.
  intros old hd'. destruct (decide (id ∈ war_ids old)) as [Hin|Hnew].
  - left. split; [done|]. subst hd'. unfold update_player_historical_stats.
    fold old. cbn [refresh war_ids]. rewrite bool_decide_eq_true_2 by done.
    cbn. by rewrite lookup_insert_eq.
  - right. split; [done|]. by apply update_new.
Qed.

Lemma well_kept_update hd tg n t ad ty id clock :
  (forall k r, players hd !! k = Some r -> well_kept k r) ->
  forall k r,
    players (update_player_historical_stats hd tg n t ad ty id clock) !! k = Some r ->
    well_kept k r.
Proof.
  intros Hinv k r. destruct (decide (tg = k)) as [<-|Hne].
  - assert (Hold : well_kept tg (default (new_player_record tg n t) (players hd !! tg))).
    { destruct (players hd !! tg) as [r0|] eqn:E; [by apply Hinv|apply well_kept_new]. }
    destruct (update_cases hd tg n t ad ty id clock) as [[Hin ->]|[Hnew ->]];
      intros [= <-].
    + by apply well_kept_refresh.
    + by apply well_kept_filed.
  - rewrite update_lookup_other by done. apply Hinv.
Qed.

(** X10: in a store built by calls of [update_player_historical_stats]
from the empty store, every record is kept under its own tag, lists no war
twice, counts in [wars_participated] the wars of its list, logs attacks of
listed wars only, and has [total_stars] and the three star buckets equal to
the sum and counts over its log; [cwl_seasons] of a player stays 0. *)
Theorem stored_records_well_kept
    (clan : string) (calls : list call) (k : string) (r : player_record) :
  players (run clan calls) !! k = Some r -> well_kept k r.
Proof.
  unfold run.
  assert (Hgen : forall hd,
             (forall k r, players hd !! k = Some r -> well_kept k r) ->
             forall k r, players (fold_left apply_call calls hd) !! k = Some r ->
                         well_kept k r).
  { induction calls as [|c calls IH]; intros hd Hinv; [done|].
    cbn [fold_left]. apply IH. unfold apply_call. by apply well_kept_update. }
  apply Hgen. intros k' r'. cbn. by rewrite lookup_empty.
Qed.

Lemma stored_records_well_kept_witness :
  well_kept "#P1" HistoryExamples.record_after_first_fetch.
Proof.
  apply (stored_records_well_kept "#2J28LL2VU" [HistoryExamples.first_fetch]).
  vm_compute. reflexivity.
Defined.

(** ** Records only grow *)

Lemma grown_refl r : grown r r.
Proof. unfold grown. repeat split; try done; lia. Qed.

Lemma grown_refresh r n t : grown r (refresh r n t).
Proof. unfold grown. cbn. repeat split; try done; lia. Qed.

Lemma grown_filed old n t ty id clock attacks :
  grown old (record_attacks t ty id clock 0 (enter_war (refresh old n t) id) attacks).
Proof.
  pose proof (record_attacks_fields t ty id clock attacks 0
                (enter_war (refresh old n t) id)) as H.
  cbv zeta in H.
  destruct H as (_ & E1 & E0 & E2 & E3 & _ & E5 & E6 & _).
  unfold grown. rewrite E0, E1, E2, E3, E5, E6. cbn.
  repeat split; try lia.
  - by apply prefix_app_r.
  - by apply prefix_app_r.
Qed.

Lemma update_grows hd tg n t ad ty id clock k r :
  players hd !! k = Some r ->
  exists r',
    players (update_player_historical_stats hd tg n t ad ty id clock) !! k = Some r' /\
    grown r r'.
Proof.
  intros Hr.
  pose proof (update_cases hd tg n t ad ty id clock) as Hc. cbv zeta in Hc.
  destruct (decide (tg = k)) as [<-|Hne].
  - rewrite Hr in Hc. unfold default in Hc. cbn [from_option] in Hc.
    destruct Hc as [[_ ->]|[_ ->]]; eexists; (split; [done|]).
    + apply grown_refresh.
    + apply grown_filed.
  - exists r. split; [|apply grown_refl]. by rewrite update_lookup_other.
Qed.

(** X11: a call of [update_player_historical_stats] leaves the clan tag,
the time stamp, the league seasons and the records of all other players as
they are; no record is removed, and the record of the player only grows:
same tag, war list and attack log extended at the end, [current_th],
[wars_participated] and [total_attacks] not smaller. *)
Theorem records_only_grow
    (hd : historical_data) (tg n : string) (t : Z)
    (ad : War.player_stats) (ty id : string) (clock : nat -> string) :
  let hd' := update_player_historical_stats hd tg n t ad ty id clock in
  clan_tag hd' = clan_tag hd /\
  last_updated hd' = last_updated hd /\
  cwl_seasons hd' = cwl_seasons hd /\
  is_Some (players hd' !! tg) /\
  (forall k, k <> tg -> players hd' !! k = players hd !! k) /\
  (forall k r, players hd !! k = Some r ->
     exists r', players hd' !! k = Some r' /\ grown r r').
Proof.
  intros hd'.
  assert (Hmeta : clan_tag hd' = clan_tag hd /\ last_updated hd' = last_updated hd /\
                  cwl_seasons hd' = cwl_seasons hd).
  { subst hd'. unfold update_player_historical_stats. by case_bool_decide. }
  destruct Hmeta as (H1 & H2 & H3).
  split; [done|]. split; [done|]. split; [done|].
  pose proof (update_cases hd tg n t ad ty id clock) as Hc. cbv zeta in Hc. fold hd' in Hc.
  split; [destruct Hc as [[_ ->]|[_ ->]]; by eexists|].
  split; [intros k Hk; by apply update_lookup_other|].
  intros k r Hr. by apply update_grows.
Qed.

End HistoryMoreFacts.

(** * Further properties of the war-attack extractor *)

Section WarMoreFacts.
Import War WarSpec WarMore.

Lemma sum_of_app l1 l2 : sum_of (l1 ++ l2) = sum_of l1 + sum_of l2.
Proof. unfold sum_of. induction l1 as [|x l1 IH]; cbn; lia. Qed.

Lemma stars_count_snoc k l x :
  stars_count k (l ++ [x]) = stars_count k l + (if stars x =? k then 1 else 0).
Proof.
  unfold stars_count. rewrite filter_app, length_app, filter_cons, filter_nil.
  destruct (decide (stars x = k)) as [->|Hne].
  - rewrite Z.eqb_refl. cbn. lia.
  - destruct (Z.eqb_spec (stars x) k); [done|]. cbn. lia.
Qed.

Lemma other_stars_count_snoc l x :
  other_stars_count (l ++ [x]) =
  other_stars_count l +
  (if stars x =? 3 then 0 else if stars x =? 2 then 0
   else if stars x =? 1 then 0 else 1).
Proof.
  unfold other_stars_count. rewrite filter_app, length_app, filter_cons, filter_nil.
  destruct (Z.eqb_spec (stars x) 3), (Z.eqb_spec (stars x) 2), (Z.eqb_spec (stars x) 1);
    case_decide; cbn; lia.
Qed.

Lemma hits_count_snoc h l x :
  hits_count h (l ++ [x]) =
  hits_count h l + (if String.eqb (hit_type x) h then 1 else 0).
Proof.
  unfold hits_count. rewrite filter_app, length_app, filter_cons, filter_nil.
  destruct (String.eqb_spec (hit_type x) h); case_decide; try done; cbn; lia.
Qed.

(** One pass of the attack loop on the closed form. *)
Lemma record_attack_stats_of lookup th_m n t th0 ms hits a :
  record_attack lookup th_m (stats_of n t th0 ms hits) a =
  stats_of n t th0 ms (hits ++ [extracted lookup th_m a]).
Proof.
  unfold record_attack, stats_of.
  cbn [ps_name ps_tag th ps_attacks total_stars total_destruction new_stars
       attacks_used missed_attacks three_stars two_stars one_star zero_stars
       hit_up hit_same hit_down].
  rewrite !stars_count_snoc, other_stars_count_snoc, !hits_count_snoc.
  rewrite !fmap_app, sum_of_app, fold_left_app, length_app.
  assert (Hsum : forall x, sum_of (stars <$> [x]) = stars x)
    by (intros x; unfold sum_of; cbn; lia).
  rewrite Hsum, Nat2Z.inj_add. unfold extracted.
  cbn [stars hit_type length fmap list_fmap fold_left destruction].
  set (dth := from_option townhallLevel 0 (lookup !! Some (defenderTag a))).
  destruct (Z.eqb_spec (raw_stars a) 3) as [E3|E3];
    destruct (Z.eqb_spec (raw_stars a) 2) as [E2|E2];
    destruct (Z.eqb_spec (raw_stars a) 1) as [E1|E1]; try lia;
    destruct (th_m <? dth); destruct (dth <? th_m);
    f_equal;
    first [reflexivity|lia
          |match goal with
           | |- context [String.eqb ?u ?v] =>
               let r := eval vm_compute in (String.eqb u v) in
               change (String.eqb u v) with r
           end; cbv iota; lia].
Qed.

Lemma record_attacks_stats_of lookup th_m n t th0 ms l :
  forall hits,
    fold_left (record_attack lookup th_m) l (stats_of n t th0 ms hits) =
    stats_of n t th0 ms (hits ++ (extracted lookup th_m <$> l)).
Proof.
  induction l as [|a l IH]; intros hits; cbn [fold_left fmap list_fmap].
  - by rewrite app_nil_r.
  - rewrite record_attack_stats_of, IH, <- app_assoc. done.
Qed.

Lemma initial_stats_of n t th0 : initial_stats n t th0 = stats_of n t th0 0 [].
Proof. reflexivity. Qed.

Lemma set_missed_stats_of n t th0 ms hits k :
  set_missed_attacks (stats_of n t th0 ms hits) k = stats_of n t th0 k hits.
Proof. reflexivity. Qed.

(** ** The counters of every entry *)

Lemma length_by_stars l :
  Z.of_nat (length l) =
  stars_count 3 l + stars_count 2 l + stars_count 1 l + other_stars_count l.
Proof.
  induction l as [|x l IH] using rev_ind; [done|].
  rewrite !stars_count_snoc, other_stars_count_snoc, length_app, Nat2Z.inj_add.
  cbn [length].
  destruct (Z.eqb_spec (stars x) 3), (Z.eqb_spec (stars x) 2), (Z.eqb_spec (stars x) 1);
    lia.
Qed.

Lemma length_by_hits l :
  Forall known_hit l ->
  Z.of_nat (length l) =
  hits_count "↑ UP" l + hits_count "= SAME" l + hits_count "↓ DOWN" l.
Proof.
  induction l as [|x l IH] using rev_ind; [done|].
  intros [Hl Hx]%Forall_app. apply Forall_inv in Hx.
  rewrite !hits_count_snoc, length_app, Nat2Z.inj_add, IH by done.
  cbn [length]. unfold known_hit in Hx. destruct Hx as [-> | [-> | ->]];
    repeat match goal with
           | |- context [String.eqb ?u ?v] =>
               let r := eval vm_compute in (String.eqb u v) in
               change (String.eqb u v) with r
           end; cbv iota; lia.
Qed.

Lemma extracted_known lookup th_m a : known_hit (extracted lookup th_m a).
Proof.
  unfold known_hit, extracted. cbn [hit_type].
  destruct (_ <? _); [by left|]. destruct (_ <? _); [by right; right|by right; left].
Qed.

Lemma stats_of_ok n t th0 ms hits :
  ms = 0 \/ ms = 2 -> Forall known_hit hits -> entry_ok t (stats_of n t th0 ms hits).
Proof.
  intros Hms Hk. unfold entry_ok, stats_of.
  cbn [ps_name ps_tag th ps_attacks total_stars total_destruction new_stars
       attacks_used missed_attacks three_stars two_stars one_star zero_stars
       hit_up hit_same hit_down].
  pose proof (length_by_stars hits). pose proof (length_by_hits hits Hk).
  repeat split; first [done|lia].
Qed.

Lemma od_set_Forall {V} (P : string * V -> Prop) k v (d : odict V) :
  Forall P d -> P (k, v) -> Forall P (od_set k v d).
Proof.
  intros Hd Hv. induction d as [|[k' v'] d IH]; cbn [od_set].
  - by constructor.
  - apply Forall_cons in Hd as [H1 H2].
    destruct (String.eqb_spec k k') as [->|Hne]; constructor; auto.
Qed.

Lemma analyze_member_shaped lookup stats m :
  Forall shaped stats -> Forall shaped (analyze_member lookup stats m).
Proof.
  intros Hs. unfold analyze_member.
  set (t := default "" (tag m)).
  assert (He : exists n th0 ms hits,
             default (initial_stats (name m) t (townhallLevel m)) (od_get stats t) =
             stats_of n t th0 ms hits /\ (ms = 0 \/ ms = 2) /\ Forall known_hit hits).
  { destruct (od_get stats t) as [p|] eqn:E.
    - apply od_get_elem in E. rewrite Forall_forall in Hs. apply (Hs _ E).
    - exists (name m), (townhallLevel m), 0, []. split; [done|]. split; [by left|constructor]. }
  destruct He as (n & th0 & ms & hits & -> & Hms & Hk).
  destruct (attacks m) as [|a l] eqn:Ea.
  - apply od_set_Forall; [done|]. exists n, th0, 2, hits.
    split; [done|]. split; [by right|done].
  - apply od_set_Forall; [done|].
    rewrite record_attacks_stats_of. eexists n, th0, ms, _.
    split; [done|]. split; [done|]. apply Forall_app. split; [done|].
    apply Forall_fmap, Forall_forall. intros x _. apply extracted_known.
Qed.

(** X12: in the result of [analyze_war_attacks] every entry carries the
tag it is filed under, and its counters agree with its own attack list:
[attacks_used] is the length, [total_stars] the sum of the stars, the four
star buckets and the three hit-direction counters count the attacks of each
kind and both add up to [attacks_used]; [new_stars] is always 0 and
[missed_attacks] is 0 or 2. *)
Theorem extracted_entries_consistent (w : war) (k : string) (p : player_stats) :
  (k, p) ∈ analyze_war_attacks w -> entry_ok k p.
Proof.
  intros Hin.
  assert (Hall : Forall shaped (analyze_war_attacks w)).
  { unfold analyze_war_attacks. destruct (clan_members w) as [|m0 ms]; [constructor|].
    generalize (sorted_by mapPosition (m0 :: ms)). intros l.
    assert (Hgen : forall stats, Forall shaped stats ->
               Forall shaped (fold_left (analyze_member (opponent_lookup (opponent_members w))) l stats)).
    { induction l as [|m l IH]; intros stats Hs; [done|].
      cbn [fold_left]. apply IH. by apply analyze_member_shaped. }
    apply Hgen. constructor. }
  rewrite Forall_forall in Hall.
  destruct (Hall _ Hin) as (n & th0 & ms & hits & E & Hms & Hk).
  cbn [fst snd] in E. subst p. by apply stats_of_ok.
Qed.

Lemma extracted_entries_consistent_witness :
  entry_ok "#P1"
    (stats_of "Ann" "#P1" 12 0
       [{| stars := 3; destruction := PInt 100; defender_th := 13;
           defender_pos := 1; hit_type := "↑ UP" |}]).
Proof.
  apply (extracted_entries_consistent WarExamples.small_war).
  vm_compute. apply list_elem_of_further, list_elem_of_here.
Defined.

(** ** The result for a roster with distinct tags *)

Lemma od_get_absent {V} (f : member -> V) (l : list member) t :
  t ∉ member_tag <$> l ->
  od_get ((fun m => (member_tag m, f m)) <$> l) t = None.
Proof.
  induction l as [|m l IH]; [done|]. cbn [fmap list_fmap od_get].
  intros Hn. apply not_elem_of_cons in Hn as [Hne Hn].
  destruct (String.eqb_spec t (member_tag m)); [done|]. by apply IH.
Qed.

Lemma od_set_absent {V} k (v : V) d : od_get d k = None -> od_set k v d = d ++ [(k, v)].
Proof.
  induction d as [|[k' v'] d IH]; [done|]. cbn [od_get od_set].
  destruct (String.eqb_spec k k'); [done|]. intros H. by rewrite IH.
Qed.

Lemma analyze_member_fresh lookup (done : list member) m :
  member_tag m ∉ member_tag <$> done ->
  analyze_member lookup ((fun m => (member_tag m, entry_of lookup m)) <$> done) m =
  (fun m => (member_tag m, entry_of lookup m)) <$> (done ++ [m]).
Proof.
  intros Hfresh. unfold analyze_member. fold (member_tag m).
  rewrite (od_get_absent (entry_of lookup)) by done.
  cbn [default from_option]. rewrite initial_stats_of, fmap_app.
  cbn [fmap list_fmap]. unfold entry_of.
  destruct (attacks m) as [|a l] eqn:Ea.
  - rewrite set_missed_stats_of.
    by rewrite (od_set_absent _ _ _ (od_get_absent (entry_of lookup) done _ Hfresh)).
  - rewrite record_attacks_stats_of. cbn [app].
    by rewrite (od_set_absent _ _ _ (od_get_absent (entry_of lookup) done _ Hfresh)).
Qed.

Lemma analyze_members_closed lookup (l : list member) :
  forall done,
    NoDup (member_tag <$> (done ++ l)) ->
    fold_left (analyze_member lookup) l
      ((fun m => (member_tag m, entry_of lookup m)) <$> done) =
    (fun m => (member_tag m, entry_of lookup m)) <$> (done ++ l).
Proof.
  induction l as [|m l IH]; intros done Hnd.
  - by rewrite app_nil_r.
  - cbn [fold_left]. rewrite analyze_member_fresh.
    + rewrite IH; rewrite <- app_assoc; done.
    + rewrite fmap_app in Hnd. apply NoDup_app in Hnd as (_ & Hd & _).
      intros Hin. apply (Hd _ Hin). cbn. left.
Qed.

Lemma analyze_war_attacks_distinct (w : war) :
  NoDup (member_tag <$> clan_members w) ->
  analyze_war_attacks w =
  (fun m => (member_tag m, entry_of (opponent_lookup (opponent_members w)) m))
    <$> sorted_by mapPosition (clan_members w).
Proof.
  intros Hnd. unfold analyze_war_attacks.
  destruct (clan_members w) as [|m0 ms] eqn:Ec; [done|].
  apply (analyze_members_closed _ _ []). cbn [app].
  by rewrite sorted_by_Permutation.
Qed.

(** X13: for a roster whose members have distinct tags, the result of
[analyze_war_attacks] is, in the order of the map positions (members with
equal positions in roster order), one entry per member under the member's
tag: name, tag and town hall of the member, one extracted attack per attack
in order, the counters of these attacks, and [missed_attacks] 2 exactly for
a member without attacks. *)
Theorem extractor_closed_form (w : war) :
  NoDup (member_tag <$> clan_members w) ->
  analyze_war_attacks w =
  (fun m => (member_tag m, entry_of (opponent_lookup (opponent_members w)) m))
    <$> sorted_by mapPosition (clan_members w).
Proof.
  intros Hnd. destruct (clan_members w) as [|m0 ms] eqn:Ec.
  - unfold analyze_war_attacks. by rewrite Ec.
  - rewrite <- Ec in Hnd |- *. by apply analyze_war_attacks_distinct.
Qed.

Lemma extractor_closed_form_witness :
  analyze_war_attacks WarExamples.small_war =
  [("#P2"%string, entry_of (opponent_lookup [WarExamples.enemy]) WarExamples.sleeper);
   ("#P1"%string, entry_of (opponent_lookup [WarExamples.enemy]) WarExamples.attacker)].
Proof.
  rewrite extractor_closed_form; [reflexivity|].
  apply (bool_decide_unpack _). vm_compute. exact I.
Defined.

End WarMoreFacts.

(** * Recording the current war in the history *)

Section RecordingFacts.
Import History HistorySpec HistoryMore Recording.

Lemma same_statistics_refl r : same_statistics r r.
Proof. repeat split. Qed.

Lemma same_statistics_trans r1 r2 r3 :
  same_statistics r1 r2 -> same_statistics r2 r3 -> same_statistics r1 r3.
Proof.
  unfold same_statistics.
  intros (? & ? & ? & ? & ? & ? & ? & ? & ? & ? & ?) (? & ? & ? & ? & ? & ? & ? & ? & ? & ? & ?).
  repeat split; congruence.
Qed.

(** ** The keys of the extractor's result *)

Lemma od_set_elem {V} k (v : V) d k' v' :
  (k', v') ∈ War.od_set k v d -> k' = k \/ (k', v') ∈ d.
Proof.
  induction d as [|[k0 v0] d IH]; cbn [War.od_set].
  - intros H. apply list_elem_of_singleton in H. injection H as -> ->. by left.
  - destruct (String.eqb_spec k k0) as [->|Hne].
    + intros H. apply elem_of_cons in H as [H|H].
      * injection H as -> ->. by left.
      * right. by right.
    + intros H. apply elem_of_cons in H as [H|H].
      * right. rewrite H. left.
      * destruct (IH H) as [|]; [by left|]. right. by right.
Qed.

Lemma every_member_listed w m :
  m ∈ War.clan_members w ->
  is_Some (War.od_get (War.analyze_war_attacks w) (WarSpec.member_tag m)).
Proof.
  intros Hm. unfold War.analyze_war_attacks.
  destruct (War.clan_members w) as [|m0 ms] eqn:E; [by apply elem_of_nil in Hm|].
  apply analyze_members_listed. by rewrite sorted_by_Permutation.
Qed.

Lemma analyze_war_attacks_keys w k p :
  (k, p) ∈ War.analyze_war_attacks w ->
  k ∈ WarSpec.member_tag <$> War.clan_members w.
Proof.
  unfold War.analyze_war_attacks.
  destruct (War.clan_members w) as [|m0 ms]; [by intros ?%elem_of_nil|].
  rewrite <- (sorted_by_Permutation War.mapPosition (m0 :: ms)) at 2.
  generalize (War.sorted_by War.mapPosition (m0 :: ms)). intros l.
  assert (Hgen : forall d,
             (k, p) ∈ fold_left (War.analyze_member
                                   (War.opponent_lookup (War.opponent_members w))) l d ->
             (exists p', (k, p') ∈ d) \/ k ∈ WarSpec.member_tag <$> l).
  { induction l as [|m l IH]; intros d Hin; [left; by eexists|].
    cbn [fold_left] in Hin. destruct (IH _ Hin) as [[p' Hp']|Hk].
    - unfold War.analyze_member in Hp'.
      destruct (War.attacks m); apply od_set_elem in Hp' as [->|Hp'];
        first [right; left|left; by eexists].
    - right. by right. }
  intros Hin. destruct (Hgen [] Hin) as [[p' Hp']|]; [by apply elem_of_nil in Hp'|done].
Qed.

Lemma analyze_war_attacks_all_keys w t :
  t ∈ WarSpec.member_tag <$> War.clan_members w ->
  exists p, (t, p) ∈ War.analyze_war_attacks w.
Proof.
  intros (m & -> & Hm)%list_elem_of_fmap.
  destruct (every_member_listed w m Hm) as [p Hp].
  exists p. by apply od_get_elem.
Qed.

(** ** One pass of the recording loop *)

Lemma grown_keeps_id r r' id : grown r r' -> id ∈ war_ids r -> id ∈ war_ids r'.
Proof.
  intros (_ & [l ->] & _) Hin. apply elem_of_app. by left.
Qed.

Lemma record_item_recorded id now st item :
  exists r, players (record_item id now st item).1 !! item.1 = Some r /\
            id ∈ war_ids r.
Proof. unfold record_item. cbn [fst]. apply update_records_war. Qed.

Lemma record_item_keeps id now st item k r id' :
  players st.1 !! k = Some r -> id' ∈ war_ids r ->
  exists r', players (record_item id now st item).1 !! k = Some r' /\
             id' ∈ war_ids r'.
Proof.
  intros Hr Hid. unfold record_item. cbn [fst].
  destruct (update_grows st.1 item.1 (War.ps_name item.2) (War.th item.2) item.2
              "regular_war" id (fun i => now (st.2 + i)%nat) k r Hr) as (r' & Hr' & Hg).
  exists r'. split; [done|]. by eapply grown_keeps_id.
Qed.

Lemma fold_recorded id now items :
  forall st k,
    k ∈ items.*1 \/ (exists r, players st.1 !! k = Some r /\ id ∈ war_ids r) ->
    exists r', players (fold_left (record_item id now) items st).1 !! k = Some r' /\
               id ∈ war_ids r'.
Proof.
  induction items as [|item items IH]; intros st k H.
  - destruct H as [H|H]; [by apply elem_of_nil in H|done].
  - cbn [fold_left]. apply IH.
    destruct H as [H|(r & Hr & Hid)].
    + rewrite fmap_cons in H. apply elem_of_cons in H as [->|H]; [|by left].
      right. apply record_item_recorded.
    + right. by eapply record_item_keeps.
Qed.

Lemma record_item_same id now st item r0 :
  players st.1 !! item.1 = Some r0 -> id ∈ war_ids r0 ->
  (forall k r, players st.1 !! k = Some r ->
     exists r', players (record_item id now st item).1 !! k = Some r' /\
                same_statistics r r') /\
  (forall k, players st.1 !! k = None ->
     players (record_item id now st item).1 !! k = None).
Proof.
  intros Hr0 Hid. unfold record_item. cbn [fst].
  rewrite (update_recorded _ _ _ _ _ _ _ _ r0 Hr0 Hid). cbn [players set_players].
  split.
  - intros k r Hr. destruct (decide (item.1 = k)) as [<-|Hne].
    + rewrite lookup_insert_eq. eexists. split; [done|].
      assert (r = r0) as -> by congruence. apply same_statistics_refresh.
    + rewrite lookup_insert_ne by done. exists r. split; [done|apply same_statistics_refl].
  - intros k Hk. rewrite lookup_insert_ne; [done|]. intros <-. congruence.
Qed.

Lemma fold_same id now items :
  forall st,
    (forall k, k ∈ items.*1 ->
       exists r, players st.1 !! k = Some r /\ id ∈ war_ids r) ->
    (forall k r, players st.1 !! k = Some r ->
       exists r', players (fold_left (record_item id now) items st).1 !! k = Some r' /\
                  same_statistics r r') /\
    (forall k, players st.1 !! k = None ->
       players (fold_left (record_item id now) items st).1 !! k = None).
Proof.
  induction items as [|item items IH]; intros st Hall.
  - split; [|done]. intros k r Hr. exists r. split; [done|apply same_statistics_refl].
  - cbn [fold_left].
    destruct (Hall item.1) as (r0 & Hr0 & Hid0); [rewrite fmap_cons; left|].
    destruct (record_item_same id now st item r0 Hr0 Hid0) as [Hs Hn].
    destruct (IH (record_item id now st item)) as [Hs' Hn'].
    { intros k Hk. destruct (Hall k) as (r & Hr & Hid); [rewrite fmap_cons; by right|].
      destruct (Hs k r Hr) as (r' & Hr' & Hsame). exists r'. split; [done|].
      destruct Hsame as (_ & _ & _ & _ & _ & _ & _ & _ & _ & _ & ->). done. }
    split.
    + intros k r Hr. destruct (Hs k r Hr) as (r' & Hr' & Hsame).
      destruct (Hs' k r' Hr') as (r'' & Hr'' & Hsame').
      exists r''. split; [done|]. by eapply same_statistics_trans.
    + intros k Hk. apply Hn'. by apply Hn.
Qed.

(** What [main] does with a war in a recordable state. *)
Lemma record_current_war_recordable now hd w :
  recordable w = true ->
  record_current_war now hd (Some w) =
  (fold_left (record_item (generate_war_id w) now)
     (War.analyze_war_attacks (cw_war w)) (hd, 0%nat)).1.
Proof.
  unfold recordable, record_current_war, analyze_current_war.
  intros H%bool_decide_eq_true.
  assert (Hst : cw_state w = Some "inWar" \/ cw_state w = Some "warEnded" \/
                cw_state w = Some "preparation").
  { repeat (apply elem_of_cons in H as [H|H]; [tauto|]). by apply elem_of_nil in H. }
  destruct Hst as [-> | [-> | ->]]; cbn;
    by destruct (War.analyze_war_attacks (cw_war w)).
Qed.

Lemma record_current_war_cases now hd w :
  record_current_war now hd (Some w) = hd \/
  record_current_war now hd (Some w) =
  (fold_left (record_item (generate_war_id w) now)
     (War.analyze_war_attacks (cw_war w)) (hd, 0%nat)).1.
Proof.
  unfold record_current_war. case_bool_decide; [by left|].
  destruct (analyze_current_war w) as [[|item items]|] eqn:E; try by left.
  right. unfold analyze_current_war in E.
  destruct (String.eqb _ "notInWar"); [done|].
  destruct (_ || _); [|done]. by injection E as ->.
Qed.

(** X14: once [main] has filed the current war, filing a later snapshot of
the same war (same war id, no new roster tag) changes no statistics of any
player and adds no player, whatever attacks the snapshot holds.  In
particular a war first seen in preparation, or with attacks still to come,
never gets its later attacks into the history. *)
Theorem current_war_filed_once
    (now now' : nat -> string) (hd : historical_data) (w w' : current_war) :
  recordable w = true ->
  generate_war_id w' = generate_war_id w ->
  roster_tags w' ⊆ roster_tags w ->
  let hd1 := record_current_war now hd (Some w) in
  let hd2 := record_current_war now' hd1 (Some w') in
  (forall k r1, players hd1 !! k = Some r1 ->
     exists r2, players hd2 !! k = Some r2 /\ same_statistics r1 r2) /\
  (forall k, players hd1 !! k = None -> players hd2 !! k = None).
Proof.
  intros Hrec Hid Htags hd1 hd2.
  destruct (record_current_war_cases now' hd1 w') as [E|E]; fold hd2 in E; rewrite E.
  { split; [|done]. intros k r1 Hr1. exists r1. split; [done|apply same_statistics_refl]. }
  rewrite Hid. apply (fold_same _ _ _ (hd1, 0%nat)). cbn [fst].
  intros k Hk. apply list_elem_of_fmap in Hk as ([k' p] & -> & Hin). cbn [fst].
  apply analyze_war_attacks_keys in Hin. apply Htags in Hin.
  apply analyze_war_attacks_all_keys in Hin as [p0 Hp0].
  subst hd1. rewrite record_current_war_recordable by done.
  apply fold_recorded. left. apply list_elem_of_fmap. by exists (k', p0).
Qed.

Lemma current_war_filed_once_witness :
  let hd1 := record_current_war RecordingExamples.clock RecordingExamples.empty_store
               (Some RecordingExamples.in_preparation) in
  let hd2 := record_current_war RecordingExamples.clock hd1
               (Some RecordingExamples.ended) in
  exists r1 r2,
    players hd1 !! "#P1"%string = Some r1 /\
    players hd2 !! "#P1"%string = Some r2 /\
    same_statistics r1 r2 /\ total_attacks r1 = 0.
Proof.
  intros hd1 hd2.
  destruct (players hd1 !! "#P1"%string) as [r1|] eqn:E;
    [|vm_compute in E; discriminate].
  destruct (current_war_filed_once RecordingExamples.clock RecordingExamples.clock
              RecordingExamples.empty_store RecordingExamples.in_preparation
              RecordingExamples.ended) as [Hs _].
  - reflexivity.
  - reflexivity.
  - apply (bool_decide_unpack _). vm_compute. exact I.
  - destruct (Hs "#P1"%string r1 E) as (r2 & Hr2 & Hsame).
    exists r1, r2. split; [reflexivity|]. split; [exact Hr2|]. split; [exact Hsame|].
    vm_compute in E. injection E as <-. reflexivity.
Defined.

(** ** The first filing of a war *)

Lemma record_item_other id now st item k :
  item.1 <> k ->
  players (record_item id now st item).1 !! k = players st.1 !! k.
Proof. intros Hne. unfold record_item. cbn [fst]. by apply update_lookup_other. Qed.

Lemma fold_other id now items :
  forall st k, k ∉ items.*1 ->
    players (fold_left (record_item id now) items st).1 !! k = players st.1 !! k.
Proof.
  induction items as [|item items IH]; intros st k Hk; [done|].
  rewrite fmap_cons in Hk. apply not_elem_of_cons in Hk as [Hne Hk].
  cbn [fold_left]. rewrite IH by done. by apply record_item_other.
Qed.

Lemma fold_distinct id now items :
  forall st k p,
    NoDup items.*1 -> (k, p) ∈ items ->
    exists clock,
      players (fold_left (record_item id now) items st).1 !! k =
      players (update_player_historical_stats st.1 k (War.ps_name p) (War.th p) p
                 "regular_war" id clock) !! k.
Proof.
  induction items as [|item items IH]; intros st k p Hnd Hin;
    [by apply elem_of_nil in Hin|].
  rewrite fmap_cons in Hnd. apply NoDup_cons in Hnd as [Hfresh Hnd].
  cbn [fold_left]. apply elem_of_cons in Hin as [<-|Hin].
  - rewrite fold_other by done. unfold record_item. cbn [fst snd]. by eexists.
  - assert (Hne : item.1 <> k).
    { intros <-. apply Hfresh. apply list_elem_of_fmap. by exists (item.1, p). }
    destruct (IH (record_item id now st item) k p Hnd Hin) as [clock Hc].
    exists clock. rewrite Hc.
    pose proof (record_item_other id now st item k Hne) as Ho.
    pose proof (update_cases (record_item id now st item).1 k (War.ps_name p)
                  (War.th p) p "regular_war" id clock) as H1.
    pose proof (update_cases st.1 k (War.ps_name p)
                  (War.th p) p "regular_war" id clock) as H2.
    cbv zeta in H1, H2. rewrite Ho in H1.
    destruct H1 as [[Hin1 ->]|[Hn1 ->]], H2 as [[Hin2 ->]|[Hn2 ->]]; done.
Qed.

(** X15: when [main] files a war in a recordable state whose roster has
distinct tags, every member whose record does not list the war yet gets
it filed once: the war id is appended, [wars_participated] grows by one,
the name is the member's, one log entry per attack of the member is
appended with the stars of that attack, and the attack and star totals
grow by the number and the stars of the member's attacks.  Records of
players outside the roster are not touched. *)
Theorem current_war_first_filing
    (now : nat -> string) (hd : historical_data) (w : current_war)
    (m : War.member) :
  recordable w = true ->
  NoDup (roster_tags w) ->
  m ∈ War.clan_members (cw_war w) ->
  let id := generate_war_id w in
  let k := WarSpec.member_tag m in
  let old := default (new_player_record k (War.name m) (War.townhallLevel m))
                     (players hd !! k) in
  let hd' := record_current_war now hd (Some w) in
  id ∉ war_ids old ->
  (exists r,
     players hd' !! k = Some r /\
     name r = War.name m /\
     current_th r = Z.max (current_th old) (War.townhallLevel m) /\
     war_ids r = war_ids old ++ [id] /\
     wars_participated r = wars_participated old + 1 /\
     total_attacks r = total_attacks old + Z.of_nat (length (War.attacks m)) /\
     total_stars r = total_stars old + stars_sum (War.raw_stars <$> War.attacks m) /\
     stars <$> attacks_history r =
       (stars <$> attacks_history old) ++ (War.raw_stars <$> War.attacks m)) /\
  (forall k', k' ∉ roster_tags w -> players hd' !! k' = players hd !! k').
Proof.
  intros Hrec Hnd Hm id k old hd' Hnew.
  subst hd'. rewrite record_current_war_recordable by done. fold id.
  unfold roster_tags in Hnd.
  pose proof (analyze_war_attacks_distinct (cw_war w) Hnd) as Hcf.
  set (lookup := War.opponent_lookup (War.opponent_members (cw_war w))) in *.
  set (items := War.analyze_war_attacks (cw_war w)) in *.
  assert (Hkeys : items.*1 ≡ₚ roster_tags w).
  { rewrite Hcf, <- list_fmap_compose. unfold roster_tags.
    by rewrite sorted_by_Permutation. }
  split.
  - assert (Hin : (k, WarMore.entry_of lookup m) ∈ items).
    { rewrite Hcf. apply list_elem_of_fmap. exists m. split; [done|].
      by rewrite sorted_by_Permutation. }
    destruct (fold_distinct id now items (hd, 0%nat) k _ ltac:(by rewrite Hkeys) Hin)
      as [clock ->].
    cbn [fst]. unfold WarMore.entry_of at 1 2.
    cbn [War.ps_name War.th WarMore.stats_of].
    fold (WarMore.entry_of lookup m).
    rewrite update_new by done. fold old. eexists. split; [done|].
    pose proof (record_attacks_fields (War.townhallLevel m) "regular_war" id clock
                  (War.ps_attacks (WarMore.entry_of lookup m)) 0
                  (enter_war (refresh old (War.name m) (War.townhallLevel m)) id)) as H.
    cbv zeta in H.
    destruct H as (-> & _ & -> & -> & -> & _ & -> & -> & -> & _).
    cbn [enter_war refresh name tag current_th war_ids wars_participated
         attacks_history total_attacks total_stars].
    assert (Hst : War.stars <$> War.ps_attacks (WarMore.entry_of lookup m) =
                  War.raw_stars <$> War.attacks m).
    { unfold WarMore.entry_of, WarMore.stats_of. cbn [War.ps_attacks].
      rewrite <- list_fmap_compose. done. }
    rewrite fmap_app, history_entries_stars, Hst.
    assert (Hlen : length (War.ps_attacks (WarMore.entry_of lookup m)) =
                   length (War.attacks m)).
    { unfold WarMore.entry_of, WarMore.stats_of. cbn [War.ps_attacks].
      by rewrite length_fmap. }
    rewrite Hlen. repeat split; reflexivity.
  - intros k' Hk'. rewrite fold_other; [done|]. by rewrite Hkeys.
Qed.

Lemma current_war_first_filing_witness :
  exists r,
    players (record_current_war RecordingExamples.clock RecordingExamples.empty_store
               (Some RecordingExamples.ended)) !! "#P1"%string = Some r /\
    war_ids r = ["#2J28LL2VU_#ENEMY_20250101T000000.000Z"%string] /\
    total_attacks r = 1 /\ total_stars r = 3.
Proof.
  destruct (current_war_first_filing RecordingExamples.clock
              RecordingExamples.empty_store RecordingExamples.ended
              WarExamples.attacker) as [(r & Hr & _ & _ & Hw & _ & Ha & Hs & _) _].
  - reflexivity.
  - apply (bool_decide_unpack _). vm_compute. exact I.
  - apply list_elem_of_here.
  - apply (bool_decide_unpack _). vm_compute. exact I.
  - exists r. split; [exact Hr|]. split; [exact Hw|]. split; [exact Ha|exact Hs].
Defined.

(** ** War ids *)

Lemma lacks_split c s1 s2 r1 r2 :
  lacks c s1 = true -> lacks c s2 = true ->
  s1 +:+ String c r1 = s2 +:+ String c r2 -> s1 = s2 /\ r1 = r2.
Proof.
  revert s2. induction s1 as [|a s1 IH]; intros [|b s2]; cbn [lacks String.app];
    intros H1 H2 E.
  - injection E as ->. done.
  - injection E as <- _. apply andb_prop in H2 as [H2 _].
    by rewrite Ascii.eqb_refl in H2.
  - injection E as -> _. apply andb_prop in H1 as [H1 _].
    by rewrite Ascii.eqb_refl in H1.
  - injection E as -> E. apply andb_prop in H1 as [_ H1]. apply andb_prop in H2 as [_ H2].
    destruct (IH s2 H1 H2 E) as [-> ->]. done.
Qed.

(** X16: [generate_war_id] tells wars apart: when the clan tags hold no
underscore, two wars with the same id have the same clan tag, opponent tag
and preparation start time. *)
Theorem war_id_identifies_war (w w' : current_war) :
  lacks underscore (cw_clan_tag w) = true -> lacks underscore (cw_opponent_tag w) = true ->
  lacks underscore (cw_clan_tag w') = true -> lacks underscore (cw_opponent_tag w') = true ->
  generate_war_id w = generate_war_id w' ->
  cw_clan_tag w = cw_clan_tag w' /\
  cw_opponent_tag w = cw_opponent_tag w' /\
  cw_preparationStartTime w = cw_preparationStartTime w'.
Proof.
  unfold generate_war_id. intros H1 H2 H1' H2' E.
  change ("_" +:+ ?s) with (String underscore s) in E.
  apply lacks_split in E as [E1 E]; [|done..].
  apply lacks_split in E as [E2 E3]; [|done..]. done.
Qed.

Lemma war_id_identifies_war_witness :
  cw_preparationStartTime RecordingExamples.in_preparation =
  cw_preparationStartTime RecordingExamples.ended.
Proof.
  apply (war_id_identifies_war RecordingExamples.in_preparation RecordingExamples.ended);
    reflexivity.
Defined.

End RecordingFacts.

